(** * Automatic CIDR assignment to cluster subnets

    A shallow embedding of [assignCIDRsToSubnets] and [allSubnetsHaveCIDRs]
    (upup/pkg/fi/cloudup/subnets.go) together with the parts of Go's [net]
    package and of kops' [pkg/util/subnet] package they call, and the
    properties of the allocation that the design document states.

    Conventions of the embedding:
    - an IPv4 address is the big-endian 32-bit value of its four bytes, a [Z]
      in [0, 2^32); a network mask is its number of leading ones.  The
      embedding covers the IPv4 address family, the only one the splitting
      helpers accept;
    - [c.Spec.Networking.Subnets] is a list of records; a pointer
      [&c.Spec.Networking.Subnets[i]] is the index [i], dereferenced in the
      current list, so that a write through the pointer is a list update;
    - the function mutates the subnets in place and returns an error: the
      embedding returns the final list of subnets and an [option error]. *)

From Stdlib Require Import ZArith Lia Bool Ascii String DecimalString.
From stdpp Require Import base option list sorting gmap strings.

Local Open Scope Z_scope.

(** ** Decimal text *)

Module strconv.

(** The value of a decimal digit, [None] for any other byte. *)
Definition digit (a : ascii) : option Z :=
  let n := Z.of_N (N_of_ascii a) in
  if (48 <=? n) && (n <=? 57) then Some (n - 48) else None.

(** Left-to-right accumulation of a run of digits; [None] when a byte is
    not a digit. *)
Fixpoint digits (acc : Z) (s : string) : option Z :=
  match s with
  | EmptyString => Some acc
  | String a r =>
      match digit a with
      | Some d => digits (10 * acc + d) r
      | None => None
      end
  end.

(** [strconv.Itoa] on a non-negative number. *)
Definition Itoa (n : Z) : string :=
  NilZero.string_of_uint (N.to_uint (Z.to_N n)).

(** The pieces of [s] between the occurrences of the byte [c]. *)
Fixpoint splitOn (c : ascii) (s : string) : list string :=
  match s with
  | EmptyString => [EmptyString]
  | String a r =>
      if Ascii.eqb a c then EmptyString :: splitOn c r
      else match splitOn c r with
           | p :: ps => String a p :: ps
           | [] => [String a EmptyString]
           end
  end.

(** [s] up to its first [c] and what follows it; [None] when [c] does not
    occur ([strings.IndexByte] returning -1). *)
Fixpoint cut (c : ascii) (s : string) : option (string * string) :=
  match s with
  | EmptyString => None
  | String a r =>
      if Ascii.eqb a c then Some (EmptyString, r)
      else match cut c r with
           | Some (p, q) => Some (String a p, q)
           | None => None
           end
  end.

Fixpoint contains (c : ascii) (s : string) : bool :=
  match s with
  | EmptyString => false
  | String a r => Ascii.eqb a c || contains c r
  end.

End strconv.

(** ** Package [net]: IPv4 networks *)

Module net.

(** [net.IPNet] of the IPv4 family: [IP] is the network number, [Mask] the
    number of leading ones of the mask ([net.CIDRMask Mask 32]). *)
Record IPNet := { IP : Z; Mask : Z }.

#[global] Instance IPNet_eq_dec : EqDecision IPNet.
Proof. solve_decision. Defined.

(** The 32-bit mask with [ones] leading ones. *)
Definition maskBits (ones : Z) : Z := Z.shiftl (Z.ones ones) (32 - ones).

(** [ip.Mask(mask)]. *)
Definition maskIP (ip ones : Z) : Z := Z.land ip (maskBits ones).

(** [IPNet.Contains]: the address agrees with the network number on
    every bit of the mask. *)
Definition Contains (n : IPNet) (ip : Z) : bool :=
  maskIP (IP n) (Mask n) =? maskIP ip (Mask n).

(** One field of a dotted quad: a non-empty run of digits, no leading
    zero unless the field is the single digit zero, value at most 255. *)
Definition parseOctet (s : string) : option Z :=
  match s with
  | EmptyString => None
  | String a r =>
      if Ascii.eqb a "0" && negb (String.eqb r EmptyString) then None
      else match strconv.digits 0 s with
           | Some v => if v <=? 255 then Some v else None
           | None => None
           end
  end.

(** The IPv4 branch of [netip.ParseAddr]. *)
Definition parseIPv4 (s : string) : option Z :=
  match strconv.splitOn "." s with
  | [f0; f1; f2; f3] =>
      match parseOctet f0, parseOctet f1, parseOctet f2, parseOctet f3 with
      | Some b0, Some b1, Some b2, Some b3 =>
          Some (Z.lor (Z.shiftl b0 24)
                  (Z.lor (Z.shiftl b1 16) (Z.lor (Z.shiftl b2 8) b3)))
      | _, _, _, _ => None
      end
  | _ => None
  end.

(** The prefix length after the slash ([dtoi]): a non-empty run of digits
    and nothing else, at most 32. *)
Definition parseMask (s : string) : option Z :=
  match s with
  | EmptyString => None
  | _ => match strconv.digits 0 s with
         | Some n => if n <=? 32 then Some n else None
         | None => None
         end
  end.

(** [net.ParseCIDR], second result, on the text of an IPv4 network: the
    network with its number masked.  Text with a colon, which Go may read as
    an IPv6 network, is outside the embedding (it is rejected here);
    statements that assert a parse error carry the hypothesis [ipv4Text]. *)
Definition ParseCIDR (s : string) : option IPNet :=
  match strconv.cut "/" s with
  | None => None
  | Some (addr, mask) =>
      match parseIPv4 addr, parseMask mask with
      | Some ip, Some n => Some {| IP := maskIP ip n; Mask := n |}
      | _, _ => None
      end
  end.

Definition octet (ip : Z) (k : Z) : Z := Z.land (Z.shiftr ip k) 255.

(** [IPNet.String]: the dotted quad, a slash and the prefix length. *)
Definition IPNet_String (n : IPNet) : string :=
  strconv.Itoa (octet (IP n) 24) +:+ "." +:+
  strconv.Itoa (octet (IP n) 16) +:+ "." +:+
  strconv.Itoa (octet (IP n) 8) +:+ "." +:+
  strconv.Itoa (octet (IP n) 0) +:+ "/" +:+
  strconv.Itoa (Mask n).

End net.

(** ** Errors

  One constructor per [fmt.Errorf] of the function (and one for an error
  handed back by a collaborator), carrying the values the message is
  formatted from. *)

Inductive pool := LittlePool | BigPool.

Inductive error :=
| CloudError (msg : string)
  (* the error returned by cloud.FindVPCInfo *)
| VPCNotFound (networkID : string)
  (* "VPC %q not found" *)
| ExternalSubnetNotFound (id networkID : string)
  (* "Subnet %q not found in VPC %q" *)
| MissingExternalCIDR (id : string)
  (* "Subnet %q did not have CIDR" *)
| CIDRMismatch (id cidr actual : string)
  (* "Subnet %q has configured CIDR %q, but the actual CIDR found was %q" *)
| ZoneMismatch (id zone actual : string)
  (* "Subnet %q has configured Zone %q, but the actual Zone found was %q" *)
| InvalidParentCIDR (networkCIDR : string)
  (* "Invalid NetworkCIDR: %q" *)
| InvalidSubnetCIDR (name cidr : string)
  (* "invalid subnet %q CIDR: %q" *)
| UnknownSubnetRole (name type : string)
  (* "subnet %q has unknown type %q" *)
| UnexpectedSubnetCIDR (name cidr : string)
  (* "subnet %q has unexpected CIDR %q" *)
| SplitError (parent : net.IPNet)
  (* the error returned by subnet.SplitInto1/2/4/8 *)
| NoCIDRsAvailable
  (* "could not find any non-overlapping CIDRs in parent NetworkCIDR; ..." *)
| InsufficientCIDRs (p : pool) (name : string)
  (* "insufficient (little|big) CIDRs remaining for automatic CIDR
     allocation to subnet %q" *).

(** ** Package [kops]: the cluster's subnets *)

Module kops.

(** [kops.ClusterSubnetSpec], the fields the function reads or writes.
    [Type_] is the Go field [Type]. *)
Record ClusterSubnetSpec := {
  Name : string;
  Zone : string;
  CIDR : string;
  IPv6CIDR : string;
  ID : string;
  Type_ : string
}.

(** Modelled from the spec: the four role constants of package [kops]
    (pkg/apis/kops), whose declarations are not among the sources; the
    design document names the roles dual-stack, public, private and
    utility. *)
Definition SubnetTypeDualStack : string := "dual-stack".
Definition SubnetTypePublic : string := "public".
Definition SubnetTypePrivate : string := "private".
Definition SubnetTypeUtility : string := "utility".

(** [c.Spec.Networking], the fields the function reads or writes. *)
Record Cluster := {
  NetworkID : string;
  NetworkCIDR : string;
  Subnets : list ClusterSubnetSpec
}.

(** The zero value of the record. *)
Definition zeroSubnet : ClusterSubnetSpec :=
  {| Name := ""; Zone := ""; CIDR := ""; IPv6CIDR := ""; ID := "";
     Type_ := "" |}.

(** [subnet.CIDR = cidr] *)
Definition setCIDR (cidr : string) (sn : ClusterSubnetSpec) : ClusterSubnetSpec :=
  {| Name := Name sn; Zone := Zone sn; CIDR := cidr;
     IPv6CIDR := IPv6CIDR sn; ID := ID sn; Type_ := Type_ sn |}.

End kops.

(** ** Package [fi]: what the cloud reports about a VPC *)

Module fi.

Record SubnetInfo := { ID : string; Zone : string; CIDR : string }.

Record VPCInfo := { Subnets : list SubnetInfo }.

(** The one method of [fi.Cloud] the function calls.  The result is the
    error, or the (possibly nil) [*VPCInfo]. *)
Record Cloud := { FindVPCInfo : string -> error + option VPCInfo }.

End fi.

(** ** Package [subnet]: splitting and overlap *)

Module subnet.
Import net.

(** The lowest and the highest address of a network. *)
Definition first (n : IPNet) : Z := maskIP (IP n) (Mask n).
Definition last (n : IPNet) : Z := first n + 2 ^ (32 - Mask n) - 1.

(** Modelled from the spec: [subnet.Overlap] (pkg/util/subnet is not among
    the sources).  Two address blocks overlap iff their address ranges
    intersect at all. *)
Definition Overlap (l r : IPNet) : bool :=
  (first l <=? last r) && (first r <=? last l).

(** Modelled from the spec: the splitting rule of [subnet.SplitInto1],
    [SplitInto2], [SplitInto4] and [SplitInto8] (pkg/util/subnet is not
    among the sources).  The parent is split into [2^bits] sibling blocks
    of identical prefix length that cover it exactly, listed by ascending
    address; a parent too small to be split so is an error. *)
Definition splitInto (bits : Z) (parent : IPNet) : error + list IPNet :=
  let networkLength := Mask parent + bits in
  if networkLength <=? 32 then
    inr ((λ i : Z, {| IP := IP parent + Z.shiftl i (32 - networkLength);
                      Mask := networkLength |})
           <$> seqZ 0 (2 ^ bits))
  else inl (SplitError parent).

Definition SplitInto1 : IPNet -> error + list IPNet := splitInto 0.
Definition SplitInto2 : IPNet -> error + list IPNet := splitInto 1.
Definition SplitInto4 : IPNet -> error + list IPNet := splitInto 2.
Definition SplitInto8 : IPNet -> error + list IPNet := splitInto 3.

End subnet.

(** ** Package [cloudup]: subnets.go *)

Module cloudup.
Import net kops.

Definition isEmpty (s : string) : bool := String.eqb s "".

(** [*p] for [p = &c.Spec.Networking.Subnets[i]]. *)
Definition deref (subnets : list ClusterSubnetSpec) (p : nat) : ClusterSubnetSpec :=
  default zeroSubnet (subnets !! p).

(** [ByZone.Less]: [a[i].Zone < a[j].Zone], on the pointers themselves. *)
Definition Less (subnets : list ClusterSubnetSpec) (p q : nat) : bool :=
  String.ltb (Zone (deref subnets p)) (Zone (deref subnets q)).

(** [sort.Sort(ByZone(a))].  The element is moved towards the front while
    it is [Less] than its predecessor: the insertion sort that [sort.Sort]
    applies to a slice of at most 12 elements, in which ties keep the input
    order.  On a longer slice [sort.Sort] is not an insertion sort; its
    result is sorted all the same, and can differ from this one only in the
    order of elements of equal zone.  Statements that depend on the order of
    such elements carry the hypothesis [sortAsCode]. *)
Fixpoint insertByZone (subnets : list ClusterSubnetSpec) (p : nat) (a : list nat) : list nat :=
  match a with
  | [] => [p]
  | q :: r => if Less subnets p q then p :: q :: r
              else q :: insertByZone subnets p r
  end.

Definition sortByZone (subnets : list ClusterSubnetSpec) (a : list nat) : list nat :=
  foldl (λ sorted p, insertByZone subnets p sorted) [] a.

(** lines 232-242 *)
Fixpoint allSubnetsHaveCIDRs (subnets : list ClusterSubnetSpec) : bool :=
  match subnets with
  | [] => true
  | sn :: rest => if isEmpty (CIDR sn) then false else allSubnetsHaveCIDRs rest
  end.

(** lines 65-68: the map from ID to the cloud's record; a later record
    replaces an earlier one with the same ID. *)
Definition subnetByID (infos : list fi.SubnetInfo) : gmap string fi.SubnetInfo :=
  foldl (λ m info, <[fi.ID info := info]> m) ∅ infos.

(** lines 85-87 *)
Definition checkZone (sn : ClusterSubnetSpec) (cloudSubnet : fi.SubnetInfo) : option error :=
  if String.eqb (Zone sn) (fi.Zone cloudSubnet) then None
  else Some (ZoneMismatch (ID sn) (Zone sn) (fi.Zone cloudSubnet)).

(** lines 70-89: the body of the loop over the subnets, for one subnet.
    The subnet as the body leaves it, and the error it returns if any. *)
Definition resolveSubnet (networkID : string) (byID : gmap string fi.SubnetInfo)
    (sn : ClusterSubnetSpec) : ClusterSubnetSpec * option error :=
  if isEmpty (ID sn) then (sn, None)
  else match byID !! ID sn with
       | None => (sn, Some (ExternalSubnetNotFound (ID sn) networkID))
       | Some cloudSubnet =>
           if isEmpty (CIDR sn) then
             let sn' := setCIDR (fi.CIDR cloudSubnet) sn in
             if isEmpty (CIDR sn') then (sn', Some (MissingExternalCIDR (ID sn')))
             else (sn', checkZone sn' cloudSubnet)
           else if negb (String.eqb (CIDR sn) (fi.CIDR cloudSubnet)) then
             (sn, Some (CIDRMismatch (ID sn) (CIDR sn) (fi.CIDR cloudSubnet)))
           else (sn, checkZone sn cloudSubnet)
       end.

(** lines 69-90: the loop; it stops at the first error, the subnets
    after it untouched. *)
Fixpoint resolveSubnets (networkID : string) (byID : gmap string fi.SubnetInfo)
    (subnets : list ClusterSubnetSpec) : list ClusterSubnetSpec * option error :=
  match subnets with
  | [] => ([], None)
  | sn :: rest =>
      match resolveSubnet networkID byID sn with
      | (sn', Some e) => (sn' :: rest, Some e)
      | (sn', None) =>
          let '(rest', e) := resolveSubnets networkID byID rest in
          (sn' :: rest', e)
      end
  end.

(** lines 55-91 *)
Definition resolveExternal (cloud : fi.Cloud) (networkID : string)
    (subnets : list ClusterSubnetSpec) : list ClusterSubnetSpec * option error :=
  if negb (isEmpty networkID) then
    match fi.FindVPCInfo cloud networkID with
    | inl e => (subnets, Some e)
    | inr None => (subnets, Some (VPCNotFound networkID))
    | inr (Some vpcInfo) =>
        resolveSubnets networkID (subnetByID (fi.Subnets vpcInfo)) subnets
    end
  else (subnets, None).

(** The three slices the collecting loop builds. *)
Record candidates := {
  bigSubnets : list nat;
  littleSubnets : list nat;
  reserved : list IPNet
}.

Definition isPrimary (t : string) : bool :=
  String.eqb t SubnetTypeDualStack || String.eqb t SubnetTypePublic
  || String.eqb t SubnetTypePrivate.

(** lines 123-132: the switch on the subnet's type. *)
Definition classify (p : nat) (sn : ClusterSubnetSpec) (acc : candidates) : error + candidates :=
  if isPrimary (Type_ sn) then
    inr {| bigSubnets := bigSubnets acc ++ [p];
           littleSubnets := littleSubnets acc; reserved := reserved acc |}
  else if String.eqb (Type_ sn) SubnetTypeUtility then
    inr {| bigSubnets := bigSubnets acc;
           littleSubnets := littleSubnets acc ++ [p]; reserved := reserved acc |}
  else inl (UnknownSubnetRole (Name sn) (Type_ sn)).

(** lines 112-141: the body of the collecting loop for the subnet at
    index [p]. *)
Definition collectStep (cidr : IPNet) (p : nat) (sn : ClusterSubnetSpec)
    (acc : candidates) : error + candidates :=
  let skip : error + bool :=
    if negb (isEmpty (CIDR sn)) then
      match ParseCIDR (CIDR sn) with
      | None => inl (InvalidSubnetCIDR (Name sn) (CIDR sn))
      | Some cidrSubnet => inr (negb (Contains cidr (IP cidrSubnet)))
      end
    else inr false in
  match skip with
  | inl e => inl e
  | inr true => inr acc   (* Skip additional subnets *)
  | inr false =>
      match classify p sn acc with
      | inl e => inl e
      | inr acc' =>
          if negb (isEmpty (CIDR sn)) then
            match ParseCIDR (CIDR sn) with
            | None => inl (UnexpectedSubnetCIDR (Name sn) (CIDR sn))
            | Some subnetCIDR =>
                inr {| bigSubnets := bigSubnets acc';
                       littleSubnets := littleSubnets acc';
                       reserved := reserved acc' ++ [subnetCIDR] |}
            end
          else inr acc'
      end
  end.

(** lines 111-142: the loop, from index [p] on. *)
Fixpoint collectFrom (cidr : IPNet) (p : nat) (subnets : list ClusterSubnetSpec)
    (acc : candidates) : error + candidates :=
  match subnets with
  | [] => inr acc
  | sn :: rest =>
      match collectStep cidr p sn acc with
      | inl e => inl e
      | inr acc' => collectFrom cidr (S p) rest acc'
      end
  end.

Definition collect (cidr : IPNet) (subnets : list ClusterSubnetSpec) : error + candidates :=
  collectFrom cidr 0 subnets
    {| bigSubnets := []; littleSubnets := []; reserved := [] |}.

(** lines 149-152 *)
Definition cidrCount (big little : list nat) : nat :=
  (length big + if bool_decide (0 < length little)%nat then 1 else 0)%nat.

(** lines 154-162 *)
Definition splitParent (count : nat) (cidr : IPNet) : error + list IPNet :=
  if bool_decide (count ≤ 1)%nat then subnet.SplitInto1 cidr
  else if bool_decide (count ≤ 2)%nat then subnet.SplitInto2 cidr
  else if bool_decide (count ≤ 4)%nat then subnet.SplitInto4 cidr
  else subnet.SplitInto8 cidr.

(** lines 171-176: the inner loop, the final value of [overlapped]. *)
Definition overlapped (reserved : list IPNet) (c : IPNet) : bool :=
  foldl (λ o r, if subnet.Overlap r c then true else o) false reserved.

(** lines 168-182 *)
Definition removeOverlapping (reserved bigCIDRs : list IPNet) : list IPNet :=
  foldl (λ nonOverlapping c,
           if negb (overlapped reserved c) then nonOverlapping ++ [c]
           else nonOverlapping)
        [] bigCIDRs.

(** The test that makes the little loop pass over a subnet (line 197). *)
Definition skipLittle (sn : ClusterSubnetSpec) : bool :=
  negb (isEmpty (CIDR sn)).

(** The tests that make the big loop pass over a subnet (lines 213-218). *)
Definition skipBig (sn : ClusterSubnetSpec) : bool :=
  negb (isEmpty (CIDR sn))
  || (negb (isEmpty (IPv6CIDR sn)) && String.eqb (Type_ sn) SubnetTypePrivate).

(** lines 196-208 and 212-227: the two assigning loops differ in the test
    that skips a subnet and in the pool named by the error.  A subnet that
    is not skipped takes the first block of the pool, written into it
    through the pointer. *)
Fixpoint assignFrom (skip : ClusterSubnetSpec -> bool) (which : pool)
    (ptrs : list nat) (cidrs : list IPNet)
    (subnets : list ClusterSubnetSpec) : list ClusterSubnetSpec * option error :=
  match ptrs with
  | [] => (subnets, None)
  | p :: rest =>
      let sn := deref subnets p in
      if skip sn then assignFrom skip which rest cidrs subnets
      else match cidrs with
           | [] => (subnets, Some (InsufficientCIDRs which (Name sn)))
           | c :: cidrs' =>
               assignFrom skip which rest cidrs'
                 (<[p := setCIDR (IPNet_String c) sn]> subnets)
           end
  end.

Definition assignLittle := assignFrom skipLittle LittlePool.
Definition assignBig := assignFrom skipBig BigPool.

(** lines 184-229: from the surviving blocks to the end. *)
Definition assignPools (big little : list nat) (bigCIDRs : list IPNet)
    (subnets : list ClusterSubnetSpec) : list ClusterSubnetSpec * option error :=
  match bigCIDRs with
  | [] => (subnets, Some NoCIDRsAvailable)
  | c0 :: others =>
      if bool_decide (0 < length little)%nat then
        match subnet.SplitInto8 c0 with
        | inl e => (subnets, Some e)
        | inr littleCIDRs =>
            match assignLittle little littleCIDRs subnets with
            | (subnets', Some e) => (subnets', Some e)
            | (subnets', None) => assignBig big others subnets'
            end
        end
      else assignBig big bigCIDRs subnets
  end.

(** lines 98-229: everything after the second early exit. *)
Definition allocate (networkCIDR : string) (subnets : list ClusterSubnetSpec)
    : list ClusterSubnetSpec * option error :=
  match ParseCIDR networkCIDR with
  | None => (subnets, Some (InvalidParentCIDR networkCIDR))
  | Some cidr =>
      match collect cidr subnets with
      | inl e => (subnets, Some e)
      | inr found =>
          let big := sortByZone subnets (bigSubnets found) in
          let little := sortByZone subnets (littleSubnets found) in
          match splitParent (cidrCount big little) cidr with
          | inl e => (subnets, Some e)
          | inr bigCIDRs =>
              assignPools big little
                (removeOverlapping (reserved found) bigCIDRs) subnets
          end
      end
  end.

(** lines 46-230.  The subnets as the call leaves them, and the error
    returned ([None] for nil). *)
Definition assignCIDRsToSubnets (c : Cluster) (cloud : fi.Cloud)
    : list ClusterSubnetSpec * option error :=
  if allSubnetsHaveCIDRs (Subnets c) then (Subnets c, None)
  else
    match resolveExternal cloud (NetworkID c) (Subnets c) with
    | (subnets, Some e) => (subnets, Some e)
    | (subnets, None) =>
        if allSubnetsHaveCIDRs subnets then (subnets, None)
        else allocate (NetworkCIDR c) subnets
    end.

End cloudup.

Import net kops cloudup.

(** * Vocabulary of the statements *)

(** A well-formed IPv4 network: a prefix length between 0 and 32 and a
    32-bit network number with no bit set beyond the prefix. *)
Definition canonical (n : IPNet) : Prop :=
  0 <= Mask n <= 32 /\ 0 <= IP n < 2 ^ 32 /\ IP n mod 2 ^ (32 - Mask n) = 0.

(** Every address of [b] is an address of [a]. *)
Definition within (b a : IPNet) : Prop :=
  subnet.first a <= subnet.first b /\ subnet.last b <= subnet.last a.

(** What holds of the text of every octet, checked on the 256 of them. *)
Definition octetTextOK (n : Z) : bool :=
  bool_decide (parseOctet (strconv.Itoa n) = Some n)
  && negb (strconv.contains "." (strconv.Itoa n))
  && negb (strconv.contains "/" (strconv.Itoa n)).

(** The pointers of [ptrs] the loop does not pass over, in order. *)
Definition needs (skip : ClusterSubnetSpec -> bool)
    (subnets : list ClusterSubnetSpec) (ptrs : list nat) : list nat :=
  filter (λ p, skip (deref subnets p) = false) ptrs.

(** [subnet.CIDR = c.String()] through the pointer [p]. *)
Definition write (p : nat) (c : IPNet) (subnets : list ClusterSubnetSpec)
    : list ClusterSubnetSpec :=
  <[p := setCIDR (IPNet_String c) (deref subnets p)]> subnets.

(** The writes of a list of pairs (pointer, block), in order. *)
Definition writeAll (pcs : list (nat * IPNet)) (subnets : list ClusterSubnetSpec)
    : list ClusterSubnetSpec :=
  foldl (λ s pc, write pc.1 pc.2 s) subnets pcs.

(** The writes change nothing but the [CIDR] field. *)
Definition sameButCIDR (a b : ClusterSubnetSpec) : Prop :=
  Name a = Name b /\ Zone a = Zone b /\ IPv6CIDR a = IPv6CIDR b /\
  ID a = ID b /\ Type_ a = Type_ b.

(** The subnet takes part in the allocation: it has no CIDR yet, or its CIDR
    has its base address in the parent block. *)
Definition classified (cidr : IPNet) (sn : ClusterSubnetSpec) : bool :=
  isEmpty (CIDR sn)
  || match ParseCIDR (CIDR sn) with
     | Some n => Contains cidr (IP n)
     | None => false
     end.

(** The test of the second case of the switch (line 127). *)
Definition isUtility (t : string) : bool := String.eqb t SubnetTypeUtility.

(** The block a subnet reserves, if it reserves one. *)
Definition reservation (cidr : IPNet) (sn : ClusterSubnetSpec) : option IPNet :=
  if isEmpty (CIDR sn) then None
  else match ParseCIDR (CIDR sn) with
       | Some n => if Contains cidr (IP n) then Some n else None
       | None => None
       end.

(** The pointers, from [p] on, to the subnets of [l] that satisfy [f]. *)
Fixpoint ptrsWhere (f : ClusterSubnetSpec -> bool) (p : nat)
    (l : list ClusterSubnetSpec) : list nat :=
  match l with
  | [] => []
  | sn :: rest => if f sn then p :: ptrsWhere f (S p) rest
                  else ptrsWhere f (S p) rest
  end.

(** The error of an assigning loop: the name of the first subnet for which
    no block is left, if there is one. *)
Definition insufficient (which : pool) (subnets : list ClusterSubnetSpec)
    (needy : list nat) (cidrs : list IPNet) : option error :=
  (λ p, InsufficientCIDRs which (Name (deref subnets p))) <$> needy !! length cidrs.

(** Distinct well-formed blocks inside [parent], no two of which overlap. *)
Definition tiling (parent : IPNet) (blocks : list IPNet) : Prop :=
  NoDup blocks /\
  forall b, b ∈ blocks ->
    canonical b /\ within b parent /\
    forall b', b' ∈ blocks -> b ≠ b' -> subnet.Overlap b b' = false.

(** A private subnet that carries an IPv6 CIDR: the big loop passes over it
    (line 216). *)
Definition ipv4less (sn : ClusterSubnetSpec) : bool :=
  negb (isEmpty (IPv6CIDR sn)) && String.eqb (Type_ sn) SubnetTypePrivate.

(** The pairs (pointer, block) of a run are sound: no pointer twice; each
    pointer is to a subnet without CIDR that is not IPv4-less; each block is
    well formed, inside the parent and clear of every reservation; the
    blocks of two pairs do not overlap. *)
Definition goodPlan (cidr : IPNet) (subnets : list ClusterSubnetSpec)
    (pcs : list (nat * IPNet)) : Prop :=
  NoDup pcs.*1 /\
  (forall p c, (p, c) ∈ pcs ->
     exists sn, subnets !! p = Some sn /\ isEmpty (CIDR sn) = true /\
                ipv4less sn = false /\ canonical c /\ within c cidr /\
                forall sq r, sq ∈ subnets -> reservation cidr sq = Some r ->
                             subnet.Overlap r c = false) /\
  (forall p c p' c', (p, c) ∈ pcs -> (p', c') ∈ pcs -> p ≠ p' ->
     subnet.Overlap c c' = false).

(** Sample declarations: a subnet without external identifier. *)
Definition mk (name zone cidr ipv6 type : string) : ClusterSubnetSpec :=
  {| Name := name; Zone := zone; CIDR := cidr; IPv6CIDR := ipv6; ID := "";
     Type_ := type |}.

(** A cloud that knows no VPC. *)
Definition noCloud : fi.Cloud := {| fi.FindVPCInfo := λ _, inr None |}.

(** A cluster that names no network to resolve its subnets against. *)
Definition cluster (networkCIDR : string) (subnets : list ClusterSubnetSpec) : Cluster :=
  {| NetworkID := ""; NetworkCIDR := networkCIDR; Subnets := subnets |}.

(** [k] is the smallest power of two that is at least [n], capped at 8. *)
Definition isSplitCount (n k : nat) : Prop :=
  (k = 1 \/ k = 2 \/ k = 4 \/ k = 8)%nat /\
  (n <= 8 -> n <= k /\ forall j : nat, n <= 2 ^ j -> k <= 2 ^ j)%nat /\
  (8 < n -> k = 8)%nat.

(** The slot count as the claim words it: the primary candidates that still
    need a CIDR, plus one if some secondary candidate still needs one. *)
Definition slotsNeeding (subnets : list ClusterSubnetSpec) (big little : list nat) : nat :=
  (length (filter (λ p, isEmpty (CIDR (deref subnets p)) = true) big)
   + if bool_decide (filter (λ p, isEmpty (CIDR (deref subnets p)) = true) little = [])
     then 0 else 1)%nat.

(** The [k]-th subnet of [needy] holds the text of the [k]-th block of
    [blocks], for every [k] both lists reach. *)
Definition holds (subnets : list ClusterSubnetSpec) (needy : list nat)
    (blocks : list IPNet) : Prop :=
  forall k q b, needy !! k = Some q -> blocks !! k = Some b ->
    CIDR (deref subnets q) = IPNet_String b.

(** The role is one of dual-stack, public, private and utility. *)
Definition knownRole (t : string) : bool := isPrimary t || isUtility t.

(** Sample declarations: the subnet [sn] referring to the cloud subnet [id]. *)
Definition withID (id : string) (sn : ClusterSubnetSpec) : ClusterSubnetSpec :=
  {| Name := Name sn; Zone := Zone sn; CIDR := CIDR sn;
     IPv6CIDR := IPv6CIDR sn; ID := id; Type_ := Type_ sn |}.

(** A cloud in which every network has the subnets [infos]. *)
Definition cloudWith (infos : list fi.SubnetInfo) : fi.Cloud :=
  {| fi.FindVPCInfo := λ _, inr (Some {| fi.Subnets := infos |}) |}.

(** The subnet has a CIDR that does not parse. *)
Definition unparsable (sn : ClusterSubnetSpec) : bool :=
  negb (isEmpty (CIDR sn))
  && match ParseCIDR (CIDR sn) with Some _ => false | None => true end.

(** The subnet makes the collecting loop fail: its CIDR does not parse, or
    it takes part in the allocation with a role that is not known. *)
Definition offending (cidr : IPNet) (sn : ClusterSubnetSpec) : bool :=
  unparsable sn || (classified cidr sn && negb (knownRole (Type_ sn))).

(** The error the collecting loop returns for an offending subnet. *)
Definition collectError (sn : ClusterSubnetSpec) : error :=
  if unparsable sn then InvalidSubnetCIDR (Name sn) (CIDR sn)
  else UnknownSubnetRole (Name sn) (Type_ sn).

(** The text has no colon, so that [net.ParseCIDR] does not read it as an
    IPv6 network: on such text [ParseCIDR] fails when Go's does. *)
Definition ipv4Text (s : string) : bool := negb (strconv.contains ":" s).

(** The order [sortByZone] gives the slice [a] is the order [sort.Sort]
    gives it: [a] has at most 12 elements, which [sort.Sort] sorts by
    insertion, or its zones are pairwise distinct, which leaves one sorted
    order only. *)
Definition sortAsCode (subnets : list ClusterSubnetSpec) (a : list nat) : Prop :=
  (length a <= 12)%nat \/ NoDup ((λ p, Zone (deref subnets p)) <$> a).

(** Every block of [blocks] is held by a subnet of [needy]. *)
Definition served (subnets : list ClusterSubnetSpec) (needy : list nat)
    (blocks : list IPNet) : Prop :=
  forall b, b ∈ blocks ->
    exists q, q ∈ needy /\ CIDR (deref subnets q) = IPNet_String b.

(** Every subnet of [needy] holds a block of [blocks]. *)
Definition supplied (subnets : list ClusterSubnetSpec) (needy : list nat)
    (blocks : list IPNet) : Prop :=
  forall q, q ∈ needy ->
    exists b, b ∈ blocks /\ CIDR (deref subnets q) = IPNet_String b.

(** The role is one of the four the switch knows (lines 124 and 127). *)
Definition recognised (t : string) : Prop :=
  t = SubnetTypeDualStack \/ t = SubnetTypePublic \/ t = SubnetTypePrivate
  \/ t = SubnetTypeUtility.

(** The role is one of the three of the first case of the switch
    (line 124). *)
Definition primaryRole (t : string) : Prop :=
  t = SubnetTypeDualStack \/ t = SubnetTypePublic \/ t = SubnetTypePrivate.

(** * Lemmas *)

(** ** Masks and ranges *)

Lemma maskIP_arith ip ones :
  0 <= ip < 2 ^ 32 -> 0 <= ones <= 32 ->
  maskIP ip ones = ip - ip mod 2 ^ (32 - ones).
Proof.
  intros Hip Hones. unfold maskIP, maskBits.
  assert (Hk : 0 <= 32 - ones) by lia.
  transitivity (Z.shiftl (Z.shiftr ip (32 - ones)) (32 - ones)).
  - apply Z.bits_inj'. intros i Hi.
    rewrite Z.land_spec, !Z.shiftl_spec by lia.
    destruct (Z.ltb_spec i (32 - ones)) as [Hlt|Hge].
    + rewrite (Z.testbit_neg_r _ (i - (32 - ones))) by lia.
      rewrite (Z.testbit_neg_r _ (i - (32 - ones))) by lia.
      apply andb_false_r.
    + rewrite Z.shiftr_spec by lia.
      replace (i - (32 - ones) + (32 - ones)) with i by lia.
      destruct (Z.ltb_spec i 32) as [Hlt|Hge32].
      * rewrite Z.ones_spec_low by lia. apply andb_true_r.
      * rewrite Z.ones_spec_high by lia. rewrite andb_false_r.
        symmetry. destruct (Z.eq_dec ip 0) as [->|Hne].
        { apply Z.testbit_0_l. }
        apply Z.bits_above_log2; [lia|].
        apply Z.log2_lt_pow2; [lia|].
        assert (2 ^ 32 <= 2 ^ i) by (apply Z.pow_le_mono_r; lia). lia.
  - rewrite Z.shiftl_mul_pow2, Z.shiftr_div_pow2 by lia.
    pose proof (Z.div_mod ip (2 ^ (32 - ones))) as Hdm.
    assert (0 < 2 ^ (32 - ones)) by (apply Z.pow_pos_nonneg; lia).
    lia.
Qed.

Lemma maskIP_canonical n : canonical n -> maskIP (IP n) (Mask n) = IP n.
Proof.
  intros (Hm & Hip & Hmod). rewrite maskIP_arith by lia. lia.
Qed.

Lemma first_canonical n : canonical n -> subnet.first n = IP n.
Proof. apply maskIP_canonical. Qed.

Lemma maskIP_range ip ones :
  0 <= ip < 2 ^ 32 -> 0 <= ones <= 32 ->
  maskIP ip ones <= ip < maskIP ip ones + 2 ^ (32 - ones).
Proof.
  intros Hip Hones. rewrite maskIP_arith by lia.
  assert (0 < 2 ^ (32 - ones)) by (apply Z.pow_pos_nonneg; lia).
  pose proof (Z.mod_pos_bound ip (2 ^ (32 - ones))). lia.
Qed.

Lemma pow2_split a b : 0 <= a -> 0 <= b -> 2 ^ (a + b) = 2 ^ a * 2 ^ b.
Proof. intros. apply Z.pow_add_r; lia. Qed.

Lemma maskIP_is_canonical ip ones :
  0 <= ip < 2 ^ 32 -> 0 <= ones <= 32 ->
  canonical {| IP := maskIP ip ones; Mask := ones |}.
Proof.
  intros Hip Hones. unfold canonical. cbn [IP Mask].
  pose proof (maskIP_range ip ones Hip Hones) as Hr.
  assert (Hpos : 0 < 2 ^ (32 - ones)) by (apply Z.pow_pos_nonneg; lia).
  split; [lia|]. rewrite maskIP_arith in * by lia.
  pose proof (Z.mod_pos_bound ip (2 ^ (32 - ones)) Hpos).
  pose proof (Z.mod_le ip (2 ^ (32 - ones))).
  split; [lia|].
  rewrite (Z.div_mod ip (2 ^ (32 - ones))) at 1 by lia.
  replace (2 ^ (32 - ones) * (ip / 2 ^ (32 - ones)) + ip mod 2 ^ (32 - ones)
           - ip mod 2 ^ (32 - ones))
    with ((ip / 2 ^ (32 - ones)) * 2 ^ (32 - ones)) by lia.
  apply Z.mod_mul. lia.
Qed.

(** [Contains] on a well-formed network is membership in its range. *)
Lemma Contains_range n ip :
  canonical n -> 0 <= ip < 2 ^ 32 ->
  Contains n ip = true <-> subnet.first n <= ip <= subnet.last n.
Proof.
  intros Hc Hip. pose proof Hc as (Hm & Hn & Hmod).
  unfold Contains, subnet.last. rewrite first_canonical by done.
  rewrite maskIP_canonical by done. rewrite Z.eqb_eq.
  rewrite maskIP_arith by lia.
  assert (Hpos : 0 < 2 ^ (32 - Mask n)) by (apply Z.pow_pos_nonneg; lia).
  pose proof (Z.mod_pos_bound ip _ Hpos) as Hb.
  split.
  - intros ->. lia.
  - intros Hr.
    apply Z.mod_divide in Hmod; [|lia]. destruct Hmod as [k Hk].
    assert (Hq : ip / 2 ^ (32 - Mask n) = k).
    { symmetry. apply (Z.div_unique ip _ k (ip - k * 2 ^ (32 - Mask n))); lia. }
    pose proof (Z.div_mod ip (2 ^ (32 - Mask n))) as Hdm. lia.
Qed.

(** ** Splitting *)

Lemma splitInto_inv bits parent bs :
  subnet.splitInto bits parent = inr bs ->
  Mask parent + bits <= 32 /\
  bs = (λ i : Z, {| IP := IP parent + Z.shiftl i (32 - (Mask parent + bits));
                    Mask := Mask parent + bits |}) <$> seqZ 0 (2 ^ bits).
Proof.
  unfold subnet.splitInto. destruct (Z.leb_spec (Mask parent + bits) 32); [|done].
  intros [= <-]. done.
Qed.

Lemma splitInto_length bits parent bs :
  subnet.splitInto bits parent = inr bs -> length bs = Z.to_nat (2 ^ bits).
Proof.
  intros (_ & ->)%splitInto_inv. by rewrite length_fmap, length_seqZ.
Qed.

Lemma splitInto_lookup bits parent bs (i : nat) b :
  subnet.splitInto bits parent = inr bs -> bs !! i = Some b ->
  Mask parent + bits <= 32 /\ Z.of_nat i < 2 ^ bits /\
  b = {| IP := IP parent + Z.of_nat i * 2 ^ (32 - (Mask parent + bits));
         Mask := Mask parent + bits |}.
Proof.
  intros (Hle & ->)%splitInto_inv. rewrite list_lookup_fmap.
  destruct (seqZ 0 (2 ^ bits) !! i) as [z|] eqn:Hz; [|done].
  apply lookup_seqZ in Hz as [-> Hlt]. intros [= <-].
  rewrite Z.shiftl_mul_pow2 by lia. rewrite Z.add_0_l. done.
Qed.

Lemma split_block_facts bits parent (i : Z) :
  canonical parent -> 0 <= bits -> Mask parent + bits <= 32 ->
  0 <= i < 2 ^ bits ->
  let b := {| IP := IP parent + i * 2 ^ (32 - (Mask parent + bits));
              Mask := Mask parent + bits |} in
  canonical b /\
  subnet.first b = IP parent + i * 2 ^ (32 - (Mask parent + bits)) /\
  subnet.last b = IP parent + (i + 1) * 2 ^ (32 - (Mask parent + bits)) - 1 /\
  within b parent.
Proof.
  intros (Hm & Hip & Hmod) Hbits Hle Hi b.
  set (k := 32 - (Mask parent + bits)) in *.
  assert (Hk : 0 <= k) by lia.
  assert (Hpk : 0 < 2 ^ k) by (apply Z.pow_pos_nonneg; lia).
  assert (Hsz : 2 ^ (32 - Mask parent) = 2 ^ bits * 2 ^ k).
  { rewrite <- pow2_split by lia. f_equal. lia. }
  assert (Hpb : 0 < 2 ^ bits) by (apply Z.pow_pos_nonneg; lia).
  apply Z.mod_divide in Hmod; [|lia]. destruct Hmod as [q Hq].
  assert (Htop : IP parent + 2 ^ (32 - Mask parent) <= 2 ^ 32).
  { assert (H32 : 2 ^ 32 = 2 ^ Mask parent * 2 ^ (32 - Mask parent)).
    { rewrite <- pow2_split by lia. f_equal. lia. }
    assert (0 < 2 ^ (32 - Mask parent)) by lia.
    assert (q < 2 ^ Mask parent) by nia.
    nia. }
  assert (Hcan : canonical b).
  { unfold canonical, b. cbn [IP Mask]. fold k.
    split; [lia|]. split; [nia|].
    rewrite Hq, Hsz.
    replace (q * (2 ^ bits * 2 ^ k) + i * 2 ^ k)
      with ((q * 2 ^ bits + i) * 2 ^ k) by lia.
    apply Z.mod_mul. lia. }
  split; [done|].
  assert (Hf : subnet.first b = IP parent + i * 2 ^ k)
    by (rewrite first_canonical by done; done).
  split; [done|].
  assert (Hl : subnet.last b = IP parent + (i + 1) * 2 ^ k - 1).
  { unfold subnet.last. rewrite Hf. unfold b. cbn [Mask]. fold k. lia. }
  split; [done|].
  unfold within. rewrite Hf, Hl. unfold subnet.last.
  rewrite (first_canonical parent) by (unfold canonical; rewrite Hq;
    repeat split; try lia; apply Z.mod_mul; lia).
  rewrite Hsz. nia.
Qed.

Lemma splitInto_canonical bits parent bs b :
  canonical parent -> 0 <= bits ->
  subnet.splitInto bits parent = inr bs -> b ∈ bs ->
  canonical b /\ within b parent.
Proof.
  intros Hc Hb Hs [i Hi]%list_elem_of_lookup.
  destruct (splitInto_lookup _ _ _ _ _ Hs Hi) as (Hle & Hlt & ->).
  destruct (split_block_facts bits parent (Z.of_nat i) Hc Hb Hle) as (? & _ & _ & ?);
    [lia|done].
Qed.

Lemma overlap_false l r :
  subnet.Overlap l r = false <->
  subnet.last r < subnet.first l \/ subnet.last l < subnet.first r.
Proof.
  unfold subnet.Overlap. rewrite andb_false_iff, !Z.leb_gt. tauto.
Qed.

Lemma splitInto_disjoint bits parent bs (i j : nat) b b' :
  canonical parent -> 0 <= bits ->
  subnet.splitInto bits parent = inr bs ->
  i ≠ j -> bs !! i = Some b -> bs !! j = Some b' ->
  subnet.Overlap b b' = false.
Proof.
  intros Hc Hb Hs Hne Hi Hj.
  destruct (splitInto_lookup _ _ _ _ _ Hs Hi) as (Hle & Hlti & ->).
  destruct (splitInto_lookup _ _ _ _ _ Hs Hj) as (_ & Hltj & ->).
  destruct (split_block_facts bits parent (Z.of_nat i) Hc Hb Hle) as (_ & Hfi & Hli & _);
    [lia|].
  destruct (split_block_facts bits parent (Z.of_nat j) Hc Hb Hle) as (_ & Hfj & Hlj & _);
    [lia|].
  apply overlap_false. rewrite Hfi, Hli, Hfj, Hlj.
  assert (0 < 2 ^ (32 - (Mask parent + bits))) by (apply Z.pow_pos_nonneg; lia).
  assert (Z.of_nat i < Z.of_nat j \/ Z.of_nat j < Z.of_nat i) as [Hlt|Hlt] by lia; nia.
Qed.

(** A block that avoids [a] avoids every block within [a]. *)
Lemma overlap_within r a b :
  within b a -> subnet.Overlap r a = false -> subnet.Overlap r b = false.
Proof.
  intros [Hf Hl]. rewrite !overlap_false. lia.
Qed.

Lemma overlap_sym l r : subnet.Overlap l r = subnet.Overlap r l.
Proof. unfold subnet.Overlap. apply andb_comm. Qed.

Lemma within_trans c b a : within c b -> within b a -> within c a.
Proof. unfold within. lia. Qed.

(** ** Text of a network: printing, then parsing *)

Lemma splitOn_nonempty c s : strconv.splitOn c s ≠ [].
Proof.
  destruct s as [|a r]; simpl; [done|].
  destruct (Ascii.eqb a c); [done|]. by destruct (strconv.splitOn c r).
Qed.

Lemma splitOn_plain c s : strconv.contains c s = false -> strconv.splitOn c s = [s].
Proof.
  induction s as [|a r IH]; simpl; [done|].
  destruct (Ascii.eqb a c); simpl; [done|]. intros H. by rewrite IH.
Qed.

Lemma splitOn_app c s t :
  strconv.contains c s = false ->
  strconv.splitOn c (s +:+ String c t) = s :: strconv.splitOn c t.
Proof.
  induction s as [|a r IH]; simpl.
  - intros _. by rewrite Ascii.eqb_refl.
  - destruct (Ascii.eqb a c); simpl; [done|]. intros H. by rewrite IH.
Qed.

Lemma cut_app c s t :
  strconv.contains c s = false ->
  strconv.cut c (s +:+ String c t) = Some (s, t).
Proof.
  induction s as [|a r IH]; simpl.
  - intros _. by rewrite Ascii.eqb_refl.
  - destruct (Ascii.eqb a c); simpl; [done|]. intros H. by rewrite IH.
Qed.

Lemma append_assoc (s t u : string) : (s +:+ t) +:+ u = s +:+ (t +:+ u).
Proof.
  induction s as [|a r IH]; [done|].
  change (String a ((r +:+ t) +:+ u) = String a (r +:+ (t +:+ u))).
  by rewrite IH.
Qed.

Lemma contains_app c s t :
  strconv.contains c (s +:+ t) = strconv.contains c s || strconv.contains c t.
Proof.
  induction s as [|a r IH]; simpl; [done|]. rewrite IH. apply orb_assoc.
Qed.

Lemma octet_text n :
  0 <= n < 256 ->
  parseOctet (strconv.Itoa n) = Some n /\
  strconv.contains "." (strconv.Itoa n) = false /\
  strconv.contains "/" (strconv.Itoa n) = false.
Proof.
  intros Hn.
  assert (Hall : forallb octetTextOK (seqZ 0 256) = true) by (vm_compute; reflexivity).
  rewrite forallb_forall in Hall.
  assert (Hin : In n (seqZ 0 256)).
  { apply list_elem_of_In, elem_of_seqZ. lia. }
  specialize (Hall n Hin). unfold octetTextOK in Hall.
  apply andb_prop in Hall as [Hall H3]. apply andb_prop in Hall as [H1 H2].
  apply bool_decide_eq_true in H1. apply negb_true_iff in H2, H3. done.
Qed.

Lemma mask_text n : 0 <= n <= 32 -> parseMask (strconv.Itoa n) = Some n.
Proof.
  intros Hn.
  assert (Hall : forallb (λ n, bool_decide (parseMask (strconv.Itoa n) = Some n))
                   (seqZ 0 33) = true) by (vm_compute; reflexivity).
  rewrite forallb_forall in Hall.
  assert (Hin : In n (seqZ 0 33)).
  { apply list_elem_of_In, elem_of_seqZ. lia. }
  specialize (Hall n Hin). by apply bool_decide_eq_true in Hall.
Qed.

Lemma octet_range ip k : 0 <= octet ip k < 256.
Proof.
  unfold octet. change 255 with (Z.ones 8). rewrite Z.land_ones by lia.
  change (2 ^ 8) with 256. apply Z.mod_pos_bound. lia.
Qed.

Lemma octets_join ip :
  0 <= ip < 2 ^ 32 ->
  Z.lor (Z.shiftl (octet ip 24) 24)
    (Z.lor (Z.shiftl (octet ip 16) 16)
       (Z.lor (Z.shiftl (octet ip 8) 8) (octet ip 0))) = ip.
Proof.
  intros Hip. apply Z.bits_inj'. intros i Hi.
  unfold octet. change 255 with (Z.ones 8).
  rewrite !Z.lor_spec, !Z.shiftl_spec, !Z.land_spec by lia.
  rewrite (Z.shiftr_spec ip 0 i), Z.add_0_r by lia.
  assert (Hhigh : 32 <= i -> Z.testbit ip i = false).
  { intros Hge. destruct (Z.eq_dec ip 0) as [->|Hne]; [apply Z.testbit_0_l|].
    apply Z.bits_above_log2; [lia|]. apply Z.log2_lt_pow2; [lia|].
    assert (2 ^ 32 <= 2 ^ i) by (apply Z.pow_le_mono_r; lia). lia. }
  destruct (Z.ltb_spec i 8).
  { rewrite (Z.testbit_neg_r _ (i - 24)), (Z.testbit_neg_r _ (i - 16)),
      (Z.testbit_neg_r _ (i - 8)) by lia.
    rewrite (Z.ones_spec_low 8 i) by lia. cbn. by rewrite andb_true_r. }
  rewrite (Z.shiftr_spec ip 8 (i - 8)) by lia.
  replace (i - 8 + 8) with i by lia.
  destruct (Z.ltb_spec i 16).
  { rewrite (Z.testbit_neg_r _ (i - 24)), (Z.testbit_neg_r _ (i - 16)) by lia.
    rewrite (Z.ones_spec_low 8 (i - 8)) by lia.
    rewrite (Z.ones_spec_high 8 i) by lia. cbn.
    by rewrite andb_true_r, andb_false_r, orb_false_r. }
  rewrite (Z.shiftr_spec ip 16 (i - 16)) by lia.
  replace (i - 16 + 16) with i by lia.
  destruct (Z.ltb_spec i 24).
  { rewrite (Z.testbit_neg_r _ (i - 24)) by lia.
    rewrite (Z.ones_spec_low 8 (i - 16)) by lia.
    rewrite (Z.ones_spec_high 8 i), (Z.ones_spec_high 8 (i - 8)) by lia. cbn.
    by rewrite andb_true_r, !andb_false_r, !orb_false_r. }
  rewrite (Z.shiftr_spec ip 24 (i - 24)) by lia.
  replace (i - 24 + 24) with i by lia.
  rewrite (Z.ones_spec_high 8 i), (Z.ones_spec_high 8 (i - 8)),
    (Z.ones_spec_high 8 (i - 16)) by lia.
  rewrite !andb_false_r, !orb_false_r.
  destruct (Z.ltb_spec i 32).
  - rewrite Z.ones_spec_low by lia. apply andb_true_r.
  - rewrite Hhigh by lia. done.
Qed.

(** Parsing the text of a well-formed network gives the network back. *)
Lemma ParseCIDR_String n : canonical n -> ParseCIDR (IPNet_String n) = Some n.
Proof.
  intros Hc. pose proof Hc as (Hm & Hip & Hmod).
  destruct (octet_text _ (octet_range (IP n) 24)) as (P3 & D3 & S3).
  destruct (octet_text _ (octet_range (IP n) 16)) as (P2 & D2 & S2).
  destruct (octet_text _ (octet_range (IP n) 8)) as (P1 & D1 & S1).
  destruct (octet_text _ (octet_range (IP n) 0)) as (P0 & D0 & S0).
  unfold ParseCIDR, IPNet_String.
  set (a3 := strconv.Itoa (octet (IP n) 24)) in *.
  set (a2 := strconv.Itoa (octet (IP n) 16)) in *.
  set (a1 := strconv.Itoa (octet (IP n) 8)) in *.
  set (a0 := strconv.Itoa (octet (IP n) 0)) in *.
  set (m := strconv.Itoa (Mask n)).
  assert (Hassoc : a3 +:+ "." +:+ a2 +:+ "." +:+ a1 +:+ "." +:+ a0 +:+ "/" +:+ m
                   = (a3 +:+ "." +:+ a2 +:+ "." +:+ a1 +:+ "." +:+ a0)
                       +:+ String "/" m).
  { rewrite !append_assoc. done. }
  rewrite Hassoc, cut_app.
  2:{ rewrite !contains_app. cbn. by rewrite S3, S2, S1, S0. }
  unfold parseIPv4.
  change (a3 +:+ "." +:+ a2 +:+ "." +:+ a1 +:+ "." +:+ a0)
    with (a3 +:+ String "." (a2 +:+ String "." (a1 +:+ String "." a0))).
  rewrite !splitOn_app, splitOn_plain by done.
  rewrite P3, P2, P1, P0, octets_join by done.
  unfold m. rewrite mask_text by done.
  rewrite maskIP_canonical by done. by destruct n.
Qed.

Lemma IPNet_String_nonempty n : isEmpty (IPNet_String n) = false.
Proof.
  unfold IPNet_String.
  destruct (strconv.Itoa (octet (IP n) 24)); reflexivity.
Qed.

Lemma digits_ge acc s v : 0 <= acc -> strconv.digits acc s = Some v -> acc <= v.
Proof.
  revert acc. induction s as [|a r IH]; simpl; intros acc Hacc.
  - intros [= <-]. lia.
  - unfold strconv.digit.
    destruct ((48 <=? Z.of_N (N_of_ascii a)) && (Z.of_N (N_of_ascii a) <=? 57)) eqn:Hd;
      [|done].
    apply andb_prop in Hd as [H1%Z.leb_le H2%Z.leb_le].
    intros Hv. apply IH in Hv; lia.
Qed.

Lemma parseOctet_range s v : parseOctet s = Some v -> 0 <= v < 256.
Proof.
  unfold parseOctet. destruct s as [|a r]; [done|].
  destruct (Ascii.eqb a "0" && negb (String.eqb r "")); [done|].
  destruct (strconv.digits 0 (String a r)) as [w|] eqn:Hw; [|done].
  destruct (Z.leb_spec w 255); [|done]. intros [= <-].
  apply digits_ge in Hw; lia.
Qed.

Lemma parseMask_range s v : parseMask s = Some v -> 0 <= v <= 32.
Proof.
  unfold parseMask. destruct s as [|a r]; [done|].
  destruct (strconv.digits 0 (String a r)) as [w|] eqn:Hw; [|done].
  destruct (Z.leb_spec w 32); [|done]. intros [= <-].
  apply digits_ge in Hw; lia.
Qed.

Lemma lor_bound n a b :
  0 <= n -> 0 <= a < 2 ^ n -> 0 <= b < 2 ^ n -> 0 <= Z.lor a b < 2 ^ n.
Proof.
  intros Hn Ha Hb. split; [apply Z.lor_nonneg; lia|].
  destruct (Z.eq_dec (Z.lor a b) 0) as [->|Hne].
  { apply Z.pow_pos_nonneg; lia. }
  apply Z.log2_lt_pow2; [pose proof (proj2 (Z.lor_nonneg a b)); lia|].
  rewrite Z.log2_lor by lia.
  destruct (Z.eq_dec a 0) as [->|Ha0]; destruct (Z.eq_dec b 0) as [->|Hb0].
  - simpl in Hne. done.
  - rewrite Z.max_r by (simpl; apply Z.log2_nonneg).
    apply Z.log2_lt_pow2; lia.
  - rewrite Z.max_l by (simpl; apply Z.log2_nonneg).
    apply Z.log2_lt_pow2; lia.
  - apply Z.max_lub_lt; apply Z.log2_lt_pow2; lia.
Qed.

Lemma shiftl_octet_bound b k :
  0 <= b < 256 -> 0 <= k <= 24 -> 0 <= Z.shiftl b k < 2 ^ 32.
Proof.
  intros Hb Hk. rewrite Z.shiftl_mul_pow2 by lia.
  assert (0 < 2 ^ k) by (apply Z.pow_pos_nonneg; lia).
  assert (2 ^ k <= 2 ^ 24) by (apply Z.pow_le_mono_r; lia).
  change (2 ^ 24) with 16777216 in *. change (2 ^ 32) with 4294967296. nia.
Qed.

Lemma parseIPv4_range s ip : parseIPv4 s = Some ip -> 0 <= ip < 2 ^ 32.
Proof.
  unfold parseIPv4.
  destruct (strconv.splitOn "." s) as [|f0 [|f1 [|f2 [|f3 [|]]]]]; try done.
  destruct (parseOctet f0) as [b0|] eqn:H0; [|done].
  destruct (parseOctet f1) as [b1|] eqn:H1; [|done].
  destruct (parseOctet f2) as [b2|] eqn:H2; [|done].
  destruct (parseOctet f3) as [b3|] eqn:H3; [|done].
  apply parseOctet_range in H0, H1, H2, H3. intros [= <-].
  repeat apply lor_bound; try lia; try (apply shiftl_octet_bound; lia).
Qed.

Lemma ParseCIDR_canonical s n : ParseCIDR s = Some n -> canonical n.
Proof.
  unfold ParseCIDR. destruct (strconv.cut "/" s) as [[addr mask]|]; [|done].
  destruct (parseIPv4 addr) as [ip|] eqn:Hip; [|done].
  destruct (parseMask mask) as [k|] eqn:Hk; [|done].
  intros [= <-].
  apply maskIP_is_canonical; eauto using parseIPv4_range, parseMask_range.
Qed.

Lemma ParseCIDR_nonempty s n : ParseCIDR s = Some n -> isEmpty s = false.
Proof. by destruct s. Qed.

(** ** The overlap filter *)

Lemma overlapped_fold reserved c o :
  foldl (λ o r, if subnet.Overlap r c then true else o) o reserved = true <->
  o = true \/ exists r, r ∈ reserved /\ subnet.Overlap r c = true.
Proof.
  revert o. induction reserved as [|r rs IH]; intros o; simpl.
  - split; [by left|]. intros [?|(r & Hr & _)]; [done|]. by apply elem_of_nil in Hr.
  - rewrite IH. split.
    + intros [Ho|(r' & Hr' & Hov)].
      * destruct (subnet.Overlap r c) eqn:Hov; [|by left].
        right. exists r. split; [left|done].
      * right. exists r'. split; [by right|done].
    + intros [->|(r' & Hr' & Hov)].
      * left. by destruct (subnet.Overlap r c).
      * apply elem_of_cons in Hr' as [->|Hr'].
        -- left. by rewrite Hov.
        -- right. by exists r'.
Qed.

Lemma overlapped_true reserved c :
  overlapped reserved c = true <->
  exists r, r ∈ reserved /\ subnet.Overlap r c = true.
Proof.
  unfold overlapped. rewrite overlapped_fold. split; [|by right].
  by intros [?|?].
Qed.

Lemma overlapped_false reserved c :
  overlapped reserved c = false <->
  forall r, r ∈ reserved -> subnet.Overlap r c = false.
Proof.
  split.
  - intros Hf r Hr. destruct (subnet.Overlap r c) eqn:Hov; [|done].
    assert (overlapped reserved c = true) by (apply overlapped_true; eauto).
    congruence.
  - intros Hall. destruct (overlapped reserved c) eqn:Ho; [|done].
    apply overlapped_true in Ho as (r & Hr & Hov). rewrite Hall in Hov; done.
Qed.

Lemma removeOverlapping_filter reserved bigCIDRs :
  removeOverlapping reserved bigCIDRs
  = filter (λ c, overlapped reserved c = false) bigCIDRs.
Proof.
  unfold removeOverlapping.
  enough (forall acc,
    foldl (λ nonOverlapping c,
             if negb (overlapped reserved c) then nonOverlapping ++ [c]
             else nonOverlapping) acc bigCIDRs
    = acc ++ filter (λ c, overlapped reserved c = false) bigCIDRs) as H
    by apply (H []).
  induction bigCIDRs as [|c cs IH]; intros acc; simpl.
  - by rewrite app_nil_r.
  - rewrite IH, filter_cons. case_decide as Ho.
    + rewrite Ho. simpl. by rewrite <- app_assoc.
    + apply not_false_is_true in Ho. by rewrite Ho.
Qed.

(** ** The assigning loops in closed form *)

Lemma deref_write_ne p c subnets q : q ≠ p -> deref (write p c subnets) q = deref subnets q.
Proof.
  intros Hne. unfold deref, write. by rewrite list_lookup_insert_ne.
Qed.

Lemma filter_ext_elem {A} (P Q : A -> Prop) `{!∀ x, Decision (P x)}
    `{!∀ x, Decision (Q x)} (l : list A) :
  (forall x, x ∈ l -> P x <-> Q x) -> filter P l = filter Q l.
Proof.
  induction l as [|x l IH]; intros Hext; [done|].
  rewrite !filter_cons, IH by (intros y Hy; apply Hext; by right).
  destruct (decide (P x)) as [HP|HP], (decide (Q x)) as [HQ|HQ]; try done.
  - apply Hext in HP; [done|left].
  - apply Hext in HQ; [done|left].
Qed.

Lemma needs_write skip p c subnets ptrs :
  p ∉ ptrs -> needs skip (write p c subnets) ptrs = needs skip subnets ptrs.
Proof.
  intros Hp. unfold needs. apply filter_ext_elem.
  intros q Hq. rewrite deref_write_ne; [done|]. intros ->. done.
Qed.

Lemma needs_elem skip subnets ptrs p :
  p ∈ needs skip subnets ptrs <-> p ∈ ptrs /\ skip (deref subnets p) = false.
Proof. unfold needs. rewrite list_elem_of_filter. tauto. Qed.

Lemma assignFrom_closed skip which ptrs cidrs subnets :
  NoDup ptrs ->
  assignFrom skip which ptrs cidrs subnets
  = (writeAll (zip (needs skip subnets ptrs) cidrs) subnets,
     (λ p, InsufficientCIDRs which (Name (deref subnets p)))
       <$> needs skip subnets ptrs !! length cidrs).
Proof.
  revert cidrs subnets. induction ptrs as [|p rest IH]; intros cidrs subnets Hnd.
  - done.
  - apply NoDup_cons in Hnd as [Hp Hnd]. simpl.
    unfold needs. rewrite filter_cons. fold (needs skip subnets rest).
    destruct (skip (deref subnets p)) eqn:Hs.
    + rewrite decide_False by done. by apply IH.
    + rewrite decide_True by done.
      destruct cidrs as [|c cidrs']; [done|].
      rewrite IH by done. fold (write p c subnets).
      rewrite needs_write by done. simpl. f_equal.
      destruct (needs skip subnets rest !! length cidrs') as [q|] eqn:Hq; [|done].
      simpl. rewrite deref_write_ne; [done|].
      intros ->. apply list_elem_of_lookup_2, needs_elem in Hq as [Hq _]. done.
Qed.

Lemma write_length p c subnets : length (write p c subnets) = length subnets.
Proof. unfold write. apply length_insert. Qed.

Lemma writeAll_length pcs subnets : length (writeAll pcs subnets) = length subnets.
Proof.
  revert subnets. induction pcs as [|[p c] pcs IH]; intros subnets; [done|].
  simpl. by rewrite IH, write_length.
Qed.

Lemma write_lookup_ne p c subnets q : q ≠ p -> write p c subnets !! q = subnets !! q.
Proof. intros Hne. unfold write. by rewrite list_lookup_insert_ne. Qed.

Lemma write_lookup_eq p c subnets sn :
  subnets !! p = Some sn ->
  write p c subnets !! p = Some (setCIDR (IPNet_String c) sn).
Proof.
  intros Hp. unfold write, deref. rewrite Hp. simpl.
  apply list_lookup_insert_eq. by apply lookup_lt_Some in Hp.
Qed.

Lemma writeAll_app pcs1 pcs2 subnets :
  writeAll (pcs1 ++ pcs2) subnets = writeAll pcs2 (writeAll pcs1 subnets).
Proof. unfold writeAll. apply foldl_app. Qed.

Lemma writeAll_lookup_notin pcs subnets q :
  q ∉ pcs.*1 -> writeAll pcs subnets !! q = subnets !! q.
Proof.
  revert subnets. induction pcs as [|[p c] pcs IH]; intros subnets Hq; [done|].
  simpl in *. apply not_elem_of_cons in Hq as [Hne Hq].
  rewrite IH by done. by apply write_lookup_ne.
Qed.

Lemma writeAll_lookup_in pcs subnets p c sn :
  NoDup pcs.*1 -> (p, c) ∈ pcs -> subnets !! p = Some sn ->
  writeAll pcs subnets !! p = Some (setCIDR (IPNet_String c) sn).
Proof.
  revert subnets. induction pcs as [|[p0 c0] pcs IH]; intros subnets Hnd Hin Hp.
  - by apply elem_of_nil in Hin.
  - simpl in *. apply NoDup_cons in Hnd as [Hp0 Hnd].
    apply elem_of_cons in Hin as [[= -> ->]|Hin].
    + rewrite writeAll_lookup_notin by done. by apply write_lookup_eq.
    + assert (p ≠ p0).
      { intros ->. apply Hp0. apply list_elem_of_fmap. by exists (p0, c). }
      apply IH; [done..|]. by rewrite write_lookup_ne.
Qed.

(** What a subnet is after the writes: itself, or itself with the text of
    the one block paired with its pointer. *)
Lemma writeAll_lookup pcs subnets q sn :
  NoDup pcs.*1 -> subnets !! q = Some sn ->
  ((q ∉ pcs.*1) /\ writeAll pcs subnets !! q = Some sn) \/
  (exists c, (q, c) ∈ pcs /\
             writeAll pcs subnets !! q = Some (setCIDR (IPNet_String c) sn)).
Proof.
  intros Hnd Hq. destruct (decide (q ∈ pcs.*1)) as [Hin|Hnin].
  - right. apply list_elem_of_fmap in Hin as ([q' c] & -> & Hin). simpl in *.
    exists c. split; [done|]. by apply writeAll_lookup_in.
  - left. split; [done|]. by rewrite writeAll_lookup_notin.
Qed.

Lemma write_sameButCIDR p c subnets q :
  sameButCIDR (deref (write p c subnets) q) (deref subnets q).
Proof.
  destruct (decide (q = p)) as [->|Hne].
  - unfold deref at 1. destruct (subnets !! p) as [sn|] eqn:Hp.
    + rewrite (write_lookup_eq _ _ _ _ Hp). unfold deref. rewrite Hp. by simpl.
    + unfold write. rewrite list_insert_ge by (by apply lookup_ge_None).
      unfold deref. rewrite Hp. by simpl.
  - rewrite deref_write_ne by done. done.
Qed.

Lemma writeAll_sameButCIDR pcs subnets q :
  sameButCIDR (deref (writeAll pcs subnets) q) (deref subnets q).
Proof.
  revert subnets. induction pcs as [|[p c] pcs IH]; intros subnets; [done|].
  simpl. specialize (IH (write p c subnets)).
  pose proof (write_sameButCIDR p c subnets q) as Hw.
  unfold sameButCIDR in *. intuition congruence.
Qed.

(** ** The collecting loop in closed form *)

Lemma primary_not_utility t : isPrimary t = true -> isUtility t = false.
Proof.
  unfold isPrimary, isUtility. rewrite !orb_true_iff, !String.eqb_eq.
  intros [[->| ->]| ->]; reflexivity.
Qed.

Lemma collectStep_cases cidr p sn acc :
  collectStep cidr p sn acc =
  if isEmpty (CIDR sn) then classify p sn acc
  else match ParseCIDR (CIDR sn) with
       | None => inl (InvalidSubnetCIDR (Name sn) (CIDR sn))
       | Some n =>
           if Contains cidr (IP n) then
             match classify p sn acc with
             | inl e => inl e
             | inr acc' => inr {| bigSubnets := bigSubnets acc';
                                  littleSubnets := littleSubnets acc';
                                  reserved := reserved acc' ++ [n] |}
             end
           else inr acc
       end.
Proof.
  unfold collectStep. destruct (isEmpty (CIDR sn)); simpl.
  - by destruct (classify p sn acc).
  - destruct (ParseCIDR (CIDR sn)) as [n|]; [|done].
    by destruct (Contains cidr (IP n)).
Qed.

Lemma collectFrom_closed cidr p l acc found :
  collectFrom cidr p l acc = inr found ->
  bigSubnets found
  = bigSubnets acc ++ ptrsWhere (λ sn, classified cidr sn && isPrimary (Type_ sn)) p l
  /\ littleSubnets found
  = littleSubnets acc ++ ptrsWhere (λ sn, classified cidr sn && isUtility (Type_ sn)) p l
  /\ reserved found = reserved acc ++ omap (reservation cidr) l.
Proof.
  revert p acc. induction l as [|sn rest IH]; intros p acc; simpl.
  - intros [= <-]. by rewrite !app_nil_r.
  - destruct (collectStep cidr p sn acc) as [e|acc'] eqn:Hstep; [done|].
    intros Hrest. apply IH in Hrest as (Hb & Hl & Hr).
    rewrite Hb, Hl, Hr. clear Hb Hl Hr IH.
    rewrite collectStep_cases in Hstep.
    unfold classified, reservation, classify, isUtility in *.
    destruct (isEmpty (CIDR sn)); simpl in *.
    + destruct (isPrimary (Type_ sn)) eqn:Hp.
      * apply primary_not_utility in Hp. unfold isUtility in Hp. rewrite Hp.
        injection Hstep as <-. simpl. by rewrite <- app_assoc.
      * destruct (String.eqb (Type_ sn) SubnetTypeUtility); [|done].
        injection Hstep as <-. simpl. by rewrite <- app_assoc.
    + destruct (ParseCIDR (CIDR sn)) as [n|]; [|done].
      destruct (Contains cidr (IP n)); simpl in *.
      * destruct (isPrimary (Type_ sn)) eqn:Hp.
        -- apply primary_not_utility in Hp. unfold isUtility in Hp. rewrite Hp.
           injection Hstep as <-. simpl. by rewrite <- !app_assoc.
        -- destruct (String.eqb (Type_ sn) SubnetTypeUtility); [|done].
           injection Hstep as <-. simpl. by rewrite <- !app_assoc.
      * by injection Hstep as <-.
Qed.

Lemma ptrsWhere_elem f p l q :
  q ∈ ptrsWhere f p l <->
  exists i sn, q = (p + i)%nat /\ l !! i = Some sn /\ f sn = true.
Proof.
  revert p. induction l as [|sn rest IH]; intros p; simpl.
  - split; [by intros ?%elem_of_nil|]. by intros (i & sn & _ & ? & _).
  - assert (Hrest : q ∈ ptrsWhere f (S p) rest <->
                    exists i sn', q = (p + S i)%nat /\ rest !! i = Some sn' /\ f sn' = true).
    { rewrite IH. split; intros (i & sn' & -> & ? & ?); exists i, sn';
        (split; [lia|done]). }
    destruct (f sn) eqn:Hf.
    + rewrite elem_of_cons, Hrest. split.
      * intros [->|(i & sn' & -> & ? & ?)].
        -- exists 0%nat, sn. split; [lia|done].
        -- exists (S i), sn'. done.
      * intros ([|i] & sn' & -> & Hi & Hfi).
        -- left. lia.
        -- right. exists i, sn'. done.
    + rewrite Hrest. split.
      * intros (i & sn' & -> & ? & ?). exists (S i), sn'. done.
      * intros ([|i] & sn' & -> & Hi & Hfi).
        -- simpl in Hi. injection Hi as ->. congruence.
        -- exists i, sn'. done.
Qed.

Lemma ptrsWhere_NoDup f p l : NoDup (ptrsWhere f p l).
Proof.
  revert p. induction l as [|sn rest IH]; intros p; simpl; [constructor|].
  destruct (f sn); [|done]. constructor; [|done].
  rewrite ptrsWhere_elem. intros (i & _ & ? & _). lia.
Qed.

Lemma collect_closed cidr subnets found :
  collect cidr subnets = inr found ->
  bigSubnets found
  = ptrsWhere (λ sn, classified cidr sn && isPrimary (Type_ sn)) 0 subnets
  /\ littleSubnets found
  = ptrsWhere (λ sn, classified cidr sn && isUtility (Type_ sn)) 0 subnets
  /\ reserved found = omap (reservation cidr) subnets.
Proof. intros H. by apply collectFrom_closed in H. Qed.

(** When the loop ends without an error, every subnet that takes part has
    a known role. *)
Lemma collectFrom_roles cidr p l acc found sn :
  collectFrom cidr p l acc = inr found -> sn ∈ l ->
  classified cidr sn = true ->
  isPrimary (Type_ sn) || isUtility (Type_ sn) = true.
Proof.
  revert p acc. induction l as [|sn0 rest IH]; intros p acc Hc Hin Hcl.
  - by apply elem_of_nil in Hin.
  - simpl in Hc.
    destruct (collectStep cidr p sn0 acc) as [e|acc'] eqn:Hstep; [done|].
    apply elem_of_cons in Hin as [->|Hin]; [|by eapply IH].
    rewrite collectStep_cases in Hstep.
    unfold classified, classify, isUtility in *.
    destruct (isEmpty (CIDR sn0)); simpl in *.
    + destruct (isPrimary (Type_ sn0)); [done|].
      by destruct (String.eqb (Type_ sn0) SubnetTypeUtility).
    + destruct (ParseCIDR (CIDR sn0)) as [n|]; [|done].
      rewrite Hcl in Hstep.
      destruct (isPrimary (Type_ sn0)); [done|].
      by destruct (String.eqb (Type_ sn0) SubnetTypeUtility).
Qed.

Lemma reservation_elem cidr (subnets : list ClusterSubnetSpec) r :
  r ∈ omap (reservation cidr) subnets <->
  exists sn, sn ∈ subnets /\ reservation cidr sn = Some r.
Proof. apply list_elem_of_omap. Qed.

Lemma reservation_canonical cidr sn r : reservation cidr sn = Some r -> canonical r.
Proof.
  unfold reservation. destruct (isEmpty (CIDR sn)); [done|].
  destruct (ParseCIDR (CIDR sn)) as [n|] eqn:Hn; [|done].
  destruct (Contains cidr (IP n)); [|done]. intros [= <-].
  by eapply ParseCIDR_canonical.
Qed.

(** ** Sorting by zone permutes the pointers *)

Lemma insertByZone_perm subnets p a : insertByZone subnets p a ≡ₚ p :: a.
Proof.
  induction a as [|q r IH]; simpl; [done|].
  destruct (Less subnets p q); [done|]. rewrite IH. apply Permutation_swap.
Qed.

Lemma sortByZone_perm subnets a : sortByZone subnets a ≡ₚ a.
Proof.
  unfold sortByZone.
  enough (forall acc, foldl (λ sorted p, insertByZone subnets p sorted) acc a ≡ₚ acc ++ a)
    as H by apply (H []).
  induction a as [|p a IH]; intros acc; simpl.
  - by rewrite app_nil_r.
  - rewrite IH, insertByZone_perm. simpl. apply Permutation_middle.
Qed.

Lemma sortByZone_elem subnets a p : p ∈ sortByZone subnets a <-> p ∈ a.
Proof. by rewrite sortByZone_perm. Qed.

Lemma sortByZone_NoDup subnets a : NoDup a -> NoDup (sortByZone subnets a).
Proof. by rewrite sortByZone_perm. Qed.

Lemma sortByZone_length subnets a : length (sortByZone subnets a) = length a.
Proof. by rewrite sortByZone_perm. Qed.

(** Less depends on the zones only, which no write changes. *)
Lemma Less_sameZone s1 s2 p q :
  (forall i, Zone (deref s1 i) = Zone (deref s2 i)) -> Less s1 p q = Less s2 p q.
Proof. intros H. unfold Less. by rewrite !H. Qed.

(** ** From the surviving blocks to the end, in closed form *)

Lemma fst_zip_elem {A B} (l : list A) (k : list B) x : x ∈ (zip l k).*1 -> x ∈ l.
Proof.
  intros ([x' y] & -> & Hin)%list_elem_of_fmap. by apply elem_of_zip_l in Hin.
Qed.

Lemma fst_zip_NoDup {A B} (l : list A) (k : list B) : NoDup l -> NoDup (zip l k).*1.
Proof.
  revert k. induction l as [|x l IH]; intros [|y k] Hnd; simpl; try constructor.
  - apply NoDup_cons in Hnd as [Hx _]. intros Hin. by apply fst_zip_elem in Hin.
  - apply NoDup_cons in Hnd as [_ Hnd]. by apply IH.
Qed.

Lemma deref_writeAll_notin pcs subnets q :
  q ∉ pcs.*1 -> deref (writeAll pcs subnets) q = deref subnets q.
Proof. intros H. unfold deref. by rewrite writeAll_lookup_notin. Qed.

Lemma needs_writeAll skip pcs subnets ptrs :
  (forall p, p ∈ ptrs -> p ∉ pcs.*1) ->
  needs skip (writeAll pcs subnets) ptrs = needs skip subnets ptrs.
Proof.
  intros Hdisj. unfold needs. apply filter_ext_elem.
  intros q Hq. by rewrite deref_writeAll_notin by auto.
Qed.

Lemma needs_NoDup skip subnets ptrs : NoDup ptrs -> NoDup (needs skip subnets ptrs).
Proof. apply NoDup_filter. Qed.

Lemma assignPools_closed big little bigCIDRs subnets :
  NoDup big -> NoDup little -> (forall p, p ∈ big -> p ∉ little) ->
  assignPools big little bigCIDRs subnets =
  match bigCIDRs with
  | [] => (subnets, Some NoCIDRsAvailable)
  | c0 :: others =>
      let nl := needs skipLittle subnets little in
      let nb := needs skipBig subnets big in
      if bool_decide (0 < length little)%nat then
        match subnet.SplitInto8 c0 with
        | inl e => (subnets, Some e)
        | inr littleCIDRs =>
            match insufficient LittlePool subnets nl littleCIDRs with
            | Some e => (writeAll (zip nl littleCIDRs) subnets, Some e)
            | None => (writeAll (zip nl littleCIDRs ++ zip nb others) subnets,
                       insufficient BigPool subnets nb others)
            end
        end
      else (writeAll (zip nb bigCIDRs) subnets,
            insufficient BigPool subnets nb bigCIDRs)
  end.
Proof.
  intros Hb Hl Hdisj. unfold assignPools, assignLittle, assignBig.
  destruct bigCIDRs as [|c0 others]; [done|]. cbv zeta.
  case_bool_decide; [|by rewrite assignFrom_closed].
  destruct (subnet.SplitInto8 c0) as [e|littleCIDRs]; [done|].
  rewrite assignFrom_closed by done. fold (insufficient LittlePool subnets
    (needs skipLittle subnets little) littleCIDRs).
  destruct (insufficient LittlePool subnets (needs skipLittle subnets little)
              littleCIDRs) as [e|]; [done|].
  rewrite assignFrom_closed by done.
  assert (Hnot : forall p, p ∈ big ->
            p ∉ (zip (needs skipLittle subnets little) littleCIDRs).*1).
  { intros p Hp Hin. apply fst_zip_elem, needs_elem in Hin as [Hin _].
    by apply (Hdisj p). }
  rewrite needs_writeAll by done. rewrite writeAll_app. f_equal.
  unfold insufficient.
  destruct (needs skipBig subnets big !! length others) as [q|] eqn:Hq; [|done].
  simpl. rewrite deref_writeAll_notin; [done|].
  apply Hnot. apply list_elem_of_lookup_2, needs_elem in Hq as [Hq _]. done.
Qed.

(** ** Blocks that do not collide *)

Lemma overlap_refl b : canonical b -> subnet.Overlap b b = true.
Proof.
  intros (Hm & _ & _). unfold subnet.Overlap, subnet.last.
  assert (0 < 2 ^ (32 - Mask b)) by (apply Z.pow_pos_nonneg; lia).
  rewrite andb_diag. apply Z.leb_le. lia.
Qed.

Lemma overlap_of_within b a : canonical b -> within b a -> subnet.Overlap b a = true.
Proof.
  intros (Hm & _ & _) [Hf Hl]. unfold subnet.Overlap.
  assert (0 < 2 ^ (32 - Mask b)) by (apply Z.pow_pos_nonneg; lia).
  unfold subnet.last in *. apply andb_true_iff. rewrite !Z.leb_le. lia.
Qed.

Lemma splitInto_tiling bits parent bs :
  canonical parent -> 0 <= bits ->
  subnet.splitInto bits parent = inr bs -> tiling parent bs.
Proof.
  intros Hc Hb Hs.
  assert (Hnd : NoDup bs).
  { apply NoDup_alt. intros i j b Hi Hj.
    destruct (decide (i = j)) as [|Hne]; [done|].
    pose proof (splitInto_disjoint _ _ _ _ _ _ _ Hc Hb Hs Hne Hi Hj) as Hov.
    rewrite overlap_refl in Hov; [done|].
    eapply splitInto_canonical; eauto using list_elem_of_lookup_2. }
  split; [done|]. intros b Hin.
  destruct (splitInto_canonical _ _ _ _ Hc Hb Hs Hin) as [Hcb Hw].
  split; [done|]. split; [done|]. intros b' Hin' Hne.
  apply list_elem_of_lookup in Hin as [i Hi].
  apply list_elem_of_lookup in Hin' as [j Hj].
  assert (Hij : i ≠ j) by (intros ->; congruence).
  exact (splitInto_disjoint _ _ _ _ _ _ _ Hc Hb Hs Hij Hi Hj).
Qed.

Lemma tiling_filter (P : IPNet -> Prop) `{!∀ b, Decision (P b)} parent bs :
  tiling parent bs -> tiling parent (filter P bs).
Proof.
  intros [Hnd Hall]. split; [by apply NoDup_filter|].
  intros b [_ Hb]%list_elem_of_filter.
  destruct (Hall b Hb) as (? & ? & Hdis). split; [done|]. split; [done|].
  intros b' [_ Hb']%list_elem_of_filter. by apply Hdis.
Qed.

Lemma tiling_refine parent c0 others inner :
  tiling parent (c0 :: others) -> tiling c0 inner ->
  tiling parent (inner ++ others).
Proof.
  intros [Hnd Hall] [Hndi Halli].
  apply NoDup_cons in Hnd as [Hc0 Hnd].
  destruct (Hall c0) as (Hcc0 & Hwc0 & Hdc0); [left|].
  assert (Hcross : forall b b', b ∈ inner -> b' ∈ others -> subnet.Overlap b b' = false).
  { intros b b' Hb Hb'. destruct (Halli b Hb) as (_ & Hw & _).
    rewrite overlap_sym. apply (overlap_within b' c0 b Hw).
    rewrite overlap_sym. apply Hdc0; [by right|]. intros ->. done. }
  split.
  - apply NoDup_app. split; [done|]. split; [|done].
    intros b Hb Hb'. pose proof (Hcross b b Hb Hb') as Hov.
    destruct (Halli b Hb) as (Hcb & _). by rewrite overlap_refl in Hov.
  - intros b [Hb|Hb]%elem_of_app.
    + destruct (Halli b Hb) as (Hcb & Hw & Hd).
      split; [done|]. split; [by eapply within_trans|].
      intros b' [Hb'|Hb']%elem_of_app Hne; [by apply Hd|by apply Hcross].
    + destruct (Hall b) as (Hcb & Hw & Hd); [by right|].
      split; [done|]. split; [done|].
      intros b' [Hb'|Hb']%elem_of_app Hne.
      * rewrite overlap_sym. by apply Hcross.
      * apply Hd; [by right|done].
Qed.

Lemma zip_snd_inj {A B} (l : list A) (k : list B) x y x' :
  NoDup k -> (x, y) ∈ zip l k -> (x', y) ∈ zip l k -> x = x'.
Proof.
  intros Hnd [i Hi]%list_elem_of_lookup [j Hj]%list_elem_of_lookup.
  apply lookup_zip_Some in Hi as [Hi1 Hi2].
  apply lookup_zip_Some in Hj as [Hj1 Hj2].
  assert (i = j) as -> by (eapply NoDup_lookup; eauto). congruence.
Qed.

Lemma splitParent_inv count cidr bs :
  splitParent count cidr = inr bs ->
  exists bits, 0 <= bits <= 3 /\ subnet.splitInto bits cidr = inr bs.
Proof.
  unfold splitParent, subnet.SplitInto1, subnet.SplitInto2, subnet.SplitInto4,
    subnet.SplitInto8.
  repeat case_bool_decide; intros Hs; eexists; (split; [|exact Hs]); lia.
Qed.

(** ** What a run writes *)

Lemma plan_good cidr subnets nl nb bl bb :
  NoDup nl -> NoDup nb -> (forall p, p ∈ nl -> p ∉ nb) ->
  tiling cidr (bl ++ bb) ->
  (forall b sq r, b ∈ bl ++ bb -> sq ∈ subnets -> reservation cidr sq = Some r ->
                  subnet.Overlap r b = false) ->
  (forall p, p ∈ nl ++ nb ->
     exists sn, subnets !! p = Some sn /\ isEmpty (CIDR sn) = true /\
                ipv4less sn = false) ->
  goodPlan cidr subnets (zip nl bl ++ zip nb bb).
Proof.
  intros Hnl Hnb Hdisj [Hnd Htil] Hres Hptr.
  apply NoDup_app in Hnd as (Hndl & Hcross & Hndb).
  assert (Hmem : forall p c, (p, c) ∈ zip nl bl ++ zip nb bb ->
            p ∈ nl ++ nb /\ c ∈ bl ++ bb).
  { intros p c [Hin|Hin]%elem_of_app.
    - split; apply elem_of_app; left;
        [by eapply elem_of_zip_l|by eapply elem_of_zip_r].
    - split; apply elem_of_app; right;
        [by eapply elem_of_zip_l|by eapply elem_of_zip_r]. }
  split; [|split].
  - rewrite fmap_app. apply NoDup_app. split; [by apply fst_zip_NoDup|].
    split; [|by apply fst_zip_NoDup].
    intros p Hp Hp'. apply fst_zip_elem in Hp, Hp'. by apply (Hdisj p).
  - intros p c Hin. apply Hmem in Hin as [Hp Hc].
    destruct (Hptr p Hp) as (sn & Hsn & He & Hv).
    destruct (Htil c Hc) as (Hcc & Hw & _).
    exists sn. repeat (split; [done|]). intros sq r Hsq Hr. by eapply Hres.
  - intros p c p' c' Hin Hin' Hne.
    destruct (Hmem _ _ Hin) as [_ Hc]. destruct (Hmem _ _ Hin') as [_ Hc'].
    destruct (Htil c Hc) as (_ & _ & Hd). apply Hd; [done|]. intros <-.
    apply elem_of_app in Hin as [Hin|Hin], Hin' as [Hin'|Hin'].
    + apply Hne. exact (zip_snd_inj nl bl p c p' Hndl Hin Hin').
    + apply (Hcross c); [by eapply elem_of_zip_r|by eapply elem_of_zip_r].
    + apply (Hcross c); [by eapply elem_of_zip_r|by eapply elem_of_zip_r].
    + apply Hne. exact (zip_snd_inj nb bb p c p' Hndb Hin Hin').
Qed.

Lemma collect_ptrs cidr subnets found :
  collect cidr subnets = inr found ->
  let big := sortByZone subnets (bigSubnets found) in
  let little := sortByZone subnets (littleSubnets found) in
  NoDup big /\ NoDup little /\ (forall p, p ∈ big -> p ∉ little) /\
  (forall p, p ∈ big <->
     exists sn, subnets !! p = Some sn /\ classified cidr sn = true /\
                isPrimary (Type_ sn) = true) /\
  (forall p, p ∈ little <->
     exists sn, subnets !! p = Some sn /\ classified cidr sn = true /\
                isUtility (Type_ sn) = true).
Proof.
  intros Hc big little. destruct (collect_closed _ _ _ Hc) as (Hb & Hl & _).
  assert (Hbig : forall p, p ∈ big <->
     exists sn, subnets !! p = Some sn /\ classified cidr sn = true /\
                isPrimary (Type_ sn) = true).
  { intros p. unfold big. rewrite sortByZone_elem, Hb, ptrsWhere_elem. split.
    - intros (i & sn & -> & Hi & [? ?]%andb_prop). by exists sn.
    - intros (sn & Hp & H1 & H2). exists p, sn. by rewrite H1, H2. }
  assert (Hlittle : forall p, p ∈ little <->
     exists sn, subnets !! p = Some sn /\ classified cidr sn = true /\
                isUtility (Type_ sn) = true).
  { intros p. unfold little. rewrite sortByZone_elem, Hl, ptrsWhere_elem. split.
    - intros (i & sn & -> & Hi & [? ?]%andb_prop). by exists sn.
    - intros (sn & Hp & H1 & H2). exists p, sn. by rewrite H1, H2. }
  split; [apply sortByZone_NoDup; rewrite Hb; apply ptrsWhere_NoDup|].
  split; [apply sortByZone_NoDup; rewrite Hl; apply ptrsWhere_NoDup|].
  split; [|done].
  intros p (sn & Hp & _ & Hprim)%Hbig (sn' & Hp' & _ & Hut)%Hlittle.
  assert (sn' = sn) as -> by congruence.
  apply primary_not_utility in Hprim. congruence.
Qed.

Lemma deref_lookup subnets p sn : subnets !! p = Some sn -> deref subnets p = sn.
Proof. intros H. unfold deref. by rewrite H. Qed.

Lemma insufficient_None which subnets needy cidrs :
  insufficient which subnets needy cidrs = None -> (zip needy cidrs).*1 = needy.
Proof.
  unfold insufficient. intros H. apply fmap_None in H.
  apply fst_zip. by apply lookup_ge_None.
Qed.

Lemma skipBig_false sn :
  skipBig sn = false <-> isEmpty (CIDR sn) = true /\ ipv4less sn = false.
Proof.
  unfold skipBig, ipv4less. rewrite orb_false_iff, negb_false_iff. tauto.
Qed.

Lemma skipLittle_false sn : skipLittle sn = false <-> isEmpty (CIDR sn) = true.
Proof. unfold skipLittle. by rewrite negb_false_iff. Qed.

Lemma utility_not_ipv4less sn : isUtility (Type_ sn) = true -> ipv4less sn = false.
Proof.
  unfold isUtility, ipv4less. rewrite String.eqb_eq. intros ->.
  apply andb_false_r.
Qed.

(** The outcome of the part of the function after the second early exit:
    either it fails before any write, or it performs the writes of a sound
    plan, which, when no error is returned, covers every subnet without
    CIDR that is not IPv4-less. *)
Lemma allocate_plan networkCIDR subnets subnets' e :
  allocate networkCIDR subnets = (subnets', e) ->
  (subnets' = subnets /\ e ≠ None) \/
  exists cidr pcs,
    ParseCIDR networkCIDR = Some cidr /\ subnets' = writeAll pcs subnets /\
    goodPlan cidr subnets pcs /\
    (e = None -> forall p sn, subnets !! p = Some sn ->
       isEmpty (CIDR sn) = true -> ipv4less sn = false -> p ∈ pcs.*1).
Proof.
  unfold allocate.
  destruct (ParseCIDR networkCIDR) as [cidr|] eqn:Hparse;
    [|intros [= <- <-]; by left].
  destruct (collect cidr subnets) as [err|found] eqn:Hcol;
    [intros [= <- <-]; by left|].
  cbv zeta.
  destruct (collect_ptrs _ _ _ Hcol) as (Hndb & Hndl & Hdisj & Hbig & Hlittle).
  destruct (collect_closed _ _ _ Hcol) as (_ & _ & Hres).
  set (big := sortByZone subnets (bigSubnets found)) in *.
  set (little := sortByZone subnets (littleSubnets found)) in *.
  destruct (splitParent (cidrCount big little) cidr) as [err|bs] eqn:Hsplit;
    [intros [= <- <-]; by left|].
  rewrite assignPools_closed, removeOverlapping_filter by done.
  destruct (splitParent_inv _ _ _ Hsplit) as (bits & Hbits & Hsp).
  pose proof (ParseCIDR_canonical _ _ Hparse) as Hcan.
  assert (Htil : tiling cidr (filter (λ c, overlapped (reserved found) c = false) bs)).
  { apply tiling_filter. eapply splitInto_tiling; [done| |done]. lia. }
  assert (Hclear : forall b sq r,
            b ∈ filter (λ c, overlapped (reserved found) c = false) bs ->
            sq ∈ subnets -> reservation cidr sq = Some r ->
            subnet.Overlap r b = false).
  { intros b sq r [Hov _]%list_elem_of_filter Hsq Hr.
    eapply overlapped_false; [exact Hov|].
    rewrite Hres. apply reservation_elem. eauto. }
  destruct (filter (λ c, overlapped (reserved found) c = false) bs)
    as [|c0 others]; [intros [= <- <-]; by left|].
  cbv zeta.
  set (nl := needs skipLittle subnets little).
  set (nb := needs skipBig subnets big).
  assert (Hnl : forall p, p ∈ nl ->
            exists sn, subnets !! p = Some sn /\ isEmpty (CIDR sn) = true /\
                       ipv4less sn = false).
  { intros p [Hp Hs]%needs_elem. apply Hlittle in Hp as (sn & Hsn & _ & Hut).
    rewrite (deref_lookup _ _ _ Hsn) in Hs. exists sn.
    split; [done|]. split; [by apply skipLittle_false|].
    by apply utility_not_ipv4less. }
  assert (Hnb : forall p, p ∈ nb ->
            exists sn, subnets !! p = Some sn /\ isEmpty (CIDR sn) = true /\
                       ipv4less sn = false).
  { intros p [Hp Hs]%needs_elem. apply Hbig in Hp as (sn & Hsn & _ & _).
    rewrite (deref_lookup _ _ _ Hsn) in Hs. exists sn.
    split; [done|]. by apply skipBig_false. }
  assert (Hnlnb : forall p, p ∈ nl -> p ∉ nb).
  { intros p [Hp _]%needs_elem [Hp' _]%needs_elem. by apply (Hdisj p). }
  assert (Hin_nb : forall p sn, subnets !! p = Some sn ->
            isEmpty (CIDR sn) = true -> ipv4less sn = false ->
            isPrimary (Type_ sn) = true -> p ∈ nb).
  { intros p sn Hsn He Hv Hprim. apply needs_elem. split.
    - apply Hbig. exists sn. split; [done|]. split; [|done].
      unfold classified. by rewrite He.
    - rewrite (deref_lookup _ _ _ Hsn). by apply skipBig_false. }
  assert (Hin_nl : forall p sn, subnets !! p = Some sn ->
            isEmpty (CIDR sn) = true -> isUtility (Type_ sn) = true -> p ∈ nl).
  { intros p sn Hsn He Hut. apply needs_elem. split.
    - apply Hlittle. exists sn. split; [done|]. split; [|done].
      unfold classified. by rewrite He.
    - rewrite (deref_lookup _ _ _ Hsn). by apply skipLittle_false. }
  assert (Hrole : forall p sn, subnets !! p = Some sn ->
            isEmpty (CIDR sn) = true ->
            isPrimary (Type_ sn) = true \/ isUtility (Type_ sn) = true).
  { intros p sn Hsn He. apply orb_prop.
    eapply (collectFrom_roles _ _ _ _ _ sn Hcol);
      [by eapply list_elem_of_lookup_2|].
    unfold classified. by rewrite He. }
  case_bool_decide as Hlen.
  - destruct (subnet.SplitInto8 c0) as [err|l8] eqn:H8;
      [intros [= <- <-]; by left|].
    assert (Hc0 : canonical c0) by (apply Htil; left).
    assert (Htil8 : tiling c0 l8).
    { eapply (splitInto_tiling 3); [done|lia|exact H8]. }
    pose proof (tiling_refine _ _ _ _ Htil Htil8) as Hall.
    assert (Hclear' : forall b sq r, b ∈ l8 ++ others -> sq ∈ subnets ->
              reservation cidr sq = Some r -> subnet.Overlap r b = false).
    { intros b sq r [Hb|Hb]%elem_of_app Hsq Hr.
      - destruct Htil8 as [_ H8']. destruct (H8' b Hb) as (_ & Hw & _).
        apply (overlap_within r c0 b Hw). eapply Hclear; [left|done..].
      - eapply Hclear; [by right|done..]. }
    destruct (insufficient LittlePool subnets nl l8) as [e'|] eqn:Hins.
    + intros [= <- <-]. right. exists cidr, (zip nl l8).
      split; [done|]. split; [done|]. split; [|done].
      rewrite <- (app_nil_r (zip nl l8)).
      change (@nil (nat * IPNet)) with (zip (@nil nat) others).
      apply plan_good; try done.
      * by apply needs_NoDup.
      * constructor.
      * intros p _ Hp. by apply elem_of_nil in Hp.
      * intros p Hp. rewrite app_nil_r in Hp. by apply Hnl.
    + intros [= <- <-]. right. exists cidr, (zip nl l8 ++ zip nb others).
      split; [done|]. split; [done|]. split.
      * apply plan_good; try done; try by apply needs_NoDup.
        intros p [Hp|Hp]%elem_of_app; [by apply Hnl|by apply Hnb].
      * intros Hnone p sn Hsn He Hv. rewrite fmap_app.
        rewrite (insufficient_None _ _ _ _ Hins), (insufficient_None _ _ _ _ Hnone).
        apply elem_of_app.
        destruct (Hrole p sn Hsn He) as [Hprim|Hut]; [right|left]; eauto.
  - intros [= <- <-]. right. exists cidr, (zip nb (c0 :: others)).
    split; [done|]. split; [done|]. split.
    + change (zip nb (c0 :: others))
        with (zip (@nil nat) (@nil IPNet) ++ zip nb (c0 :: others)).
      apply plan_good; try done.
      * constructor.
      * by apply needs_NoDup.
      * intros p Hp. by apply elem_of_nil in Hp.
    + intros Hnone p sn Hsn He Hv.
      rewrite (insufficient_None _ _ _ _ Hnone).
      destruct (Hrole p sn Hsn He) as [Hprim|Hut]; [eauto|].
      assert (Hp : p ∈ little).
      { apply Hlittle. exists sn. split; [done|]. split; [|done].
        unfold classified. by rewrite He. }
      destruct little; [by apply elem_of_nil in Hp|]. simpl in Hlen. lia.
Qed.

(** ** The early exits and the external-reference resolution *)

Lemma allSubnetsHaveCIDRs_true subnets :
  allSubnetsHaveCIDRs subnets = true <->
  forall sn, sn ∈ subnets -> isEmpty (CIDR sn) = false.
Proof.
  induction subnets as [|sn rest IH]; simpl.
  - split; [|done]. by intros _ sn ?%elem_of_nil.
  - destruct (isEmpty (CIDR sn)) eqn:He.
    + split; [done|]. intros H. rewrite H in He; [done|left].
    + rewrite IH. split.
      * intros H sn' [->|?]%elem_of_cons; auto.
      * intros H sn' ?. apply H. by right.
Qed.

Lemma allSubnetsHaveCIDRs_false subnets :
  allSubnetsHaveCIDRs subnets = false <->
  exists sn, sn ∈ subnets /\ isEmpty (CIDR sn) = true.
Proof.
  induction subnets as [|sn rest IH]; simpl.
  - split; [done|]. by intros (sn & ?%elem_of_nil & _).
  - destruct (isEmpty (CIDR sn)) eqn:He.
    + split; [|done]. intros _. exists sn. split; [left|done].
    + rewrite IH. split.
      * intros (sn' & ? & ?). exists sn'. split; [by right|done].
      * intros (sn' & [->|?]%elem_of_cons & ?); [congruence|]. by exists sn'.
Qed.

(** The resolution of one subnet changes at most its CIDR, and only when
    it had none. *)
Lemma resolveSubnet_keep networkID byID sn sn' e :
  resolveSubnet networkID byID sn = (sn', e) ->
  sameButCIDR sn' sn /\ (isEmpty (CIDR sn) = false -> sn' = sn).
Proof.
  unfold resolveSubnet.
  destruct (isEmpty (ID sn)); [by intros [= <- <-]|].
  destruct (byID !! ID sn) as [cloudSubnet|]; [|by intros [= <- <-]].
  destruct (isEmpty (CIDR sn)) eqn:He.
  - destruct (isEmpty (CIDR (setCIDR (fi.CIDR cloudSubnet) sn)));
      intros [= <- <-]; by split.
  - destruct (negb (String.eqb (CIDR sn) (fi.CIDR cloudSubnet)));
      by intros [= <- <-].
Qed.

Lemma resolveSubnets_keep networkID byID subnets subnets1 e :
  resolveSubnets networkID byID subnets = (subnets1, e) ->
  length subnets1 = length subnets /\
  forall p sn sn1, subnets !! p = Some sn -> subnets1 !! p = Some sn1 ->
    sameButCIDR sn1 sn /\ (isEmpty (CIDR sn) = false -> sn1 = sn).
Proof.
  revert subnets1 e. induction subnets as [|sn0 rest IH]; intros subnets1 e; simpl.
  - intros [= <- <-]. split; [done|]. by intros p sn sn1 ?.
  - destruct (resolveSubnet networkID byID sn0) as [sn0' [e0|]] eqn:H0.
    + intros [= <- <-]. apply resolveSubnet_keep in H0.
      split; [done|]. intros [|p] sn sn1; simpl.
      * by intros [= <-] [= <-].
      * intros H1 H2. assert (sn1 = sn) as -> by congruence. by split.
    + destruct (resolveSubnets networkID byID rest) as [rest' e'] eqn:Hrest.
      intros [= <- <-]. apply resolveSubnet_keep in H0.
      destruct (IH _ _ eq_refl) as [Hlen Hall].
      split; [simpl; by rewrite Hlen|]. intros [|p] sn sn1; simpl.
      * by intros [= <-] [= <-].
      * apply Hall.
Qed.

Lemma resolveExternal_keep cloud networkID subnets subnets1 e :
  resolveExternal cloud networkID subnets = (subnets1, e) ->
  length subnets1 = length subnets /\
  forall p sn sn1, subnets !! p = Some sn -> subnets1 !! p = Some sn1 ->
    sameButCIDR sn1 sn /\ (isEmpty (CIDR sn) = false -> sn1 = sn).
Proof.
  unfold resolveExternal.
  assert (Hid : length subnets = length subnets /\
    forall p sn sn1, subnets !! p = Some sn -> subnets !! p = Some sn1 ->
      sameButCIDR sn1 sn /\ (isEmpty (CIDR sn) = false -> sn1 = sn)).
  { split; [done|]. intros p sn sn1 H1 H2.
    assert (sn1 = sn) as -> by congruence. by split. }
  destruct (negb (isEmpty networkID)); [|by intros [= <- <-]].
  destruct (fi.FindVPCInfo cloud networkID) as [err|[vpcInfo|]];
    [by intros [= <- <-]| |by intros [= <- <-]].
  apply resolveSubnets_keep.
Qed.

(** When the declarations all have a CIDR, so do they after the
    resolution. *)
Lemma resolveExternal_full cloud networkID subnets subnets1 e :
  resolveExternal cloud networkID subnets = (subnets1, e) ->
  allSubnetsHaveCIDRs subnets = true -> subnets1 = subnets.
Proof.
  intros Hr Hall. destruct (resolveExternal_keep _ _ _ _ _ Hr) as [Hlen Hkeep].
  rewrite allSubnetsHaveCIDRs_true in Hall.
  apply list_eq. intros p.
  destruct (subnets !! p) as [sn|] eqn:Hp.
  - destruct (subnets1 !! p) as [sn1|] eqn:Hp1.
    + f_equal. apply (Hkeep p sn sn1 Hp Hp1). apply Hall.
      by eapply list_elem_of_lookup_2.
    + apply lookup_ge_None in Hp1. apply lookup_lt_Some in Hp. lia.
  - apply lookup_ge_None. apply lookup_ge_None in Hp. lia.
Qed.

Lemma checkZone_None sn info : checkZone sn info = None -> Zone sn = fi.Zone info.
Proof.
  unfold checkZone. destruct (String.eqb_spec (Zone sn) (fi.Zone info)); done.
Qed.

Lemma resolveSubnet_agrees networkID byID sn sn' :
  resolveSubnet networkID byID sn = (sn', None) ->
  isEmpty (ID sn') = false ->
  exists info, byID !! ID sn' = Some info /\ CIDR sn' = fi.CIDR info /\
               Zone sn' = fi.Zone info /\ isEmpty (CIDR sn') = false.
Proof.
  unfold resolveSubnet. destruct (isEmpty (ID sn)) eqn:Hid.
  { intros [= <-]. congruence. }
  destruct (byID !! ID sn) as [info|] eqn:Hinfo; [|done].
  destruct (isEmpty (CIDR sn)) eqn:He.
  - destruct (isEmpty (CIDR (setCIDR (fi.CIDR info) sn))) eqn:He'; [done|].
    intros [= <- Hz] _. exists info. apply checkZone_None in Hz. done.
  - destruct (String.eqb_spec (CIDR sn) (fi.CIDR info)) as [Heq|]; [|done].
    simpl. intros [= <- Hz] _. exists info. apply checkZone_None in Hz. done.
Qed.

Lemma resolveSubnets_agree networkID byID subnets subnets1 sn1 :
  resolveSubnets networkID byID subnets = (subnets1, None) ->
  sn1 ∈ subnets1 -> isEmpty (ID sn1) = false ->
  exists info, byID !! ID sn1 = Some info /\ CIDR sn1 = fi.CIDR info /\
               Zone sn1 = fi.Zone info /\ isEmpty (CIDR sn1) = false.
Proof.
  revert subnets1. induction subnets as [|sn rest IH]; intros subnets1; simpl.
  - intros [= <-] Hin. by apply elem_of_nil in Hin.
  - destruct (resolveSubnet networkID byID sn) as [sn' [e0|]] eqn:H0; [done|].
    destruct (resolveSubnets networkID byID rest) as [rest' e'] eqn:Hrest.
    intros [= <- ->] [->|Hin]%elem_of_cons Hid.
    + by eapply resolveSubnet_agrees.
    + by eapply IH.
Qed.

(** Past the two early exits the function is [allocate] on the subnets as
    the resolution left them. *)
Lemma run_allocate c cloud subnets :
  resolveExternal cloud (NetworkID c) (Subnets c) = (subnets, None) ->
  allSubnetsHaveCIDRs subnets = false ->
  assignCIDRsToSubnets c cloud = allocate (NetworkCIDR c) subnets.
Proof.
  intros Hr Hnot. unfold assignCIDRsToSubnets.
  destruct (allSubnetsHaveCIDRs (Subnets c)) eqn:Hall.
  - rewrite (resolveExternal_full _ _ _ _ _ Hr Hall) in Hnot. congruence.
  - by rewrite Hr, Hnot.
Qed.

(** The three ways a call can end once the resolution has succeeded. *)
Lemma run_cases c cloud subnets subnets' e :
  resolveExternal cloud (NetworkID c) (Subnets c) = (subnets, None) ->
  assignCIDRsToSubnets c cloud = (subnets', e) ->
  (allSubnetsHaveCIDRs subnets = true /\ subnets' = subnets /\ e = None) \/
  (allSubnetsHaveCIDRs subnets = false /\
   allocate (NetworkCIDR c) subnets = (subnets', e)).
Proof.
  intros Hr Hrun. destruct (allSubnetsHaveCIDRs subnets) eqn:Hs.
  - left. split; [done|]. unfold assignCIDRsToSubnets in Hrun.
    destruct (allSubnetsHaveCIDRs (Subnets c)) eqn:Hall.
    + rewrite (resolveExternal_full _ _ _ _ _ Hr Hall). by injection Hrun as <- <-.
    + rewrite Hr, Hs in Hrun. by injection Hrun as <- <-.
  - right. split; [done|]. by rewrite <- (run_allocate c cloud subnets).
Qed.

(** * C1: the number of blocks the parent is split into *)

Lemma ptrsWhere_length f p l :
  length (ptrsWhere f p l) = length (filter (λ sn, f sn = true) l).
Proof.
  revert p. induction l as [|sn rest IH]; intros p; simpl; [done|].
  rewrite filter_cons. destruct (f sn) eqn:Hf.
  - rewrite decide_True by done. simpl. by rewrite IH.
  - rewrite decide_False by (by intros ?). apply IH.
Qed.

Lemma pow2_ge_8 (j : nat) : (3 <= j -> 8 <= 2 ^ j)%nat.
Proof.
  intros Hj. change 8%nat with (2 ^ 3)%nat. apply Nat.pow_le_mono_r; lia.
Qed.

Lemma isSplitCount_splitParent count cidr bs :
  splitParent count cidr = inr bs -> isSplitCount count (length bs).
Proof.
  unfold splitParent, subnet.SplitInto1, subnet.SplitInto2, subnet.SplitInto4,
    subnet.SplitInto8, isSplitCount.
  repeat case_bool_decide; intros Hs; apply splitInto_length in Hs; rewrite Hs;
    change (Z.to_nat (2 ^ 0)) with 1%nat; change (Z.to_nat (2 ^ 1)) with 2%nat;
    change (Z.to_nat (2 ^ 2)) with 4%nat; change (Z.to_nat (2 ^ 3)) with 8%nat;
    (split; [lia|]); (split; [|lia]); intros Hn; (split; [lia|]); intros j Hj.
  - pose proof (Nat.pow_nonzero 2 j). lia.
  - destruct j as [|j]; [simpl in Hj; lia|].
    rewrite Nat.pow_succ_r'. pose proof (Nat.pow_nonzero 2 j). lia.
  - destruct j as [|[|j]]; [simpl in Hj; lia..|].
    rewrite !Nat.pow_succ_r'. pose proof (Nat.pow_nonzero 2 j). lia.
  - destruct j as [|[|[|j]]]; [simpl in Hj; lia..|].
    apply pow2_ge_8. lia.
Qed.

(** C1, as the code has it.  The parent is split into the smallest power of
    two that is at least the slot count, capped at 8, where the slot count is
    the number of primary-role subnets that take part in the allocation
    (their CIDR is empty or has its base address in the parent), whether or
    not they already have a CIDR, plus one if at least one utility-role
    subnet takes part, whether or not it already has a CIDR. *)
Theorem C1_split_count networkCIDR subnets cidr found bs :
  ParseCIDR networkCIDR = Some cidr ->
  collect cidr subnets = inr found ->
  let big := sortByZone subnets (bigSubnets found) in
  let little := sortByZone subnets (littleSubnets found) in
  splitParent (cidrCount big little) cidr = inr bs ->
  isSplitCount (cidrCount big little) (length bs) /\
  cidrCount big little
  = (length (filter (λ sn, classified cidr sn && isPrimary (Type_ sn) = true) subnets)
     + if bool_decide
            (filter (λ sn, classified cidr sn && isUtility (Type_ sn) = true) subnets = [])
       then 0 else 1)%nat.
Proof.
  intros _ Hcol big little Hsplit.
  split; [exact (isSplitCount_splitParent _ _ _ Hsplit)|].
  destruct (collect_closed _ _ _ Hcol) as (Hb & Hl & _).
  unfold cidrCount, big, little. rewrite !sortByZone_length, Hb, Hl.
  rewrite !ptrsWhere_length. f_equal.
  destruct (filter (λ sn, classified cidr sn && isUtility (Type_ sn) = true) subnets);
    simpl; repeat case_bool_decide; try done; lia.
Qed.

Lemma C1_split_count_witness :
  isSplitCount 2 2 /\ (2 = 2 + 0)%nat.
Proof.
  exact (C1_split_count "10.0.0.0/16"
           [mk "A" "a" "10.0.0.0/17" "" SubnetTypePublic;
            mk "B" "b" "" "" SubnetTypePublic]
           {| IP := 167772160; Mask := 16 |}
           {| bigSubnets := [0; 1]%nat; littleSubnets := [];
              reserved := [{| IP := 167772160; Mask := 17 |}] |}
           [{| IP := 167772160; Mask := 17 |}; {| IP := 167804928; Mask := 17 |}]
           eq_refl eq_refl eq_refl).
Defined.

(** C1 as stated fails: with one primary subnet that already has a CIDR in
    the parent and one that needs one, a single slot needs allocation, yet
    the parent is split into two blocks. *)
Lemma C1_counterexample :
  let subnets := [mk "A" "a" "10.0.0.0/17" "" SubnetTypePublic;
                  mk "B" "b" "" "" SubnetTypePublic] in
  exists cidr found bs,
    ParseCIDR "10.0.0.0/16" = Some cidr /\
    collect cidr subnets = inr found /\
    splitParent (cidrCount (sortByZone subnets (bigSubnets found))
                   (sortByZone subnets (littleSubnets found))) cidr = inr bs /\
    slotsNeeding subnets (sortByZone subnets (bigSubnets found))
      (sortByZone subnets (littleSubnets found)) = 1%nat /\
    length bs = 2%nat /\
    ~ isSplitCount
        (slotsNeeding subnets (sortByZone subnets (bigSubnets found))
           (sortByZone subnets (littleSubnets found)))
        (length bs).
Proof.
  eexists _, _, _. split; [reflexivity|]. split; [reflexivity|].
  split; [reflexivity|]. split; [reflexivity|]. split; [reflexivity|].
  intros (_ & H & _).
  destruct H as [_ H]; [vm_compute; lia|].
  specialize (H 0%nat). vm_compute in H. lia.
Qed.

(** * C2: scenario A *)

Lemma isPrimary_cases t :
  isPrimary t = true ->
  t = SubnetTypeDualStack \/ t = SubnetTypePublic \/ t = SubnetTypePrivate.
Proof.
  unfold isPrimary. rewrite !orb_true_iff, !String.eqb_eq. tauto.
Qed.

(** C2.  Parent block 10.0.0.0/16, two primary subnets zoned a and b without
    CIDR (whatever their names, identifiers and primary roles, and in
    either order of declaration), no utility subnet, nothing reserved: the
    call succeeds, the subnet zoned a holds 10.0.0.0/17 and the subnet zoned
    b holds 10.0.128.0/17. *)
Theorem C2_scenario_A nameA nameB idA idB typeA typeB cloud :
  isPrimary typeA = true -> isPrimary typeB = true ->
  let a := {| Name := nameA; Zone := "a"; CIDR := ""; IPv6CIDR := "";
              ID := idA; Type_ := typeA |} in
  let b := {| Name := nameB; Zone := "b"; CIDR := ""; IPv6CIDR := "";
              ID := idB; Type_ := typeB |} in
  assignCIDRsToSubnets
    {| NetworkID := ""; NetworkCIDR := "10.0.0.0/16"; Subnets := [a; b] |} cloud
  = ([setCIDR "10.0.0.0/17" a; setCIDR "10.0.128.0/17" b], None)
  /\
  assignCIDRsToSubnets
    {| NetworkID := ""; NetworkCIDR := "10.0.0.0/16"; Subnets := [b; a] |} cloud
  = ([setCIDR "10.0.128.0/17" b; setCIDR "10.0.0.0/17" a], None).
Proof.
  intros Ha Hb.
  apply isPrimary_cases in Ha as [->|[->| ->]];
    apply isPrimary_cases in Hb as [->|[->| ->]];
    split; vm_compute; reflexivity.
Qed.

Lemma C2_scenario_A_witness :
  assignCIDRsToSubnets
    (cluster "10.0.0.0/16" [mk "A" "a" "" "" SubnetTypePublic;
                            mk "B" "b" "" "" SubnetTypePrivate]) noCloud
  = ([mk "A" "a" "10.0.0.0/17" "" SubnetTypePublic;
      mk "B" "b" "10.0.128.0/17" "" SubnetTypePrivate], None).
Proof.
  exact (proj1 (C2_scenario_A "A" "B" "" "" SubnetTypePublic SubnetTypePrivate
                  noCloud eq_refl eq_refl)).
Defined.

(** * C3: assigned blocks lie in the parent and collide with nothing *)

Lemma reservation_of_parse cidr sn r :
  ParseCIDR (CIDR sn) = Some r -> Contains cidr (IP r) = true ->
  reservation cidr sn = Some r.
Proof.
  intros Hp Hc. unfold reservation.
  by rewrite (ParseCIDR_nonempty _ _ Hp), Hp, Hc.
Qed.

(** C3, as the code has it.  After a successful call, every CIDR that the
    allocation wrote (the subnet had none when the external-reference
    resolution was over) is the text of a block that lies within the parent
    block and overlaps the CIDR of no other subnet whose CIDR has its base
    address in the parent block, be that CIDR declared beforehand or written
    by this call. *)
Theorem C3_assigned_blocks c cloud subnets subnets' p sn sn' :
  resolveExternal cloud (NetworkID c) (Subnets c) = (subnets, None) ->
  assignCIDRsToSubnets c cloud = (subnets', None) ->
  subnets !! p = Some sn -> isEmpty (CIDR sn) = true ->
  subnets' !! p = Some sn' -> isEmpty (CIDR sn') = false ->
  exists cidr b,
    ParseCIDR (NetworkCIDR c) = Some cidr /\
    ParseCIDR (CIDR sn') = Some b /\ within b cidr /\
    forall q sq r, q ≠ p -> subnets' !! q = Some sq ->
      ParseCIDR (CIDR sq) = Some r -> Contains cidr (IP r) = true ->
      subnet.Overlap b r = false.
Proof.
  intros Hres Hrun Hp He Hp' He'.
  destruct (run_cases _ _ _ _ _ Hres Hrun) as [(_ & -> & _)|[_ Halloc]].
  { assert (sn' = sn) as -> by congruence. congruence. }
  destruct (allocate_plan _ _ _ _ Halloc) as [[-> _]|(cidr & pcs & Hparse & -> & Hgood & _)].
  { assert (sn' = sn) as -> by congruence. congruence. }
  destruct Hgood as (Hnd & Hsound & Hpair).
  destruct (writeAll_lookup pcs subnets p sn Hnd Hp) as [[_ Hsame]|(b & Hin & Hnew)].
  { assert (sn' = sn) as -> by congruence. congruence. }
  assert (sn' = setCIDR (IPNet_String b) sn) as -> by congruence.
  destruct (Hsound _ _ Hin) as (_ & _ & _ & _ & Hcb & Hw & Hclear).
  exists cidr, b. split; [done|]. split; [by apply ParseCIDR_String|].
  split; [done|]. intros q sq r Hne Hq Hr Hcont.
  assert (is_Some (subnets !! q)) as [sq0 Hq0].
  { apply lookup_lt_is_Some. rewrite <- (writeAll_length pcs).
    by eapply lookup_lt_Some. }
  destruct (writeAll_lookup pcs subnets q sq0 Hnd Hq0) as [[_ Hsame]|(b' & Hin' & Hnew')].
  - assert (sq = sq0) as -> by congruence.
    rewrite overlap_sym. eapply Hclear; [by eapply list_elem_of_lookup_2|].
    by apply reservation_of_parse.
  - assert (sq = setCIDR (IPNet_String b') sq0) as -> by congruence.
    destruct (Hsound _ _ Hin') as (_ & _ & _ & _ & Hcb' & _).
    simpl in Hr. rewrite ParseCIDR_String in Hr by done. injection Hr as <-.
    eapply Hpair; eauto.
Qed.

Lemma C3_assigned_blocks_witness :
  exists cidr b,
    ParseCIDR "10.0.0.0/16" = Some cidr /\
    ParseCIDR "10.0.128.0/17" = Some b /\ within b cidr /\
    forall q sq r, q ≠ 1%nat ->
      [mk "A" "a" "10.0.0.0/17" "" SubnetTypePublic;
       mk "B" "b" "10.0.128.0/17" "" SubnetTypePublic] !! q = Some sq ->
      ParseCIDR (CIDR sq) = Some r -> Contains cidr (IP r) = true ->
      subnet.Overlap b r = false.
Proof.
  exact (C3_assigned_blocks
           (cluster "10.0.0.0/16" [mk "A" "a" "10.0.0.0/17" "" SubnetTypePublic;
                                   mk "B" "b" "" "" SubnetTypePublic])
           noCloud
           [mk "A" "a" "10.0.0.0/17" "" SubnetTypePublic;
            mk "B" "b" "" "" SubnetTypePublic]
           [mk "A" "a" "10.0.0.0/17" "" SubnetTypePublic;
            mk "B" "b" "10.0.128.0/17" "" SubnetTypePublic]
           1%nat (mk "B" "b" "" "" SubnetTypePublic)
           (mk "B" "b" "10.0.128.0/17" "" SubnetTypePublic)
           eq_refl eq_refl eq_refl eq_refl eq_refl eq_refl).
Defined.

(** C3 as stated fails: a CIDR declared beforehand whose base address lies
    outside the parent block is left out of the reservations, so a block
    written by the call can overlap it.  Here the subnet B receives the
    whole parent 10.1.0.0/16, inside the 10.0.0.0/8 declared for A. *)
Lemma C3_counterexample :
  exists subnets' sa sb a b,
    assignCIDRsToSubnets
      (cluster "10.1.0.0/16" [mk "A" "a" "10.0.0.0/8" "" SubnetTypePublic;
                              mk "B" "b" "" "" SubnetTypePublic]) noCloud
    = (subnets', None) /\
    subnets' !! 0%nat = Some sa /\ subnets' !! 1%nat = Some sb /\
    CIDR sa = "10.0.0.0/8" /\ CIDR sb = "10.1.0.0/16" /\
    ParseCIDR (CIDR sa) = Some a /\ ParseCIDR (CIDR sb) = Some b /\
    subnet.Overlap b a = true.
Proof.
  eexists _, _, _, _, _. split; [vm_compute; reflexivity|].
  repeat (split; [reflexivity|]). reflexivity.
Qed.

(** * C4: a pool that runs out *)

Lemma writeAll_holds pcs subnets needy blocks :
  NoDup pcs.*1 ->
  (forall q, q ∈ needy -> is_Some (subnets !! q)) ->
  (forall q b, (q, b) ∈ zip needy blocks -> (q, b) ∈ pcs) ->
  holds (writeAll pcs subnets) needy blocks.
Proof.
  intros Hnd Hdom Hsub k q b Hq Hb.
  destruct (Hdom q) as [sn Hsn]; [by eapply list_elem_of_lookup_2|].
  erewrite deref_lookup; [|eapply writeAll_lookup_in; [done| |exact Hsn]].
  - done.
  - apply Hsub. apply (list_elem_of_lookup_2 _ k). by apply lookup_zip_Some.
Qed.

Lemma allocate_pipeline networkCIDR subnets cidr found bs :
  ParseCIDR networkCIDR = Some cidr ->
  collect cidr subnets = inr found ->
  splitParent (cidrCount (sortByZone subnets (bigSubnets found))
                 (sortByZone subnets (littleSubnets found))) cidr = inr bs ->
  allocate networkCIDR subnets
  = assignPools (sortByZone subnets (bigSubnets found))
      (sortByZone subnets (littleSubnets found))
      (removeOverlapping (reserved found) bs) subnets.
Proof. intros Hp Hc Hs. unfold allocate. by rewrite Hp, Hc, Hs. Qed.

Lemma needs_unresolved skip subnets ptrs k p :
  (forall sn, skip sn = false -> isEmpty (CIDR sn) = true) ->
  (forall q, q ∈ ptrs -> is_Some (subnets !! q)) ->
  needs skip subnets ptrs !! k = Some p ->
  allSubnetsHaveCIDRs subnets = false.
Proof.
  intros Hskip Hdom Hk. apply list_elem_of_lookup_2, needs_elem in Hk as [Hp Hs].
  destruct (Hdom p Hp) as [sn Hsn]. rewrite (deref_lookup _ _ _ Hsn) in Hs.
  apply allSubnetsHaveCIDRs_false. exists sn.
  split; [by eapply list_elem_of_lookup_2|auto].
Qed.

(** The call in closed form, once the allocation is reached and the filter
    has left the blocks [c0 :: others]. *)
Lemma run_closed c cloud subnets cidr found bs c0 others :
  resolveExternal cloud (NetworkID c) (Subnets c) = (subnets, None) ->
  allSubnetsHaveCIDRs subnets = false ->
  ParseCIDR (NetworkCIDR c) = Some cidr ->
  collect cidr subnets = inr found ->
  let big := sortByZone subnets (bigSubnets found) in
  let little := sortByZone subnets (littleSubnets found) in
  let nl := needs skipLittle subnets little in
  let nb := needs skipBig subnets big in
  splitParent (cidrCount big little) cidr = inr bs ->
  removeOverlapping (reserved found) bs = c0 :: others ->
  assignCIDRsToSubnets c cloud
  = if bool_decide (0 < length little)%nat then
      match subnet.SplitInto8 c0 with
      | inl e => (subnets, Some e)
      | inr littleCIDRs =>
          match insufficient LittlePool subnets nl littleCIDRs with
          | Some e => (writeAll (zip nl littleCIDRs) subnets, Some e)
          | None => (writeAll (zip nl littleCIDRs ++ zip nb others) subnets,
                     insufficient BigPool subnets nb others)
          end
      end
    else (writeAll (zip nb (c0 :: others)) subnets,
          insufficient BigPool subnets nb (c0 :: others)).
Proof.
  intros Hres Hnot Hparse Hcol big little nl nb Hsplit Hsurv.
  destruct (collect_ptrs _ _ _ Hcol) as (Hndb & Hndl & Hdisj & _ & _).
  rewrite (run_allocate _ _ _ Hres Hnot).
  rewrite (allocate_pipeline _ _ _ _ _ Hparse Hcol Hsplit).
  by rewrite Hsurv, assignPools_closed.
Qed.

Lemma zip_fst_notin {A B} (l : list A) (k : list B) (i : nat) x :
  NoDup l -> l !! i = Some x -> (length k <= i)%nat -> x ∉ (zip l k).*1.
Proof.
  intros Hnd Hi Hlen ([x' y] & -> & Hin)%list_elem_of_fmap. simpl in *.
  apply list_elem_of_lookup in Hin as [j Hj].
  apply lookup_zip_Some in Hj as [Hj1 Hj2].
  apply lookup_lt_Some in Hj2.
  assert (i = j) by (eapply NoDup_lookup; eauto). lia.
Qed.

Lemma holds_served subnets needy blocks :
  holds subnets needy blocks -> (length blocks <= length needy)%nat ->
  served subnets needy blocks.
Proof.
  intros Hholds Hlen b [k Hk]%list_elem_of_lookup.
  assert (is_Some (needy !! k)) as [q Hq].
  { apply lookup_lt_is_Some. apply lookup_lt_Some in Hk. lia. }
  exists q. split; [by eapply list_elem_of_lookup_2|]. by eapply Hholds.
Qed.

Lemma holds_supplied subnets needy blocks :
  holds subnets needy blocks -> (length needy <= length blocks)%nat ->
  supplied subnets needy blocks.
Proof.
  intros Hholds Hlen q [k Hk]%list_elem_of_lookup.
  assert (is_Some (blocks !! k)) as [b Hb].
  { apply lookup_lt_is_Some. apply lookup_lt_Some in Hk. lia. }
  exists b. split; [by eapply list_elem_of_lookup_2|]. by eapply Hholds.
Qed.

(** C4.  [subnets] are the declarations when the external-reference
    resolution is over, [c0 :: others] the blocks that survive the filter,
    [nl] and [nb] the utility and the primary candidates that the loops do
    not pass over (no CIDR, and for [nb] not private with an IPv6 CIDR).  If
    the 8 blocks cut from [c0] are fewer than [nl], or the primary pool
    ([others], or all the surviving blocks when no utility subnet takes
    part) is shorter than [nb], the call fails with InsufficientCIDRs naming
    a candidate [p] of that list, which the result leaves as it was; and
    every block of the exhausted pool is held by a candidate in the result,
    as is a block cut from [c0] by every utility candidate when it is the
    primary pool that runs out: what was written before the failure stays
    written.  These facts use the
    candidates through membership and number only.  When the order of the
    candidates is that of the code ([sortAsCode]), the subnet named is the
    first candidate in zone order for which no block is left, and the
    [k]-th candidate holds the [k]-th block. *)
Theorem C4_pool_exhausted c cloud subnets cidr found bs c0 others :
  resolveExternal cloud (NetworkID c) (Subnets c) = (subnets, None) ->
  ParseCIDR (NetworkCIDR c) = Some cidr ->
  collect cidr subnets = inr found ->
  let big := sortByZone subnets (bigSubnets found) in
  let little := sortByZone subnets (littleSubnets found) in
  let nl := needs skipLittle subnets little in
  let nb := needs skipBig subnets big in
  splitParent (cidrCount big little) cidr = inr bs ->
  removeOverlapping (reserved found) bs = c0 :: others ->
  (forall littleCIDRs,
     little ≠ [] -> subnet.SplitInto8 c0 = inr littleCIDRs ->
     (length littleCIDRs < length nl)%nat ->
     exists subnets' p sn,
       assignCIDRsToSubnets c cloud
       = (subnets', Some (InsufficientCIDRs LittlePool (Name sn))) /\
       p ∈ nl /\ subnets !! p = Some sn /\ subnets' !! p = Some sn /\
       served subnets' nl littleCIDRs /\
       (sortAsCode subnets (littleSubnets found) ->
        nl !! length littleCIDRs = Some p /\ holds subnets' nl littleCIDRs)) /\
  (forall littleCIDRs,
     little ≠ [] -> subnet.SplitInto8 c0 = inr littleCIDRs ->
     (length nl <= length littleCIDRs)%nat ->
     (length others < length nb)%nat ->
     exists subnets' p sn,
       assignCIDRsToSubnets c cloud
       = (subnets', Some (InsufficientCIDRs BigPool (Name sn))) /\
       p ∈ nb /\ subnets !! p = Some sn /\ subnets' !! p = Some sn /\
       supplied subnets' nl littleCIDRs /\ served subnets' nb others /\
       (sortAsCode subnets (bigSubnets found) ->
        sortAsCode subnets (littleSubnets found) ->
        nb !! length others = Some p /\
        holds subnets' nl littleCIDRs /\ holds subnets' nb others)) /\
  (little = [] ->
   (length (c0 :: others) < length nb)%nat ->
   exists subnets' p sn,
     assignCIDRsToSubnets c cloud
     = (subnets', Some (InsufficientCIDRs BigPool (Name sn))) /\
     p ∈ nb /\ subnets !! p = Some sn /\ subnets' !! p = Some sn /\
     served subnets' nb (c0 :: others) /\
     (sortAsCode subnets (bigSubnets found) ->
      nb !! length (c0 :: others) = Some p /\
      holds subnets' nb (c0 :: others))).
Proof.
  intros Hres Hparse Hcol big little nl nb Hsplit Hsurv.
  destruct (collect_ptrs _ _ _ Hcol) as (Hndb & Hndl & Hdisj & Hbig & Hlittle).
  fold big little in Hndb, Hndl, Hdisj, Hbig, Hlittle.
  assert (Hdomb : forall q, q ∈ big -> is_Some (subnets !! q)).
  { intros q (sn & Hsn & _)%Hbig. by exists sn. }
  assert (Hdoml : forall q, q ∈ little -> is_Some (subnets !! q)).
  { intros q (sn & Hsn & _)%Hlittle. by exists sn. }
  assert (Hdomnb : forall q, q ∈ nb -> is_Some (subnets !! q)).
  { intros q [Hq _]%needs_elem. auto. }
  assert (Hdomnl : forall q, q ∈ nl -> is_Some (subnets !! q)).
  { intros q [Hq _]%needs_elem. auto. }
  assert (Hnlnb : forall q, q ∈ nl -> q ∉ nb).
  { intros q [Hq _]%needs_elem [Hq' _]%needs_elem. by apply (Hdisj q). }
  assert (Hndnl : NoDup nl) by (by apply needs_NoDup).
  assert (Hndnb : NoDup nb) by (by apply needs_NoDup).
  assert (Hrun : allSubnetsHaveCIDRs subnets = false -> _)
    by (intros Hnot; exact (run_closed c cloud subnets cidr found bs c0 others
                              Hres Hnot Hparse Hcol Hsplit Hsurv)).
  cbv zeta in Hrun. fold big little nl nb in Hrun.
  assert (Hlen : little ≠ [] -> bool_decide (0 < length little)%nat = true).
  { intros Hne. apply bool_decide_eq_true. destruct little; [done|simpl; lia]. }
  split; [|split].
  - intros l8 Hne H8 Hshort.
    assert (is_Some (nl !! length l8)) as [p Hp] by (by apply lookup_lt_is_Some).
    assert (Hpin : p ∈ nl) by (by eapply list_elem_of_lookup_2).
    destruct (Hdomnl p Hpin) as [sn Hsn].
    rewrite Hrun.
    2:{ eapply (needs_unresolved skipLittle); [|exact Hdoml|exact Hp].
        intros sn'. by rewrite skipLittle_false. }
    rewrite (Hlen Hne), H8. unfold insufficient. rewrite Hp. simpl.
    rewrite (deref_lookup _ _ _ Hsn).
    assert (Hholds : holds (writeAll (zip nl l8) subnets) nl l8).
    { apply writeAll_holds; [by apply fst_zip_NoDup|done|done]. }
    eexists _, p, sn. split; [reflexivity|]. split; [done|]. split; [done|].
    split. { rewrite writeAll_lookup_notin; [done|]. by eapply zip_fst_notin. }
    split; [apply holds_served; [done|lia]|done].
  - intros l8 Hne H8 Hfit Hshort.
    assert (is_Some (nb !! length others)) as [p Hp] by (by apply lookup_lt_is_Some).
    assert (Hpin : p ∈ nb) by (by eapply list_elem_of_lookup_2).
    destruct (Hdomnb p Hpin) as [sn Hsn].
    rewrite Hrun.
    2:{ eapply (needs_unresolved skipBig); [|exact Hdomb|exact Hp].
        intros sn'. rewrite skipBig_false. tauto. }
    rewrite (Hlen Hne), H8. unfold insufficient.
    rewrite (proj2 (lookup_ge_None nl (length l8)) Hfit), Hp. simpl.
    rewrite (deref_lookup _ _ _ Hsn).
    assert (Hnd : NoDup (zip nl l8 ++ zip nb others).*1).
    { rewrite fmap_app. apply NoDup_app. split; [by apply fst_zip_NoDup|].
      split; [|by apply fst_zip_NoDup].
      intros q Hq Hq'. apply fst_zip_elem in Hq, Hq'. by apply (Hnlnb q). }
    assert (Hhl : holds (writeAll (zip nl l8 ++ zip nb others) subnets) nl l8).
    { apply writeAll_holds; try done. intros q b Hin. apply elem_of_app. auto. }
    assert (Hhb : holds (writeAll (zip nl l8 ++ zip nb others) subnets) nb others).
    { apply writeAll_holds; try done. intros q b Hin. apply elem_of_app. auto. }
    eexists _, p, sn. split; [reflexivity|]. split; [done|]. split; [done|].
    split.
    { rewrite writeAll_lookup_notin; [done|]. rewrite fmap_app.
      intros [Hin|Hin]%elem_of_app.
      - apply fst_zip_elem in Hin. by apply (Hnlnb p).
      - revert Hin. by eapply zip_fst_notin. }
    split; [apply holds_supplied; [done|lia]|].
    split; [apply holds_served; [done|lia]|done].
  - intros Hnil Hshort.
    assert (is_Some (nb !! length (c0 :: others))) as [p Hp]
      by (by apply lookup_lt_is_Some).
    assert (Hpin : p ∈ nb) by (by eapply list_elem_of_lookup_2).
    destruct (Hdomnb p Hpin) as [sn Hsn].
    rewrite Hrun.
    2:{ eapply (needs_unresolved skipBig); [|exact Hdomb|exact Hp].
        intros sn'. rewrite skipBig_false. tauto. }
    rewrite Hnil. rewrite bool_decide_eq_false_2 by (simpl; lia).
    unfold insufficient. rewrite Hp. simpl. rewrite (deref_lookup _ _ _ Hsn).
    assert (Hholds : holds (writeAll (zip nb (c0 :: others)) subnets) nb (c0 :: others)).
    { apply writeAll_holds; [by apply fst_zip_NoDup|done|done]. }
    eexists _, p, sn. split; [reflexivity|]. split; [done|]. split; [done|].
    split. { rewrite writeAll_lookup_notin; [done|]. by eapply zip_fst_notin. }
    split; [apply holds_served; [done|lia]|done].
Qed.

(** Scenario D: A holds the lower half of the parent, so two of the four
    quarters survive; B and C receive them and D is left without. *)
Lemma C4_pool_exhausted_witness :
  exists subnets' p sn,
    assignCIDRsToSubnets
      (cluster "10.0.0.0/16"
         [mk "A" "a" "10.0.0.0/17" "" SubnetTypePublic;
          mk "B" "b" "" "" SubnetTypePublic;
          mk "C" "c" "" "" SubnetTypePublic;
          mk "D" "d" "" "" SubnetTypePublic]) noCloud
    = (subnets', Some (InsufficientCIDRs BigPool (Name sn))) /\
    p ∈ [1; 2; 3]%nat /\
    [mk "A" "a" "10.0.0.0/17" "" SubnetTypePublic;
     mk "B" "b" "" "" SubnetTypePublic;
     mk "C" "c" "" "" SubnetTypePublic;
     mk "D" "d" "" "" SubnetTypePublic] !! p = Some sn /\
    subnets' !! p = Some sn /\
    served subnets' [1; 2; 3]%nat
      [{| IP := 167804928; Mask := 18 |}; {| IP := 167821312; Mask := 18 |}] /\
    (sortAsCode
       [mk "A" "a" "10.0.0.0/17" "" SubnetTypePublic;
        mk "B" "b" "" "" SubnetTypePublic;
        mk "C" "c" "" "" SubnetTypePublic;
        mk "D" "d" "" "" SubnetTypePublic] [0; 1; 2; 3]%nat ->
     [1; 2; 3]%nat !! 2%nat = Some p /\
     holds subnets' [1; 2; 3]%nat
       [{| IP := 167804928; Mask := 18 |}; {| IP := 167821312; Mask := 18 |}]).
Proof.
  refine (proj2 (proj2
    (C4_pool_exhausted
       (cluster "10.0.0.0/16"
          [mk "A" "a" "10.0.0.0/17" "" SubnetTypePublic;
           mk "B" "b" "" "" SubnetTypePublic;
           mk "C" "c" "" "" SubnetTypePublic;
           mk "D" "d" "" "" SubnetTypePublic])
       noCloud
       [mk "A" "a" "10.0.0.0/17" "" SubnetTypePublic;
        mk "B" "b" "" "" SubnetTypePublic;
        mk "C" "c" "" "" SubnetTypePublic;
        mk "D" "d" "" "" SubnetTypePublic]
       {| IP := 167772160; Mask := 16 |}
       {| bigSubnets := [0; 1; 2; 3]%nat; littleSubnets := [];
          reserved := [{| IP := 167772160; Mask := 17 |}] |}
       [{| IP := 167772160; Mask := 18 |}; {| IP := 167788544; Mask := 18 |};
        {| IP := 167804928; Mask := 18 |}; {| IP := 167821312; Mask := 18 |}]
       {| IP := 167804928; Mask := 18 |}
       [{| IP := 167821312; Mask := 18 |}]
       eq_refl eq_refl eq_refl eq_refl eq_refl))
    eq_refl _).
  simpl. lia.
Defined.

(** * C5: the overlap filter *)

(** C5, as the code has it.  The filter keeps exactly the split blocks that
    overlap no reserved block, in the order the split produced them; and
    when no block is kept the call fails with NoCIDRsAvailable before the
    allocation has written any subnet: the subnets are as the
    external-reference resolution left them, which is as they were declared
    when the cluster names no network to resolve against. *)
Theorem C5_overlap_filter :
  (forall reserved bigCIDRs,
     (forall c, c ∈ removeOverlapping reserved bigCIDRs <->
                c ∈ bigCIDRs /\ forall r, r ∈ reserved -> subnet.Overlap r c = false) /\
     removeOverlapping reserved bigCIDRs `sublist_of` bigCIDRs) /\
  (forall c cloud subnets cidr found bs,
     resolveExternal cloud (NetworkID c) (Subnets c) = (subnets, None) ->
     allSubnetsHaveCIDRs subnets = false ->
     ParseCIDR (NetworkCIDR c) = Some cidr ->
     collect cidr subnets = inr found ->
     splitParent (cidrCount (sortByZone subnets (bigSubnets found))
                    (sortByZone subnets (littleSubnets found))) cidr = inr bs ->
     removeOverlapping (reserved found) bs = [] ->
     assignCIDRsToSubnets c cloud = (subnets, Some NoCIDRsAvailable)) /\
  (forall c cloud cidr found bs,
     isEmpty (NetworkID c) = true ->
     allSubnetsHaveCIDRs (Subnets c) = false ->
     ParseCIDR (NetworkCIDR c) = Some cidr ->
     collect cidr (Subnets c) = inr found ->
     splitParent (cidrCount (sortByZone (Subnets c) (bigSubnets found))
                    (sortByZone (Subnets c) (littleSubnets found))) cidr = inr bs ->
     removeOverlapping (reserved found) bs = [] ->
     assignCIDRsToSubnets c cloud = (Subnets c, Some NoCIDRsAvailable)).
Proof.
  assert (Hmain : forall c cloud subnets cidr found bs,
     resolveExternal cloud (NetworkID c) (Subnets c) = (subnets, None) ->
     allSubnetsHaveCIDRs subnets = false ->
     ParseCIDR (NetworkCIDR c) = Some cidr ->
     collect cidr subnets = inr found ->
     splitParent (cidrCount (sortByZone subnets (bigSubnets found))
                    (sortByZone subnets (littleSubnets found))) cidr = inr bs ->
     removeOverlapping (reserved found) bs = [] ->
     assignCIDRsToSubnets c cloud = (subnets, Some NoCIDRsAvailable)).
  { intros c cloud subnets cidr found bs Hres Hnot Hparse Hcol Hsplit Hnone.
    rewrite (run_allocate _ _ _ Hres Hnot).
    rewrite (allocate_pipeline _ _ _ _ _ Hparse Hcol Hsplit). by rewrite Hnone. }
  split; [|split; [exact Hmain|]].
  - intros reserved bigCIDRs. rewrite removeOverlapping_filter. split.
    + intros c. rewrite list_elem_of_filter, overlapped_false. tauto.
    + apply sublist_filter.
  - intros c cloud cidr found bs Hnet. apply Hmain.
    unfold resolveExternal. by rewrite Hnet.
Qed.

(** A declared CIDR that covers the whole parent leaves no block. *)
Lemma C5_overlap_filter_witness :
  assignCIDRsToSubnets
    (cluster "10.0.0.0/16" [mk "A" "a" "10.0.0.0/16" "" SubnetTypePublic;
                            mk "B" "b" "" "" SubnetTypePublic]) noCloud
  = ([mk "A" "a" "10.0.0.0/16" "" SubnetTypePublic;
      mk "B" "b" "" "" SubnetTypePublic], Some NoCIDRsAvailable).
Proof.
  exact (proj2 (proj2 C5_overlap_filter)
           (cluster "10.0.0.0/16" [mk "A" "a" "10.0.0.0/16" "" SubnetTypePublic;
                                   mk "B" "b" "" "" SubnetTypePublic])
           noCloud
           {| IP := 167772160; Mask := 16 |}
           {| bigSubnets := [0; 1]%nat; littleSubnets := [];
              reserved := [{| IP := 167772160; Mask := 16 |}] |}
           [{| IP := 167772160; Mask := 17 |}; {| IP := 167804928; Mask := 17 |}]
           eq_refl eq_refl eq_refl eq_refl eq_refl eq_refl).
Defined.

(** C5 as stated fails in its last part: when the cluster names a network,
    the external-reference resolution writes the cloud's CIDR into a subnet
    (lines 76-77) before the filter is reached.  Here A receives 10.0.0.0/16
    from the cloud, which then leaves no block: the call fails with
    NoCIDRsAvailable and A has been mutated. *)
Lemma C5_counterexample :
  exists subnets',
    assignCIDRsToSubnets
      {| NetworkID := "vpc-1"; NetworkCIDR := "10.0.0.0/16";
         Subnets := [withID "s-a" (mk "A" "a" "" "" SubnetTypePublic);
                     mk "B" "b" "" "" SubnetTypePublic] |}
      (cloudWith [{| fi.ID := "s-a"; fi.Zone := "a"; fi.CIDR := "10.0.0.0/16" |}])
    = (subnets', Some NoCIDRsAvailable) /\
    subnets' !! 0%nat = Some (withID "s-a" (mk "A" "a" "10.0.0.0/16" "" SubnetTypePublic)) /\
    subnets' ≠ [withID "s-a" (mk "A" "a" "" "" SubnetTypePublic);
                mk "B" "b" "" "" SubnetTypePublic].
Proof.
  eexists. split; [vm_compute; reflexivity|]. split; [reflexivity|]. discriminate.
Qed.

(** * C6: a role that is not recognised *)

Lemma classify_known p sn acc :
  knownRole (Type_ sn) = true -> exists acc', classify p sn acc = inr acc'.
Proof.
  unfold knownRole, classify, isUtility.
  destruct (isPrimary (Type_ sn)); [by eexists|]. simpl.
  intros ->. by eexists.
Qed.

Lemma classify_unknown p sn acc :
  knownRole (Type_ sn) = false ->
  classify p sn acc = inl (UnknownSubnetRole (Name sn) (Type_ sn)).
Proof.
  unfold knownRole, classify, isUtility.
  intros [-> ->]%orb_false_iff. done.
Qed.

Lemma knownRole_true t : knownRole t = true <-> recognised t.
Proof.
  unfold knownRole, isPrimary, isUtility, recognised.
  rewrite !orb_true_iff, !String.eqb_eq. tauto.
Qed.

Lemma knownRole_false t :
  knownRole t = false <->
  t ≠ SubnetTypeDualStack /\ t ≠ SubnetTypePublic /\ t ≠ SubnetTypePrivate
  /\ t ≠ SubnetTypeUtility.
Proof.
  rewrite <- not_true_iff_false, knownRole_true. unfold recognised. tauto.
Qed.

Lemma collectStep_unknown cidr p sn acc :
  classified cidr sn = true -> knownRole (Type_ sn) = false ->
  collectStep cidr p sn acc = inl (UnknownSubnetRole (Name sn) (Type_ sn)).
Proof.
  intros Hcl Hun. rewrite collectStep_cases. unfold classified in Hcl.
  destruct (isEmpty (CIDR sn)).
  - by rewrite classify_unknown.
  - simpl in Hcl. destruct (ParseCIDR (CIDR sn)) as [n|]; [|done].
    rewrite Hcl. by rewrite classify_unknown.
Qed.

Lemma collectStep_passes cidr p sn acc :
  offending cidr sn = false -> exists acc', collectStep cidr p sn acc = inr acc'.
Proof.
  unfold offending, unparsable, classified. rewrite collectStep_cases.
  destruct (isEmpty (CIDR sn)); simpl.
  - intros Hk%negb_false_iff. by apply classify_known.
  - destruct (ParseCIDR (CIDR sn)) as [n|]; [|done]. simpl.
    destruct (Contains cidr (IP n)); [|by eexists]. simpl.
    intros Hk%negb_false_iff.
    destruct (classify_known p sn acc Hk) as [acc' ->]. by eexists.
Qed.

Lemma collectFrom_first_unknown cidr p l acc i sn :
  l !! i = Some sn ->
  classified cidr sn = true -> knownRole (Type_ sn) = false ->
  (forall j sn', (j < i)%nat -> l !! j = Some sn' -> offending cidr sn' = false) ->
  collectFrom cidr p l acc = inl (UnknownSubnetRole (Name sn) (Type_ sn)).
Proof.
  revert p acc i. induction l as [|sn0 rest IH]; intros p acc i Hi Hcl Hun Hbefore.
  - done.
  - simpl. destruct i as [|i]; simpl in Hi.
    + injection Hi as ->. by rewrite collectStep_unknown.
    + destruct (collectStep_passes cidr p sn0 acc) as [acc' ->].
      { apply (Hbefore 0%nat); [lia|done]. }
      apply (IH _ _ i); try done.
      intros j sn' Hj Hj'. apply (Hbefore (S j)); [lia|done].
Qed.

(** C6, as the code has it.  When the allocation is reached (after the
    external-reference resolution some subnet has no CIDR), the parent block
    parses, and a subnet that takes part in the allocation (it has no CIDR,
    or its CIDR has its base address in the parent block) has a role that is
    none of dual-stack, public, private and utility, while every subnet
    declared before it has a CIDR that is empty or a well-formed IPv4 CIDR
    and, if it takes part, one of the four roles, the call aborts with
    UnknownSubnetRole for that subnet and the allocation writes no subnet:
    the loop returns at the first subnet it cannot classify, and what is
    declared after that subnet is not looked at. *)
Theorem C6_unknown_role c cloud subnets cidr i sn :
  resolveExternal cloud (NetworkID c) (Subnets c) = (subnets, None) ->
  allSubnetsHaveCIDRs subnets = false ->
  ParseCIDR (NetworkCIDR c) = Some cidr ->
  subnets !! i = Some sn ->
  classified cidr sn = true ->
  Type_ sn ≠ SubnetTypeDualStack -> Type_ sn ≠ SubnetTypePublic ->
  Type_ sn ≠ SubnetTypePrivate -> Type_ sn ≠ SubnetTypeUtility ->
  (forall j sn', (j < i)%nat -> subnets !! j = Some sn' ->
     (isEmpty (CIDR sn') = false -> is_Some (ParseCIDR (CIDR sn'))) /\
     (classified cidr sn' = true -> recognised (Type_ sn'))) ->
  assignCIDRsToSubnets c cloud
  = (subnets, Some (UnknownSubnetRole (Name sn) (Type_ sn))).
Proof.
  intros Hres Hnot Hparse Hi Hcl H1 H2 H3 H4 Hbefore.
  rewrite (run_allocate _ _ _ Hres Hnot). unfold allocate, collect.
  rewrite Hparse.
  rewrite (collectFrom_first_unknown cidr 0 subnets _ i sn Hi Hcl); [done| |].
  - by apply knownRole_false.
  - intros j sn' Hj Hj'. destruct (Hbefore j sn' Hj Hj') as [Hp Hr].
    unfold offending, unparsable. apply orb_false_iff. split.
    + destruct (isEmpty (CIDR sn')); [done|]. simpl.
      destruct (Hp eq_refl) as [n ->]. done.
    + destruct (classified cidr sn') eqn:Hcl'; [|done]. simpl.
      apply negb_false_iff, knownRole_true. by apply Hr.
Qed.

(** A has an unknown role; that the CIDR declared for B, after it, does not
    parse changes nothing. *)
Lemma C6_unknown_role_witness :
  assignCIDRsToSubnets
    (cluster "10.0.0.0/16" [mk "P" "p" "" "" SubnetTypePublic;
                            mk "A" "a" "" "" "bogus";
                            mk "B" "b" "garbage" "" SubnetTypePublic]) noCloud
  = ([mk "P" "p" "" "" SubnetTypePublic; mk "A" "a" "" "" "bogus";
      mk "B" "b" "garbage" "" SubnetTypePublic],
     Some (UnknownSubnetRole "A" "bogus")).
Proof.
  apply (C6_unknown_role
           (cluster "10.0.0.0/16" [mk "P" "p" "" "" SubnetTypePublic;
                                   mk "A" "a" "" "" "bogus";
                                   mk "B" "b" "garbage" "" SubnetTypePublic])
           noCloud
           [mk "P" "p" "" "" SubnetTypePublic; mk "A" "a" "" "" "bogus";
            mk "B" "b" "garbage" "" SubnetTypePublic]
           {| IP := 167772160; Mask := 16 |} 1%nat (mk "A" "a" "" "" "bogus")
           eq_refl eq_refl eq_refl eq_refl eq_refl);
    try discriminate.
  intros [|j] sn' Hj; [|lia]. intros [= <-]. split; [done|].
  intros _. right. by left.
Defined.

(** C6 as stated fails: a subnet of unknown role whose CIDR has its base
    address outside the parent block is passed over before its role is
    looked at; the call succeeds and B receives a block. *)
Lemma C6_counterexample :
  knownRole "bogus" = false /\
  assignCIDRsToSubnets
    (cluster "10.0.0.0/16" [mk "A" "a" "192.168.0.0/24" "" "bogus";
                            mk "B" "b" "" "" SubnetTypePublic]) noCloud
  = ([mk "A" "a" "192.168.0.0/24" "" "bogus";
      mk "B" "b" "10.0.0.0/16" "" SubnetTypePublic], None).
Proof. split; vm_compute; reflexivity. Qed.

(** * C7: nothing to do when every subnet has a CIDR *)

Lemma run_success c cloud subnets' :
  assignCIDRsToSubnets c cloud = (subnets', None) ->
  exists subnets,
    resolveExternal cloud (NetworkID c) (Subnets c) = (subnets, None) \/
    (allSubnetsHaveCIDRs (Subnets c) = true /\ subnets = Subnets c /\
     subnets' = Subnets c).
Proof.
  unfold assignCIDRsToSubnets.
  destruct (allSubnetsHaveCIDRs (Subnets c)) eqn:Hall.
  - intros [= <-]. exists (Subnets c). by right.
  - destruct (resolveExternal cloud (NetworkID c) (Subnets c)) as [subnets [e|]];
      [done|]. intros _. exists subnets. by left.
Qed.

Lemma setCIDR_nonempty b sn : isEmpty (CIDR (setCIDR (IPNet_String b) sn)) = false.
Proof. apply IPNet_String_nonempty. Qed.

Lemma ipv4less_same a b : sameButCIDR a b -> ipv4less a = ipv4less b.
Proof.
  intros (_ & _ & Hv6 & _ & Ht). unfold ipv4less. by rewrite Hv6, Ht.
Qed.

(** The resolution leaves alone a subnet that carries no identifier or has
    a CIDR (lines 71 and 76-83). *)
Lemma resolveSubnet_fixed networkID byID sn sn' e :
  resolveSubnet networkID byID sn = (sn', e) ->
  isEmpty (ID sn) = true \/ isEmpty (CIDR sn) = false -> sn' = sn.
Proof.
  intros Hr [Hid|Hc].
  - unfold resolveSubnet in Hr. rewrite Hid in Hr. by injection Hr as <- _.
  - by apply (resolveSubnet_keep _ _ _ _ _ Hr).
Qed.

Lemma resolveSubnets_fixed networkID byID subnets subnets1 e :
  resolveSubnets networkID byID subnets = (subnets1, e) ->
  (forall sn, sn ∈ subnets ->
     isEmpty (ID sn) = true \/ isEmpty (CIDR sn) = false) ->
  subnets1 = subnets.
Proof.
  revert subnets1 e. induction subnets as [|sn0 rest IH]; intros subnets1 e; simpl.
  - by intros [= <- <-].
  - intros Hr Hall.
    destruct (resolveSubnet networkID byID sn0) as [sn0' e0] eqn:H0.
    assert (sn0' = sn0) as ->.
    { apply (resolveSubnet_fixed _ _ _ _ _ H0). apply Hall. left. }
    destruct e0 as [e0|]; [by injection Hr as <- <-|].
    destruct (resolveSubnets networkID byID rest) as [rest' e'] eqn:Hrest.
    injection Hr as <- <-. f_equal. apply (IH _ _ eq_refl).
    intros sn Hin. apply Hall. by right.
Qed.

Lemma resolveExternal_fixed cloud networkID subnets subnets1 e :
  resolveExternal cloud networkID subnets = (subnets1, e) ->
  (isEmpty networkID = false -> forall sn, sn ∈ subnets ->
     isEmpty (ID sn) = true \/ isEmpty (CIDR sn) = false) ->
  subnets1 = subnets.
Proof.
  unfold resolveExternal. destruct (isEmpty networkID); simpl.
  - by intros [= <- <-].
  - destruct (fi.FindVPCInfo cloud networkID) as [err|[vpcInfo|]];
      [by intros [= <- <-]| |by intros [= <- <-]].
    intros Hr Hall. apply (resolveSubnets_fixed _ _ _ _ _ Hr). by apply Hall.
Qed.

(** After a resolution that succeeded, a subnet that carries an identifier
    has a CIDR. *)
Lemma resolveExternal_referenced cloud networkID subnets subnets1 sn1 :
  resolveExternal cloud networkID subnets = (subnets1, None) ->
  isEmpty networkID = false -> sn1 ∈ subnets1 ->
  isEmpty (ID sn1) = true \/ isEmpty (CIDR sn1) = false.
Proof.
  unfold resolveExternal. intros Hr Hnid Hin. rewrite Hnid in Hr. simpl in Hr.
  destruct (fi.FindVPCInfo cloud networkID) as [err|[vpcInfo|]]; [done| |done].
  destruct (isEmpty (ID sn1)) eqn:Hid; [by left|right].
  by destruct (resolveSubnets_agree _ _ _ _ _ Hr Hin Hid) as (_ & _ & _ & _ & ?).
Qed.

(** What a successful call leaves without CIDR: IPv4-less subnets only,
    and none that the resolution of a second call would write. *)
Lemma run_leaves c cloud subnets' sn' :
  assignCIDRsToSubnets c cloud = (subnets', None) ->
  sn' ∈ subnets' -> isEmpty (CIDR sn') = true ->
  ipv4less sn' = true /\
  (isEmpty (NetworkID c) = false -> isEmpty (ID sn') = true).
Proof.
  intros Hrun Hin He.
  destruct (run_success _ _ _ Hrun) as [subnets [Hres|(Hall & _ & ->)]].
  2: { rewrite allSubnetsHaveCIDRs_true in Hall. rewrite (Hall _ Hin) in He. done. }
  destruct (run_cases _ _ _ _ _ Hres Hrun) as [(Hfull & -> & _)|[_ Halloc]].
  { rewrite allSubnetsHaveCIDRs_true in Hfull. rewrite (Hfull _ Hin) in He. done. }
  destruct (allocate_plan _ _ _ _ Halloc)
    as [[_ ?]|(cidr & pcs & _ & -> & (Hnd & Hsound & _) & Hcover)]; [done|].
  apply list_elem_of_lookup in Hin as [q Hq].
  assert (is_Some (subnets !! q)) as [sn1 Hq1].
  { apply lookup_lt_is_Some. rewrite <- (writeAll_length pcs).
    by eapply lookup_lt_Some. }
  destruct (writeAll_lookup pcs subnets q sn1 Hnd Hq1) as [[Hnin Hsame]|(b & _ & Hnew)].
  - assert (sn' = sn1) as -> by congruence. split.
    + destruct (ipv4less sn1) eqn:Hv; [done|]. exfalso. apply Hnin.
      by apply (Hcover eq_refl q sn1 Hq1 He).
    + intros Hnid.
      destruct (resolveExternal_referenced _ _ _ _ sn1 Hres Hnid) as [?|Hc];
        [by eapply list_elem_of_lookup_2|done|congruence].
  - assert (sn' = setCIDR (IPNet_String b) sn1) as -> by congruence.
    rewrite setCIDR_nonempty in He. done.
Qed.

(** With nothing but IPv4-less subnets lacking a CIDR the allocation has
    no subnet to write, whatever it returns. *)
Lemma allocate_nothing networkCIDR subnets subnets' e :
  allocate networkCIDR subnets = (subnets', e) ->
  (forall sn, sn ∈ subnets -> isEmpty (CIDR sn) = true -> ipv4less sn = true) ->
  subnets' = subnets.
Proof.
  intros Halloc Hall.
  destruct (allocate_plan _ _ _ _ Halloc)
    as [[-> _]|(cidr & pcs & _ & -> & (_ & Hsound & _) & _)]; [done|].
  destruct pcs as [|[p b] pcs]; [done|]. exfalso.
  destruct (Hsound p b) as (sn & Hp & He & Hv & _); [left|].
  rewrite (Hall sn) in Hv; [done| |done]. by eapply list_elem_of_lookup_2.
Qed.

(** A successful call leaves without CIDR only IPv4-less subnets. *)
Lemma run_fills c cloud subnets' :
  assignCIDRsToSubnets c cloud = (subnets', None) ->
  (forall sn, sn ∈ Subnets c -> isEmpty (CIDR sn) = true -> ipv4less sn = false) ->
  allSubnetsHaveCIDRs subnets' = true.
Proof.
  intros Hrun Hno.
  destruct (run_success _ _ _ Hrun) as [subnets [Hres|(Hall & _ & ->)]]; [|done].
  destruct (run_cases _ _ _ _ _ Hres Hrun) as [(Hfull & -> & _)|[_ Halloc]];
    [done|].
  destruct (resolveExternal_keep _ _ _ _ _ Hres) as [Hlen Hkeep].
  destruct (allocate_plan _ _ _ _ Halloc)
    as [[_ ?]|(cidr & pcs & _ & -> & (Hnd & Hsound & _) & Hcover)]; [done|].
  apply allSubnetsHaveCIDRs_true. intros sn' [q Hq]%list_elem_of_lookup.
  assert (is_Some (subnets !! q)) as [sn1 Hq1].
  { apply lookup_lt_is_Some. rewrite <- (writeAll_length pcs).
    by eapply lookup_lt_Some. }
  destruct (writeAll_lookup pcs subnets q sn1 Hnd Hq1) as [[Hnin Hsame]|(b & _ & Hnew)].
  - assert (sn' = sn1) as -> by congruence.
    destruct (isEmpty (CIDR sn1)) eqn:He; [|done]. exfalso. apply Hnin.
    apply (Hcover eq_refl q sn1 Hq1 He).
    assert (is_Some (Subnets c !! q)) as [sn0 Hq0].
    { apply lookup_lt_is_Some. rewrite <- Hlen. by eapply lookup_lt_Some. }
    destruct (Hkeep q sn0 sn1 Hq0 Hq1) as [Hsame' Hne].
    rewrite (ipv4less_same _ _ Hsame').
    apply Hno; [by eapply list_elem_of_lookup_2|].
    destruct (isEmpty (CIDR sn0)) eqn:He0; [done|].
    rewrite (Hne eq_refl) in He. congruence.
  - assert (sn' = setCIDR (IPNet_String b) sn1) as -> by congruence.
    apply setCIDR_nonempty.
Qed.

(** C7, as the code has it.  If every declared subnet has a CIDR the call
    succeeds and leaves the declarations as they are (first early exit).  A
    second call on the result of a call that succeeded, with any cloud,
    changes no declaration, whatever it returns, and it succeeds if the
    first call left every subnet with a CIDR.  The first call does so
    whenever no subnet without CIDR is IPv4-less (private with an IPv6
    CIDR), those being the only subnets a successful call leaves without;
    then the second call succeeds and changes nothing. *)
Theorem C7_idempotent :
  (forall c cloud,
     allSubnetsHaveCIDRs (Subnets c) = true ->
     assignCIDRsToSubnets c cloud = (Subnets c, None)) /\
  (forall c cloud subnets' cloud' subnets'' e,
     assignCIDRsToSubnets c cloud = (subnets', None) ->
     assignCIDRsToSubnets
       {| NetworkID := NetworkID c; NetworkCIDR := NetworkCIDR c;
          Subnets := subnets' |} cloud'
     = (subnets'', e) ->
     subnets'' = subnets' /\
     (allSubnetsHaveCIDRs subnets' = true -> e = None)) /\
  (forall c cloud subnets' cloud',
     assignCIDRsToSubnets c cloud = (subnets', None) ->
     (forall sn, sn ∈ Subnets c -> isEmpty (CIDR sn) = true -> ipv4less sn = false) ->
     allSubnetsHaveCIDRs subnets' = true /\
     assignCIDRsToSubnets
       {| NetworkID := NetworkID c; NetworkCIDR := NetworkCIDR c;
          Subnets := subnets' |} cloud'
     = (subnets', None)).
Proof.
  assert (Hexit : forall c cloud,
            allSubnetsHaveCIDRs (Subnets c) = true ->
            assignCIDRsToSubnets c cloud = (Subnets c, None)).
  { intros c cloud Hall. unfold assignCIDRsToSubnets. by rewrite Hall. }
  split; [done|]. split.
  - intros c cloud subnets' cloud' subnets'' e Hrun Hrerun.
    destruct (allSubnetsHaveCIDRs subnets') eqn:Hfull.
    { rewrite (Hexit {| NetworkID := NetworkID c; NetworkCIDR := NetworkCIDR c;
                        Subnets := subnets' |} cloud' Hfull) in Hrerun.
      by injection Hrerun as <- <-. }
    split; [|done].
    unfold assignCIDRsToSubnets in Hrerun. cbn [NetworkID NetworkCIDR Subnets] in Hrerun.
    rewrite Hfull in Hrerun.
    destruct (resolveExternal cloud' (NetworkID c) subnets') as [subnets2 e2] eqn:Hres.
    assert (subnets2 = subnets') as ->.
    { apply (resolveExternal_fixed _ _ _ _ _ Hres). intros Hnid sn Hin.
      destruct (isEmpty (CIDR sn)) eqn:He; [left|by right].
      by apply (run_leaves _ _ _ _ Hrun Hin He). }
    destruct e2 as [e2|]; [by injection Hrerun as <- _|].
    rewrite Hfull in Hrerun.
    apply (allocate_nothing _ _ _ _ Hrerun). intros sn Hin He.
    by apply (run_leaves _ _ _ _ Hrun Hin He).
  - intros c cloud subnets' cloud' Hrun Hno.
    pose proof (run_fills _ _ _ Hrun Hno) as Hfull. split; [done|].
    by apply (Hexit {| NetworkID := NetworkID c; NetworkCIDR := NetworkCIDR c;
                       Subnets := subnets' |}).
Qed.

(** Two calls in a row on two public subnets and a private one that
    carries an IPv6 CIDR: the second call finds the private subnet without
    CIDR, goes through the allocation again, and leaves the result of the
    first as it is. *)
Lemma C7_idempotent_witness :
  [mk "A" "a" "10.0.0.0/18" "" SubnetTypePublic;
   mk "B" "b" "10.0.64.0/18" "" SubnetTypePublic;
   mk "V" "v" "" "fd00::/64" SubnetTypePrivate]
  = [mk "A" "a" "10.0.0.0/18" "" SubnetTypePublic;
     mk "B" "b" "10.0.64.0/18" "" SubnetTypePublic;
     mk "V" "v" "" "fd00::/64" SubnetTypePrivate] /\
  (allSubnetsHaveCIDRs [mk "A" "a" "10.0.0.0/18" "" SubnetTypePublic;
                        mk "B" "b" "10.0.64.0/18" "" SubnetTypePublic;
                        mk "V" "v" "" "fd00::/64" SubnetTypePrivate] = true ->
   @None error = None).
Proof.
  apply (proj1 (proj2 C7_idempotent)
           (cluster "10.0.0.0/16"
              [mk "A" "a" "" "" SubnetTypePublic;
               mk "B" "b" "" "" SubnetTypePublic;
               mk "V" "v" "" "fd00::/64" SubnetTypePrivate])
           noCloud
           [mk "A" "a" "10.0.0.0/18" "" SubnetTypePublic;
            mk "B" "b" "10.0.64.0/18" "" SubnetTypePublic;
            mk "V" "v" "" "fd00::/64" SubnetTypePrivate]
           noCloud
           [mk "A" "a" "10.0.0.0/18" "" SubnetTypePublic;
            mk "B" "b" "10.0.64.0/18" "" SubnetTypePublic;
            mk "V" "v" "" "fd00::/64" SubnetTypePrivate]
           None eq_refl eq_refl).
Defined.

(** C7 as stated fails.  Eight public subnets and a private subnet that
    carries an IPv6 CIDR: the call succeeds, the eight blocks of the parent
    going to the public subnets and the private one being passed over; the
    second call, on the result, finds a subnet without CIDR, goes through
    the allocation again, and fails because every block is taken. *)
Lemma C7_counterexample :
  assignCIDRsToSubnets
    (cluster "10.0.0.0/16"
       [mk "A" "a" "" "" SubnetTypePublic; mk "B" "b" "" "" SubnetTypePublic;
        mk "C" "c" "" "" SubnetTypePublic; mk "D" "d" "" "" SubnetTypePublic;
        mk "E" "e" "" "" SubnetTypePublic; mk "F" "f" "" "" SubnetTypePublic;
        mk "G" "g" "" "" SubnetTypePublic; mk "H" "h" "" "" SubnetTypePublic;
        mk "V" "v" "" "fd00::/64" SubnetTypePrivate]) noCloud
  = ([mk "A" "a" "10.0.0.0/19" "" SubnetTypePublic;
      mk "B" "b" "10.0.32.0/19" "" SubnetTypePublic;
      mk "C" "c" "10.0.64.0/19" "" SubnetTypePublic;
      mk "D" "d" "10.0.96.0/19" "" SubnetTypePublic;
      mk "E" "e" "10.0.128.0/19" "" SubnetTypePublic;
      mk "F" "f" "10.0.160.0/19" "" SubnetTypePublic;
      mk "G" "g" "10.0.192.0/19" "" SubnetTypePublic;
      mk "H" "h" "10.0.224.0/19" "" SubnetTypePublic;
      mk "V" "v" "" "fd00::/64" SubnetTypePrivate], None) /\
  assignCIDRsToSubnets
    (cluster "10.0.0.0/16"
       [mk "A" "a" "10.0.0.0/19" "" SubnetTypePublic;
        mk "B" "b" "10.0.32.0/19" "" SubnetTypePublic;
        mk "C" "c" "10.0.64.0/19" "" SubnetTypePublic;
        mk "D" "d" "10.0.96.0/19" "" SubnetTypePublic;
        mk "E" "e" "10.0.128.0/19" "" SubnetTypePublic;
        mk "F" "f" "10.0.160.0/19" "" SubnetTypePublic;
        mk "G" "g" "10.0.192.0/19" "" SubnetTypePublic;
        mk "H" "h" "10.0.224.0/19" "" SubnetTypePublic;
        mk "V" "v" "" "fd00::/64" SubnetTypePrivate]) noCloud
  = ([mk "A" "a" "10.0.0.0/19" "" SubnetTypePublic;
      mk "B" "b" "10.0.32.0/19" "" SubnetTypePublic;
      mk "C" "c" "10.0.64.0/19" "" SubnetTypePublic;
      mk "D" "d" "10.0.96.0/19" "" SubnetTypePublic;
      mk "E" "e" "10.0.128.0/19" "" SubnetTypePublic;
      mk "F" "f" "10.0.160.0/19" "" SubnetTypePublic;
      mk "G" "g" "10.0.192.0/19" "" SubnetTypePublic;
      mk "H" "h" "10.0.224.0/19" "" SubnetTypePublic;
      mk "V" "v" "" "fd00::/64" SubnetTypePrivate], Some NoCIDRsAvailable).
Proof. split; vm_compute; reflexivity. Qed.

(** * C8: private subnets with an IPv6 CIDR are passed over *)

Lemma ipv4less_true sn :
  Type_ sn = SubnetTypePrivate -> isEmpty (IPv6CIDR sn) = false ->
  ipv4less sn = true.
Proof. intros Ht Hv. unfold ipv4less. by rewrite Ht, Hv. Qed.

(** C8.  The big loop passes over a private subnet that carries an IPv6
    CIDR with the pool and the subnets as they were, so no block is taken
    on its behalf; and whatever the outcome of the call, such a subnet is
    after the call what it was when the external-reference resolution was
    over: in particular its CIDR, if empty, is still empty. *)
Theorem C8_ipv4less_skipped :
  (forall rest cidrs subnets p,
     Type_ (deref subnets p) = SubnetTypePrivate ->
     isEmpty (IPv6CIDR (deref subnets p)) = false ->
     assignBig (p :: rest) cidrs subnets = assignBig rest cidrs subnets) /\
  (forall c cloud subnets subnets' e p sn,
     resolveExternal cloud (NetworkID c) (Subnets c) = (subnets, None) ->
     assignCIDRsToSubnets c cloud = (subnets', e) ->
     subnets !! p = Some sn ->
     Type_ sn = SubnetTypePrivate -> isEmpty (IPv6CIDR sn) = false ->
     subnets' !! p = Some sn).
Proof.
  split.
  - intros rest cidrs subnets p Ht Hv. unfold assignBig. simpl.
    unfold skipBig. rewrite Ht, Hv. simpl. by rewrite orb_true_r.
  - intros c cloud subnets subnets' e p sn Hres Hrun Hp Ht Hv.
    destruct (run_cases _ _ _ _ _ Hres Hrun) as [(_ & -> & _)|[_ Halloc]]; [done|].
    destruct (allocate_plan _ _ _ _ Halloc)
      as [[-> _]|(cidr & pcs & _ & -> & (_ & Hsound & _) & _)]; [done|].
    rewrite writeAll_lookup_notin; [done|].
    intros ([p' b] & -> & Hin)%list_elem_of_fmap. simpl in *.
    destruct (Hsound _ _ Hin) as (sn' & Hp' & _ & Hless & _).
    assert (sn' = sn) as -> by congruence.
    rewrite ipv4less_true in Hless; done.
Qed.

Lemma C8_ipv4less_skipped_witness :
  [mk "P" "a" "" "2001:db8::/64" SubnetTypePrivate;
   mk "B" "b" "10.0.0.0/17" "" SubnetTypePublic] !! 0%nat
  = Some (mk "P" "a" "" "2001:db8::/64" SubnetTypePrivate).
Proof.
  exact (proj2 C8_ipv4less_skipped
           (cluster "10.0.0.0/16"
              [mk "P" "a" "" "2001:db8::/64" SubnetTypePrivate;
               mk "B" "b" "" "" SubnetTypePublic])
           noCloud
           [mk "P" "a" "" "2001:db8::/64" SubnetTypePrivate;
            mk "B" "b" "" "" SubnetTypePublic]
           [mk "P" "a" "" "2001:db8::/64" SubnetTypePrivate;
            mk "B" "b" "10.0.0.0/17" "" SubnetTypePublic]
           None 0%nat (mk "P" "a" "" "2001:db8::/64" SubnetTypePrivate)
           eq_refl eq_refl eq_refl eq_refl eq_refl).
Defined.

(** * C9: a utility subnet sets the first surviving block aside *)



(** * C10: the base address decides whether a declared CIDR takes part *)

Lemma classified_declared cidr sn n :
  isEmpty (CIDR sn) = false -> ParseCIDR (CIDR sn) = Some n ->
  classified cidr sn = Contains cidr (IP n).
Proof. intros He Hn. unfold classified. by rewrite He, Hn. Qed.

Lemma isPrimary_true t : isPrimary t = true <-> primaryRole t.
Proof.
  unfold isPrimary, primaryRole. rewrite !orb_true_iff, !String.eqb_eq. tauto.
Qed.

Lemma isUtility_true t : isUtility t = true <-> t = SubnetTypeUtility.
Proof. apply String.eqb_eq. Qed.

Lemma classify_primary p sn acc :
  primaryRole (Type_ sn) ->
  classify p sn acc
  = inr {| bigSubnets := bigSubnets acc ++ [p];
           littleSubnets := littleSubnets acc; reserved := reserved acc |}.
Proof. intros H%isPrimary_true. unfold classify. by rewrite H. Qed.

Lemma classify_utility p sn acc :
  Type_ sn = SubnetTypeUtility ->
  classify p sn acc
  = inr {| bigSubnets := bigSubnets acc;
           littleSubnets := littleSubnets acc ++ [p]; reserved := reserved acc |}.
Proof. intros H. unfold classify. by rewrite H. Qed.

(** C10.  For a declaration whose CIDR is not empty and parses, as IPv4
    text, to [n].  If the parent does not contain the base address of [n],
    the body of the collecting loop passes over the subnet without looking
    at its role and leaves the three slices as they are.  If it does, the
    role is checked: a dual-stack, public or private subnet is appended to
    the primary slice, a utility subnet to the utility slice, in both cases
    [n] itself, with its whole range, is appended to the reserved blocks,
    and any other role is the error UnknownSubnetRole.  So, when the loop
    ends without an error, the subnet is in the primary slice iff the parent
    contains the base address and the role is primary, in the utility slice
    iff the parent contains the base address and the role is utility, and
    it reserves [n] iff the parent contains the base address, the reserved
    blocks being the reservations in declaration order.  A declared
    10.0.0.0/8, which strictly contains the parent 10.1.0.0/16 but has its
    base address outside, is passed over even with an unknown role; the same
    10.0.0.0/8 under the parent 10.0.0.0/16, base address inside and range
    beyond, is classified and reserved whole, and with an unknown role it is
    an error. *)
Theorem C10_base_address_decides :
  (forall cidr p sn acc n,
     isEmpty (CIDR sn) = false -> ParseCIDR (CIDR sn) = Some n ->
     (Contains cidr (IP n) = false -> collectStep cidr p sn acc = inr acc) /\
     (Contains cidr (IP n) = true ->
      (primaryRole (Type_ sn) ->
       collectStep cidr p sn acc
       = inr {| bigSubnets := bigSubnets acc ++ [p];
                littleSubnets := littleSubnets acc;
                reserved := reserved acc ++ [n] |}) /\
      (Type_ sn = SubnetTypeUtility ->
       collectStep cidr p sn acc
       = inr {| bigSubnets := bigSubnets acc;
                littleSubnets := littleSubnets acc ++ [p];
                reserved := reserved acc ++ [n] |}) /\
      (~ recognised (Type_ sn) ->
       collectStep cidr p sn acc
       = inl (UnknownSubnetRole (Name sn) (Type_ sn))))) /\
  (forall cidr subnets found p sn n,
     collect cidr subnets = inr found ->
     subnets !! p = Some sn ->
     isEmpty (CIDR sn) = false -> ParseCIDR (CIDR sn) = Some n ->
     (p ∈ bigSubnets found <->
      Contains cidr (IP n) = true /\ primaryRole (Type_ sn)) /\
     (p ∈ littleSubnets found <->
      Contains cidr (IP n) = true /\ Type_ sn = SubnetTypeUtility) /\
     (Contains cidr (IP n) = true -> recognised (Type_ sn)) /\
     reservation cidr sn = (if Contains cidr (IP n) then Some n else None) /\
     reserved found = omap (reservation cidr) subnets) /\
  collect {| IP := 167837696; Mask := 16 |} [mk "A" "a" "10.0.0.0/8" "" "bogus"]
  = inr {| bigSubnets := []; littleSubnets := []; reserved := [] |} /\
  collect {| IP := 167772160; Mask := 16 |} [mk "A" "a" "10.0.0.0/8" "" SubnetTypePublic]
  = inr {| bigSubnets := [0%nat]; littleSubnets := [];
           reserved := [{| IP := 167772160; Mask := 8 |}] |} /\
  collect {| IP := 167772160; Mask := 16 |} [mk "A" "a" "10.0.0.0/8" "" "bogus"]
  = inl (UnknownSubnetRole "A" "bogus").
Proof.
  split; [|split; [|repeat split; reflexivity]].
  - intros cidr p sn acc n He Hn. rewrite collectStep_cases, He, Hn.
    split; intros ->; [done|]. split; [|split].
    + intros Hrole. by rewrite classify_primary.
    + intros Hrole. by rewrite classify_utility.
    + intros Hrole. rewrite classify_unknown; [done|].
      apply not_true_iff_false. by rewrite knownRole_true.
  - intros cidr subnets found p sn n Hcol Hp He Hn.
    destruct (collect_closed _ _ _ Hcol) as (Hb & Hl & Hr).
    pose proof (classified_declared cidr sn n He Hn) as Hcl.
    assert (Hat : forall f, p ∈ ptrsWhere f 0 subnets <-> f sn = true).
    { intros f. rewrite ptrsWhere_elem. split.
      - intros (i & sn' & -> & Hi & Hf). simpl in Hp. congruence.
      - intros Hf. by exists p, sn. }
    split; [|split; [|split; [|split; [|done]]]].
    + by rewrite Hb, Hat, andb_true_iff, Hcl, isPrimary_true.
    + by rewrite Hl, Hat, andb_true_iff, Hcl, isUtility_true.
    + intros Hc. apply knownRole_true.
      apply (collectFrom_roles _ _ _ _ _ sn Hcol (list_elem_of_lookup_2 _ _ _ Hp)).
      by rewrite Hcl.
    + unfold reservation. by rewrite He, Hn.
Qed.

Lemma C10_base_address_decides_witness :
  collectStep {| IP := 167837696; Mask := 16 |} 0
    (mk "A" "a" "10.0.0.0/8" "" "bogus")
    {| bigSubnets := []; littleSubnets := []; reserved := [] |}
  = inr {| bigSubnets := []; littleSubnets := []; reserved := [] |}.
Proof.
  exact (proj1 (proj1 C10_base_address_decides
                  {| IP := 167837696; Mask := 16 |} 0%nat
                  (mk "A" "a" "10.0.0.0/8" "" "bogus")
                  {| bigSubnets := []; littleSubnets := []; reserved := [] |}
                  {| IP := 167772160; Mask := 8 |} eq_refl eq_refl)
               eq_refl).
Defined.

(** * Further properties of subnets.go *)

(** ** X1: what a call may change *)

Lemma sameButCIDR_refl a : sameButCIDR a a.
Proof. by repeat split. Qed.

Lemma sameButCIDR_trans a b c : sameButCIDR a b -> sameButCIDR b c -> sameButCIDR a c.
Proof. unfold sameButCIDR. intuition congruence. Qed.

Lemma sameButCIDR_setCIDR cidr sn : sameButCIDR (setCIDR cidr sn) sn.
Proof. by repeat split. Qed.

(** The allocation alone: the subnets keep their number; each is what it
    was, or what it was with a CIDR where it had none. *)
Lemma allocate_keep networkCIDR subnets subnets' e :
  allocate networkCIDR subnets = (subnets', e) ->
  length subnets' = length subnets /\
  forall p sn sn', subnets !! p = Some sn -> subnets' !! p = Some sn' ->
    sameButCIDR sn' sn /\ (isEmpty (CIDR sn) = false -> sn' = sn).
Proof.
  intros Halloc.
  destruct (allocate_plan _ _ _ _ Halloc)
    as [[-> _]|(cidr & pcs & _ & -> & (Hnd & Hsound & _) & _)].
  - split; [done|]. intros p sn sn' H1 H2.
    assert (sn' = sn) as -> by congruence. split; [apply sameButCIDR_refl|done].
  - split; [apply writeAll_length|]. intros p sn sn' Hp Hp'.
    destruct (writeAll_lookup pcs subnets p sn Hnd Hp) as [[_ Hsame]|(b & Hin & Hnew)].
    + assert (sn' = sn) as -> by congruence. split; [apply sameButCIDR_refl|done].
    + assert (sn' = setCIDR (IPNet_String b) sn) as -> by congruence.
      split; [apply sameButCIDR_setCIDR|]. intros He.
      destruct (Hsound _ _ Hin) as (sn0 & Hp0 & He0 & _).
      assert (sn0 = sn) as -> by congruence. congruence.
Qed.

(** X1.  Whatever the outcome of a call, error or not, the subnets keep
    their number and their order; a subnet that had a CIDR is left exactly as
    it was; a subnet that had none differs from what it was in its CIDR at
    most.  The call never renames, re-zones, re-types or drops a subnet and
    never overwrites a CIDR. *)
Theorem X1_only_missing_cidrs_written c cloud subnets' e :
  assignCIDRsToSubnets c cloud = (subnets', e) ->
  length subnets' = length (Subnets c) /\
  forall p sn sn', Subnets c !! p = Some sn -> subnets' !! p = Some sn' ->
    sameButCIDR sn' sn /\ (isEmpty (CIDR sn) = false -> sn' = sn).
Proof.
  unfold assignCIDRsToSubnets.
  assert (Hid : length (Subnets c) = length (Subnets c) /\
    forall p sn sn', Subnets c !! p = Some sn -> Subnets c !! p = Some sn' ->
      sameButCIDR sn' sn /\ (isEmpty (CIDR sn) = false -> sn' = sn)).
  { split; [done|]. intros p sn sn' H1 H2.
    assert (sn' = sn) as -> by congruence. split; [apply sameButCIDR_refl|done]. }
  destruct (allSubnetsHaveCIDRs (Subnets c)); [by intros [= <- <-]|].
  destruct (resolveExternal cloud (NetworkID c) (Subnets c)) as [subnets1 e1] eqn:Hres.
  pose proof (resolveExternal_keep _ _ _ _ _ Hres) as Hkeep.
  destruct e1 as [e1|]; [by intros [= <- <-]|].
  destruct (allSubnetsHaveCIDRs subnets1); [by intros [= <- <-]|].
  intros Halloc. destruct Hkeep as [Hlen Hkeep].
  destruct (allocate_keep _ _ _ _ Halloc) as [Hlen' Hkeep'].
  split; [congruence|]. intros p sn sn' Hp Hp'.
  assert (is_Some (subnets1 !! p)) as [sn1 Hp1].
  { apply lookup_lt_is_Some. rewrite Hlen. by eapply lookup_lt_Some. }
  destruct (Hkeep p sn sn1 Hp Hp1) as [Hs1 Hk1].
  destruct (Hkeep' p sn1 sn' Hp1 Hp') as [Hs2 Hk2].
  split; [by eapply sameButCIDR_trans|].
  intros He. rewrite <- (Hk1 He). apply Hk2. by rewrite (Hk1 He).
Qed.

Lemma X1_only_missing_cidrs_written_witness :
  length [mk "A" "a" "10.0.0.0/17" "" SubnetTypePublic;
          mk "B" "b" "10.0.128.0/17" "" SubnetTypePublic]
  = length [mk "A" "a" "10.0.0.0/17" "" SubnetTypePublic;
            mk "B" "b" "" "" SubnetTypePublic] /\
  forall p sn sn',
    [mk "A" "a" "10.0.0.0/17" "" SubnetTypePublic;
     mk "B" "b" "" "" SubnetTypePublic] !! p = Some sn ->
    [mk "A" "a" "10.0.0.0/17" "" SubnetTypePublic;
     mk "B" "b" "10.0.128.0/17" "" SubnetTypePublic] !! p = Some sn' ->
    sameButCIDR sn' sn /\ (isEmpty (CIDR sn) = false -> sn' = sn).
Proof.
  exact (X1_only_missing_cidrs_written
           (cluster "10.0.0.0/16" [mk "A" "a" "10.0.0.0/17" "" SubnetTypePublic;
                                   mk "B" "b" "" "" SubnetTypePublic])
           noCloud
           [mk "A" "a" "10.0.0.0/17" "" SubnetTypePublic;
            mk "B" "b" "10.0.128.0/17" "" SubnetTypePublic]
           None eq_refl).
Defined.

(** ** X2: the map from identifier to cloud record *)

Lemma subnetByID_fold infos (m : gmap string fi.SubnetInfo) id :
  foldl (λ m info, <[fi.ID info := info]> m) m infos !! id
  = match last (filter (λ info, fi.ID info = id) infos) with
    | Some info => Some info
    | None => m !! id
    end.
Proof.
  revert m. induction infos as [|info rest IH]; intros m; simpl; [done|].
  rewrite IH, filter_cons. case_decide as Hid.
  - rewrite last_cons.
    destruct (last (filter (λ info0, fi.ID info0 = id) rest)); [done|].
    rewrite <- Hid. apply lookup_insert_eq.
  - destruct (last (filter (λ info0, fi.ID info0 = id) rest)); [done|].
    by apply lookup_insert_ne.
Qed.

(** X2.  Looking an identifier up in the map built from the cloud's records
    gives the last record that carries the identifier, and nothing when no
    record carries it: of two cloud subnets with the same identifier the
    later one silently wins. *)
Theorem X2_subnetByID_last infos id :
  subnetByID infos !! id = last (filter (λ info, fi.ID info = id) infos).
Proof.
  unfold subnetByID. rewrite subnetByID_fold.
  by destruct (last (filter (λ info, fi.ID info = id) infos)).
Qed.

(** ** X3: after a successful call the references agree with the cloud *)

(** X3.  When a call that had to look the network up succeeds, every subnet
    that refers to a cloud subnet by identifier ends with the CIDR and the
    zone of the cloud's record for that identifier.  (A call on declarations
    that all have a CIDR returns before the look-up and checks nothing.) *)
Theorem X3_references_agree_with_cloud c cloud subnets' :
  assignCIDRsToSubnets c cloud = (subnets', None) ->
  allSubnetsHaveCIDRs (Subnets c) = false ->
  isEmpty (NetworkID c) = false ->
  exists vpcInfo,
    fi.FindVPCInfo cloud (NetworkID c) = inr (Some vpcInfo) /\
    forall sn', sn' ∈ subnets' -> isEmpty (ID sn') = false ->
      exists info,
        subnetByID (fi.Subnets vpcInfo) !! ID sn' = Some info /\
        CIDR sn' = fi.CIDR info /\ Zone sn' = fi.Zone info.
Proof.
  intros Hrun Hnot Hnet. unfold assignCIDRsToSubnets in Hrun. rewrite Hnot in Hrun.
  destruct (resolveExternal cloud (NetworkID c) (Subnets c)) as [subnets1 [e1|]] eqn:Hres;
    [done|].
  unfold resolveExternal in Hres. rewrite Hnet in Hres. simpl in Hres.
  destruct (fi.FindVPCInfo cloud (NetworkID c)) as [err|[vpcInfo|]]; [done| |done].
  exists vpcInfo. split; [done|].
  assert (Hagree : forall sn1, sn1 ∈ subnets1 -> isEmpty (ID sn1) = false ->
            exists info, subnetByID (fi.Subnets vpcInfo) !! ID sn1 = Some info /\
                         CIDR sn1 = fi.CIDR info /\ Zone sn1 = fi.Zone info /\
                         isEmpty (CIDR sn1) = false).
  { intros sn1. by eapply resolveSubnets_agree. }
  intros sn' [p Hp']%list_elem_of_lookup Hid.
  assert (Hsame : exists sn1, subnets1 !! p = Some sn1 /\ sameButCIDR sn' sn1 /\
                              (isEmpty (CIDR sn1) = false -> sn' = sn1)).
  { destruct (allSubnetsHaveCIDRs subnets1).
    - injection Hrun as <-. exists sn'. split; [done|].
      split; [apply sameButCIDR_refl|done].
    - destruct (allocate_keep _ _ _ _ Hrun) as [Hlen Hkeep].
      assert (is_Some (subnets1 !! p)) as [sn1 Hp1].
      { apply lookup_lt_is_Some. rewrite <- Hlen. by eapply lookup_lt_Some. }
      exists sn1. split; [done|]. exact (Hkeep p sn1 sn' Hp1 Hp'). }
  destruct Hsame as (sn1 & Hp1 & (_ & _ & _ & Hids & _) & Hk).
  destruct (Hagree sn1) as (info & Hinfo & Hc & Hz & He).
  { exact (list_elem_of_lookup_2 _ _ _ Hp1). }
  { by rewrite <- Hids. }
  rewrite (Hk He). by exists info.
Qed.

Lemma X3_references_agree_with_cloud_witness :
  exists vpcInfo,
    fi.FindVPCInfo
      (cloudWith [{| fi.ID := "s-a"; fi.Zone := "a"; fi.CIDR := "10.0.0.0/17" |}])
      "vpc-1" = inr (Some vpcInfo) /\
    forall sn',
      sn' ∈ [withID "s-a" (mk "A" "a" "10.0.0.0/17" "" SubnetTypePublic);
             mk "B" "b" "10.0.128.0/17" "" SubnetTypePublic] ->
      isEmpty (ID sn') = false ->
      exists info,
        subnetByID (fi.Subnets vpcInfo) !! ID sn' = Some info /\
        CIDR sn' = fi.CIDR info /\ Zone sn' = fi.Zone info.
Proof.
  exact (X3_references_agree_with_cloud
           {| NetworkID := "vpc-1"; NetworkCIDR := "10.0.0.0/16";
              Subnets := [withID "s-a" (mk "A" "a" "" "" SubnetTypePublic);
                          mk "B" "b" "" "" SubnetTypePublic] |}
           (cloudWith [{| fi.ID := "s-a"; fi.Zone := "a"; fi.CIDR := "10.0.0.0/17" |}])
           [withID "s-a" (mk "A" "a" "10.0.0.0/17" "" SubnetTypePublic);
            mk "B" "b" "10.0.128.0/17" "" SubnetTypePublic]
           eq_refl eq_refl eq_refl).
Defined.

(** ** X4: a resolution that fails has already written *)

Lemma resolveSubnets_failure networkID byID subnets subnets1 e :
  resolveSubnets networkID byID subnets = (subnets1, Some e) ->
  exists before sn after before' sn',
    subnets = before ++ sn :: after /\
    resolveSubnets networkID byID before = (before', None) /\
    resolveSubnet networkID byID sn = (sn', Some e) /\
    subnets1 = before' ++ sn' :: after.
Proof.
  revert subnets1. induction subnets as [|sn0 rest IH]; intros subnets1; simpl; [done|].
  destruct (resolveSubnet networkID byID sn0) as [sn0' [e0|]] eqn:H0.
  - intros [= <- <-]. by exists [], sn0, rest, [], sn0'.
  - destruct (resolveSubnets networkID byID rest) as [rest' e'] eqn:Hrest.
    intros [= <- ->].
    destruct (IH _ eq_refl) as (before & sn & after & before' & sn' & -> & Hb & Hsn & ->).
    exists (sn0 :: before), sn, after, (sn0' :: before'), sn'.
    split; [done|]. split; [|done]. simpl. by rewrite H0, Hb.
Qed.

(** X4.  When the check of the references against the cloud fails, the
    call returns that error with the subnets declared before the failing one
    already resolved (those that had no CIDR now hold the cloud's) and the
    subnets declared after it untouched: the failure is not rolled back. *)
Theorem X4_failed_resolution_is_partial c cloud vpcInfo subnets1 e :
  allSubnetsHaveCIDRs (Subnets c) = false ->
  isEmpty (NetworkID c) = false ->
  fi.FindVPCInfo cloud (NetworkID c) = inr (Some vpcInfo) ->
  resolveSubnets (NetworkID c) (subnetByID (fi.Subnets vpcInfo)) (Subnets c)
  = (subnets1, Some e) ->
  assignCIDRsToSubnets c cloud = (subnets1, Some e) /\
  exists before sn after before' sn',
    Subnets c = before ++ sn :: after /\
    resolveSubnets (NetworkID c) (subnetByID (fi.Subnets vpcInfo)) before
    = (before', None) /\
    resolveSubnet (NetworkID c) (subnetByID (fi.Subnets vpcInfo)) sn = (sn', Some e) /\
    subnets1 = before' ++ sn' :: after.
Proof.
  intros Hnot Hnet Hvpc Hres. split; [|by apply resolveSubnets_failure].
  unfold assignCIDRsToSubnets, resolveExternal.
  by rewrite Hnot, Hnet, Hvpc, Hres.
Qed.

(** A gets the cloud's CIDR before B's reference is found dangling. *)
Lemma X4_failed_resolution_is_partial_witness :
  assignCIDRsToSubnets
    {| NetworkID := "vpc-1"; NetworkCIDR := "10.0.0.0/16";
       Subnets := [withID "s-a" (mk "A" "a" "" "" SubnetTypePublic);
                   withID "s-none" (mk "B" "b" "" "" SubnetTypePublic);
                   mk "C" "c" "" "" SubnetTypePublic] |}
    (cloudWith [{| fi.ID := "s-a"; fi.Zone := "a"; fi.CIDR := "10.0.0.0/17" |}])
  = ([withID "s-a" (mk "A" "a" "10.0.0.0/17" "" SubnetTypePublic);
      withID "s-none" (mk "B" "b" "" "" SubnetTypePublic);
      mk "C" "c" "" "" SubnetTypePublic],
     Some (ExternalSubnetNotFound "s-none" "vpc-1")).
Proof.
  exact (proj1 (X4_failed_resolution_is_partial
           {| NetworkID := "vpc-1"; NetworkCIDR := "10.0.0.0/16";
              Subnets := [withID "s-a" (mk "A" "a" "" "" SubnetTypePublic);
                          withID "s-none" (mk "B" "b" "" "" SubnetTypePublic);
                          mk "C" "c" "" "" SubnetTypePublic] |}
           (cloudWith [{| fi.ID := "s-a"; fi.Zone := "a"; fi.CIDR := "10.0.0.0/17" |}])
           {| fi.Subnets := [{| fi.ID := "s-a"; fi.Zone := "a"; fi.CIDR := "10.0.0.0/17" |}] |}
           [withID "s-a" (mk "A" "a" "10.0.0.0/17" "" SubnetTypePublic);
            withID "s-none" (mk "B" "b" "" "" SubnetTypePublic);
            mk "C" "c" "" "" SubnetTypePublic]
           (ExternalSubnetNotFound "s-none" "vpc-1")
           eq_refl eq_refl eq_refl eq_refl)).
Defined.

(** ** X5: the errors of the collecting loop *)

Lemma collectStep_outcome cidr p sn acc :
  match collectStep cidr p sn acc with
  | inr _ => offending cidr sn = false
  | inl e => offending cidr sn = true /\ e = collectError sn
  end.
Proof.
  rewrite collectStep_cases.
  unfold offending, collectError, unparsable, classified.
  destruct (isEmpty (CIDR sn)); simpl.
  - destruct (knownRole (Type_ sn)) eqn:Hk.
    + by destruct (classify_known p sn acc Hk) as [acc' ->].
    + by rewrite (classify_unknown p sn acc Hk).
  - destruct (ParseCIDR (CIDR sn)) as [n|]; [|done].
    destruct (Contains cidr (IP n)); [|done]. simpl.
    destruct (knownRole (Type_ sn)) eqn:Hk.
    + by destruct (classify_known p sn acc Hk) as [acc' ->].
    + by rewrite (classify_unknown p sn acc Hk).
Qed.

Lemma collectFrom_outcome cidr p l acc :
  match collectFrom cidr p l acc with
  | inr _ => forall sn, sn ∈ l -> offending cidr sn = false
  | inl e =>
      exists i sn,
        l !! i = Some sn /\ offending cidr sn = true /\
        (forall j sn', (j < i)%nat -> l !! j = Some sn' -> offending cidr sn' = false) /\
        e = collectError sn
  end.
Proof.
  revert p acc. induction l as [|sn0 rest IH]; intros p acc; simpl.
  - by intros sn ?%elem_of_nil.
  - pose proof (collectStep_outcome cidr p sn0 acc) as H0.
    destruct (collectStep cidr p sn0 acc) as [e0|acc'].
    + destruct H0 as [Hoff ->]. exists 0%nat, sn0.
      split; [done|]. split; [done|]. split; [|done]. intros j sn' Hj. lia.
    + specialize (IH (S p) acc').
      destruct (collectFrom cidr (S p) rest acc') as [e|found].
      * destruct IH as (i & sn & Hi & Hoff & Hfirst & ->).
        exists (S i), sn. split; [done|]. split; [done|]. split; [|done].
        intros [|j] sn' Hj; simpl.
        -- by intros [= <-].
        -- apply Hfirst. lia.
      * intros sn [->|Hin]%elem_of_cons; auto.
Qed.

(** X5.  For declarations whose CIDRs are IPv4 text (no colon: the text
    net.ParseCIDR would read as IPv6 is outside the model of the parser).
    The collecting loop ends without an error exactly when no subnet is
    offending, that is, every declared CIDR parses and every subnet that
    takes part in the allocation has a known role.  Otherwise its error is
    that of the first offending subnet in declaration order, "invalid subnet
    CIDR" if its CIDR does not parse and "unknown type" if not; the error
    "unexpected CIDR" of the second parse (line 137) is never returned. *)
Theorem X5_collect_outcome cidr subnets :
  Forall (λ sn, ipv4Text (CIDR sn) = true) subnets ->
  match collect cidr subnets with
  | inr _ => forall sn, sn ∈ subnets -> offending cidr sn = false
  | inl e =>
      exists i sn,
        subnets !! i = Some sn /\ offending cidr sn = true /\
        (forall j sn', (j < i)%nat -> subnets !! j = Some sn' ->
                       offending cidr sn' = false) /\
        e = collectError sn /\
        forall name text, e ≠ UnexpectedSubnetCIDR name text
  end.
Proof.
  intros _. unfold collect.
  pose proof (collectFrom_outcome cidr 0 subnets
                {| bigSubnets := []; littleSubnets := []; reserved := [] |}) as H.
  destruct (collectFrom cidr 0 subnets _) as [e|found]; [|done].
  destruct H as (i & sn & Hi & Hoff & Hfirst & ->).
  exists i, sn. repeat (split; [done|]).
  intros name text. unfold collectError. by destruct (unparsable sn).
Qed.

(** The first offending subnet is B, whose CIDR does not parse; the unknown
    role of C, declared after it, is not reached. *)
Lemma X5_collect_outcome_witness :
  exists i sn,
    [mk "A" "a" "10.0.0.0/17" "" SubnetTypePublic;
     mk "B" "b" "garbage" "" SubnetTypePublic;
     mk "C" "c" "" "" "bogus"] !! i = Some sn /\
    offending {| IP := 167772160; Mask := 16 |} sn = true /\
    (forall j sn', (j < i)%nat ->
       [mk "A" "a" "10.0.0.0/17" "" SubnetTypePublic;
        mk "B" "b" "garbage" "" SubnetTypePublic;
        mk "C" "c" "" "" "bogus"] !! j = Some sn' ->
       offending {| IP := 167772160; Mask := 16 |} sn' = false) /\
    InvalidSubnetCIDR "B" "garbage" = collectError sn /\
    forall name text, InvalidSubnetCIDR "B" "garbage" ≠ UnexpectedSubnetCIDR name text.
Proof.
  refine (X5_collect_outcome {| IP := 167772160; Mask := 16 |}
            [mk "A" "a" "10.0.0.0/17" "" SubnetTypePublic;
             mk "B" "b" "garbage" "" SubnetTypePublic;
             mk "C" "c" "" "" "bogus"] _).
  repeat constructor.
Defined.

(** ** X6: the order of the candidates *)

Lemma ltb_leb a b : String.ltb a b = negb (String.leb b a).
Proof.
  unfold String.ltb, String.leb. rewrite (String.compare_antisym b a).
  by destruct (String.compare a b).
Qed.

Lemma leb_trans a b c :
  String.leb a b = true -> String.leb b c = true -> String.leb a c = true.
Proof.
  intros H1 H2. apply Is_true_true. apply Is_true_true in H1, H2.
  change (String.le a c). change (String.le a b) in H1. change (String.le b c) in H2.
  by etrans.
Qed.

Lemma notLess_leb subnets p q :
  Less subnets q p = false <->
  String.leb (Zone (deref subnets p)) (Zone (deref subnets q)) = true.
Proof. unfold Less. rewrite ltb_leb, negb_false_iff. done. Qed.

Lemma Less_asym subnets p q : Less subnets p q = true -> Less subnets q p = false.
Proof.
  unfold Less. rewrite !ltb_leb, negb_true_iff, negb_false_iff. intros H.
  destruct (String.leb_total (Zone (deref subnets p)) (Zone (deref subnets q)))
    as [|H']; [done|congruence].
Qed.

Lemma notLess_trans subnets p q r :
  Less subnets q p = false -> Less subnets r q = false -> Less subnets r p = false.
Proof. rewrite !notLess_leb. apply leb_trans. Qed.

Lemma insertByZone_sorted subnets p a :
  StronglySorted (λ x y, Less subnets y x = false) a ->
  StronglySorted (λ x y, Less subnets y x = false) (insertByZone subnets p a).
Proof.
  induction 1 as [|q r Hsorted IH Hall]; simpl.
  - repeat constructor.
  - destruct (Less subnets p q) eqn:Hpq.
    + constructor; [by constructor|]. apply Less_asym in Hpq.
      constructor; [done|]. eapply Forall_impl; [exact Hall|].
      intros x Hx. simpl in *. by eapply notLess_trans.
    + constructor; [done|]. rewrite insertByZone_perm. by constructor.
Qed.

Lemma filter_none {A} (P : A -> Prop) `{!∀ x, Decision (P x)} (l : list A) :
  Forall (λ x, ¬ P x) l -> filter P l = [].
Proof.
  induction 1 as [|x l Hx _ IH]; [done|].
  by rewrite filter_cons, decide_False, IH.
Qed.

Lemma insertByZone_stable subnets p a z :
  StronglySorted (λ x y, Less subnets y x = false) a ->
  filter (λ x, Zone (deref subnets x) = z) (insertByZone subnets p a)
  = filter (λ x, Zone (deref subnets x) = z) a
    ++ filter (λ x, Zone (deref subnets x) = z) [p].
Proof.
  induction 1 as [|q r Hsorted IH Hall]; simpl; [done|].
  destruct (Less subnets p q) eqn:Hpq.
  - rewrite (filter_cons _ p (q :: r)), (filter_cons _ p []), filter_nil.
    case_decide as Hz; [|by rewrite app_nil_r].
    assert (Hnone : filter (λ x, Zone (deref subnets x) = z) (q :: r) = []).
    { apply filter_none. constructor.
      - intros Hq. unfold Less in Hpq. rewrite Hz, Hq, ltb_leb in Hpq.
        destruct (String.leb_total z z) as [Hzz|Hzz]; by rewrite Hzz in Hpq.
      - eapply Forall_impl; [exact Hall|]. intros x Hx Hxz. simpl in Hx.
        apply notLess_leb in Hx. unfold Less in Hpq.
        rewrite ltb_leb, negb_true_iff in Hpq. rewrite Hz, Hxz in *. congruence. }
    by rewrite Hnone.
  - rewrite !(filter_cons _ q), IH. by case_decide.
Qed.

Lemma sortByZone_sorted subnets a :
  StronglySorted (λ p q, Less subnets q p = false) (sortByZone subnets a).
Proof.
  unfold sortByZone.
  enough (forall acc,
    StronglySorted (λ p q, Less subnets q p = false) acc ->
    StronglySorted (λ p q, Less subnets q p = false)
      (foldl (λ sorted p, insertByZone subnets p sorted) acc a)) as H
    by (apply H; constructor).
  induction a as [|p a IH]; intros acc Hacc; simpl; [done|].
  apply IH. by apply insertByZone_sorted.
Qed.

(** X6.  Sorting by zone rearranges the candidates without losing or
    repeating any, and in the result no candidate has a zone smaller than
    the zone of a candidate before it: so much holds of any number of
    candidates.  When there are at most 12 candidates, where sort.Sort is an
    insertion sort, or no two candidates share a zone, the candidates of
    any one zone come in the order they were declared in. *)
Theorem X6_sortByZone_stable_sort subnets a :
  sortByZone subnets a ≡ₚ a /\
  StronglySorted (λ p q, Less subnets q p = false) (sortByZone subnets a) /\
  (sortAsCode subnets a ->
   forall z, filter (λ p, Zone (deref subnets p) = z) (sortByZone subnets a)
             = filter (λ p, Zone (deref subnets p) = z) a).
Proof.
  split; [apply sortByZone_perm|]. unfold sortByZone.
  enough (forall acc,
    StronglySorted (λ p q, Less subnets q p = false) acc ->
    StronglySorted (λ p q, Less subnets q p = false)
      (foldl (λ sorted p, insertByZone subnets p sorted) acc a) /\
    forall z, filter (λ p, Zone (deref subnets p) = z)
                (foldl (λ sorted p, insertByZone subnets p sorted) acc a)
              = filter (λ p, Zone (deref subnets p) = z) acc
                ++ filter (λ p, Zone (deref subnets p) = z) a) as H.
  { destruct (H [] ltac:(constructor)) as [H1 H2]. split; [done|].
    intros _ z. by rewrite H2. }
  induction a as [|p a IH]; intros acc Hacc; simpl.
  - split; [done|]. intros z. by rewrite app_nil_r.
  - destruct (IH _ (insertByZone_sorted subnets p acc Hacc)) as [H1 H2].
    split; [done|]. intros z.
    rewrite H2, insertByZone_stable by done.
    rewrite <- app_assoc. f_equal. rewrite <- filter_app. done.
Qed.

(** Three candidates, the second and the third zoned a: they come first,
    in declaration order. *)
Lemma X6_sortByZone_stable_sort_witness :
  filter (λ p, Zone (deref [mk "B" "b" "" "" SubnetTypePublic;
                            mk "A1" "a" "" "" SubnetTypePublic;
                            mk "A2" "a" "" "" SubnetTypePublic] p) = "a")
    (sortByZone [mk "B" "b" "" "" SubnetTypePublic;
                 mk "A1" "a" "" "" SubnetTypePublic;
                 mk "A2" "a" "" "" SubnetTypePublic] [0; 1; 2]%nat)
  = filter (λ p, Zone (deref [mk "B" "b" "" "" SubnetTypePublic;
                              mk "A1" "a" "" "" SubnetTypePublic;
                              mk "A2" "a" "" "" SubnetTypePublic] p) = "a")
      [0; 1; 2]%nat.
Proof.
  refine (proj2 (proj2 (X6_sortByZone_stable_sort
            [mk "B" "b" "" "" SubnetTypePublic;
             mk "A1" "a" "" "" SubnetTypePublic;
             mk "A2" "a" "" "" SubnetTypePublic] [0; 1; 2]%nat)) _ "a").
  left. simpl. lia.
Defined.

(** ** X7: who gets which block *)

Lemma StronglySorted_filter {A} (R : relation A) (P : A -> Prop)
    `{!∀ x, Decision (P x)} (l : list A) :
  StronglySorted R l -> StronglySorted R (filter P l).
Proof.
  induction 1 as [|x l Hsorted IH Hall]; [constructor|].
  rewrite filter_cons. case_decide; [|done]. constructor; [done|].
  apply Forall_forall. intros y [_ Hy]%list_elem_of_filter.
  by eapply Forall_forall in Hall.
Qed.

(** X7.  When the allocation is reached and the call succeeds, and each
    of the two slices of candidates has at most 12 subnets, where sort.Sort
    is an insertion sort, or no two subnets of one zone, the candidates the
    loops do not pass over, taken in ascending order of zone (declaration
    order within a zone), hold the blocks of their pool in the order of the
    pool: the [k]-th such primary subnet holds the [k]-th block of the
    primary pool and the [k]-th such utility subnet the [k]-th of the 8
    blocks cut from the block set aside.  No pool is shorter than the list
    it serves. *)
Theorem X7_blocks_follow_zone_order c cloud subnets subnets' cidr found bs c0 others :
  resolveExternal cloud (NetworkID c) (Subnets c) = (subnets, None) ->
  allSubnetsHaveCIDRs subnets = false ->
  ParseCIDR (NetworkCIDR c) = Some cidr ->
  collect cidr subnets = inr found ->
  sortAsCode subnets (bigSubnets found) ->
  sortAsCode subnets (littleSubnets found) ->
  let big := sortByZone subnets (bigSubnets found) in
  let little := sortByZone subnets (littleSubnets found) in
  let nl := needs skipLittle subnets little in
  let nb := needs skipBig subnets big in
  splitParent (cidrCount big little) cidr = inr bs ->
  removeOverlapping (reserved found) bs = c0 :: others ->
  assignCIDRsToSubnets c cloud = (subnets', None) ->
  StronglySorted (λ p q, Less subnets q p = false) nl /\
  StronglySorted (λ p q, Less subnets q p = false) nb /\
  (little = [] ->
   (length nb <= length (c0 :: others))%nat /\ holds subnets' nb (c0 :: others)) /\
  (forall littleCIDRs,
     little ≠ [] -> subnet.SplitInto8 c0 = inr littleCIDRs ->
     (length nl <= length littleCIDRs)%nat /\ (length nb <= length others)%nat /\
     holds subnets' nl littleCIDRs /\ holds subnets' nb others).
Proof.
  intros Hres Hnot Hparse Hcol _ _ big little nl nb Hsplit Hsurv Hrun.
  destruct (collect_ptrs _ _ _ Hcol) as (Hndb & Hndl & Hdisj & Hbig & Hlittle).
  fold big little in Hndb, Hndl, Hdisj, Hbig, Hlittle.
  split; [apply StronglySorted_filter, sortByZone_sorted|].
  split; [apply StronglySorted_filter, sortByZone_sorted|].
  assert (Hdomnb : forall q, q ∈ nb -> is_Some (subnets !! q)).
  { intros q [(sn & Hsn & _)%Hbig _]%needs_elem. by exists sn. }
  assert (Hdomnl : forall q, q ∈ nl -> is_Some (subnets !! q)).
  { intros q [(sn & Hsn & _)%Hlittle _]%needs_elem. by exists sn. }
  assert (Hnlnb : forall q, q ∈ nl -> q ∉ nb).
  { intros q [Hq _]%needs_elem [Hq' _]%needs_elem. by apply (Hdisj q). }
  rewrite (run_allocate _ _ _ Hres Hnot) in Hrun.
  rewrite (allocate_pipeline _ _ _ _ _ Hparse Hcol Hsplit) in Hrun.
  fold big little in Hrun. rewrite Hsurv, assignPools_closed in Hrun by done.
  cbv zeta in Hrun. fold nl nb in Hrun. split.
  - intros Hnil. rewrite Hnil in Hrun.
    rewrite bool_decide_eq_false_2 in Hrun by (simpl; lia).
    injection Hrun as <- Hnone. split.
    + unfold insufficient in Hnone. apply fmap_None in Hnone.
      by apply lookup_ge_None.
    + apply writeAll_holds; [by apply fst_zip_NoDup, needs_NoDup|done|done].
  - intros l8 Hne H8.
    rewrite bool_decide_eq_true_2 in Hrun by (destruct little; [done|simpl; lia]).
    rewrite H8 in Hrun.
    destruct (insufficient LittlePool subnets nl l8) as [e'|] eqn:Hins; [done|].
    injection Hrun as <- Hnone.
    split; [unfold insufficient in Hins; apply fmap_None in Hins;
            by apply lookup_ge_None|].
    split; [unfold insufficient in Hnone; apply fmap_None in Hnone;
            by apply lookup_ge_None|].
    assert (Hnd : NoDup (zip nl l8 ++ zip nb others).*1).
    { rewrite fmap_app. apply NoDup_app.
      split; [by apply fst_zip_NoDup, needs_NoDup|].
      split; [|by apply fst_zip_NoDup, needs_NoDup].
      intros q Hq Hq'. apply fst_zip_elem in Hq, Hq'. by apply (Hnlnb q). }
    split; apply writeAll_holds; try done; intros q b Hin; apply elem_of_app; auto.
Qed.

Lemma X7_blocks_follow_zone_order_witness :
  (length [1; 0]%nat <= 2)%nat /\
  holds [mk "B" "b" "10.0.128.0/17" "" SubnetTypePublic;
         mk "A" "a" "10.0.0.0/17" "" SubnetTypePrivate]
    [1; 0]%nat
    [{| IP := 167772160; Mask := 17 |}; {| IP := 167804928; Mask := 17 |}].
Proof.
  refine (proj1 (proj2 (proj2
    (X7_blocks_follow_zone_order
       (cluster "10.0.0.0/16" [mk "B" "b" "" "" SubnetTypePublic;
                               mk "A" "a" "" "" SubnetTypePrivate])
       noCloud
       [mk "B" "b" "" "" SubnetTypePublic; mk "A" "a" "" "" SubnetTypePrivate]
       [mk "B" "b" "10.0.128.0/17" "" SubnetTypePublic;
        mk "A" "a" "10.0.0.0/17" "" SubnetTypePrivate]
       {| IP := 167772160; Mask := 16 |}
       {| bigSubnets := [0; 1]%nat; littleSubnets := []; reserved := [] |}
       [{| IP := 167772160; Mask := 17 |}; {| IP := 167804928; Mask := 17 |}]
       {| IP := 167772160; Mask := 17 |}
       [{| IP := 167804928; Mask := 17 |}]
       eq_refl eq_refl eq_refl eq_refl _ _ eq_refl eq_refl eq_refl))) eq_refl);
    left; simpl; lia.
Defined.

(** ** X8: the utility subnets are served first *)




(** ** X9: what a successful call leaves without a CIDR *)

(** X9.  After a successful call a subnet has no CIDR only if it is private
    and carries an IPv6 CIDR: every other subnet that lacked a CIDR has been
    given one. *)
Theorem X9_success_leaves_only_ipv4less c cloud subnets' sn' :
  assignCIDRsToSubnets c cloud = (subnets', None) ->
  sn' ∈ subnets' -> isEmpty (CIDR sn') = true ->
  Type_ sn' = SubnetTypePrivate /\ isEmpty (IPv6CIDR sn') = false.
Proof.
  intros Hrun Hin He.
  assert (Hless : ipv4less sn' = true -> Type_ sn' = SubnetTypePrivate /\
                                        isEmpty (IPv6CIDR sn') = false).
  { unfold ipv4less. intros [Hv Ht]%andb_prop.
    apply String.eqb_eq in Ht. by apply negb_true_iff in Hv. }
  apply Hless. clear Hless.
  destruct (run_success _ _ _ Hrun) as [subnets [Hres|(Hall & _ & ->)]].
  2:{ rewrite allSubnetsHaveCIDRs_true in Hall. rewrite Hall in He; done. }
  destruct (run_cases _ _ _ _ _ Hres Hrun) as [(Hfull & -> & _)|[_ Halloc]].
  { rewrite allSubnetsHaveCIDRs_true in Hfull. rewrite Hfull in He; done. }
  destruct (allocate_plan _ _ _ _ Halloc)
    as [[_ ?]|(cidr & pcs & _ & -> & (Hnd & _ & _) & Hcover)]; [done|].
  apply list_elem_of_lookup in Hin as [q Hq].
  assert (is_Some (subnets !! q)) as [sn1 Hq1].
  { apply lookup_lt_is_Some. rewrite <- (writeAll_length pcs).
    by eapply lookup_lt_Some. }
  destruct (writeAll_lookup pcs subnets q sn1 Hnd Hq1) as [[Hnin Hsame]|(b & _ & Hnew)].
  - assert (sn' = sn1) as -> by congruence.
    destruct (ipv4less sn1) eqn:Hv; [done|]. exfalso. apply Hnin.
    exact (Hcover eq_refl q sn1 Hq1 He Hv).
  - assert (sn' = setCIDR (IPNet_String b) sn1) as -> by congruence.
    by rewrite setCIDR_nonempty in He.
Qed.

Lemma X9_success_leaves_only_ipv4less_witness :
  Type_ (mk "P" "a" "" "2001:db8::/64" SubnetTypePrivate) = SubnetTypePrivate /\
  isEmpty (IPv6CIDR (mk "P" "a" "" "2001:db8::/64" SubnetTypePrivate)) = false.
Proof.
  apply (X9_success_leaves_only_ipv4less
           (cluster "10.0.0.0/16"
              [mk "P" "a" "" "2001:db8::/64" SubnetTypePrivate;
               mk "B" "b" "" "" SubnetTypePublic])
           noCloud
           [mk "P" "a" "" "2001:db8::/64" SubnetTypePrivate;
            mk "B" "b" "10.0.0.0/17" "" SubnetTypePublic]
           (mk "P" "a" "" "2001:db8::/64" SubnetTypePrivate) eq_refl);
    [left|reflexivity].
Defined.

(** ** X10: resolving again changes nothing *)

Lemma resolveSubnet_again networkID byID sn sn' :
  resolveSubnet networkID byID sn = (sn', None) ->
  resolveSubnet networkID byID sn' = (sn', None).
Proof.
  unfold resolveSubnet at 1. destruct (isEmpty (ID sn)) eqn:Hid.
  { intros [= <-]. unfold resolveSubnet. by rewrite Hid. }
  destruct (byID !! ID sn) as [info|] eqn:Hinfo; [|done].
  destruct (isEmpty (CIDR sn)) eqn:He.
  - destruct (isEmpty (CIDR (setCIDR (fi.CIDR info) sn))) eqn:He'; [done|].
    intros [= <- Hz]. unfold resolveSubnet. simpl in *.
    rewrite Hid, Hinfo, He', String.eqb_refl. simpl.
    unfold checkZone in *. simpl in *.
    by destruct (String.eqb (Zone sn) (fi.Zone info)).
  - destruct (String.eqb (CIDR sn) (fi.CIDR info)) eqn:Heq; [|done]. simpl.
    intros [= <- Hz]. unfold resolveSubnet. by rewrite Hid, Hinfo, He, Heq, Hz.
Qed.

Lemma resolveSubnets_again networkID byID subnets subnets1 :
  resolveSubnets networkID byID subnets = (subnets1, None) ->
  resolveSubnets networkID byID subnets1 = (subnets1, None).
Proof.
  revert subnets1. induction subnets as [|sn rest IH]; intros subnets1; simpl.
  - by intros [= <-].
  - destruct (resolveSubnet networkID byID sn) as [sn' [e0|]] eqn:H0; [done|].
    destruct (resolveSubnets networkID byID rest) as [rest' e'] eqn:Hrest.
    intros [= <- ->]. simpl.
    by rewrite (resolveSubnet_again _ _ _ _ H0), (IH _ eq_refl).
Qed.

(** X10.  A resolution that has succeeded is stable: checking the resolved
    subnets against the same cloud again succeeds and changes nothing, the
    CIDRs copied from the cloud now passing the comparison with it. *)
Theorem X10_resolution_is_stable cloud networkID subnets subnets1 :
  resolveExternal cloud networkID subnets = (subnets1, None) ->
  resolveExternal cloud networkID subnets1 = (subnets1, None).
Proof.
  unfold resolveExternal. destruct (negb (isEmpty networkID)); [|by intros [= <-]].
  destruct (fi.FindVPCInfo cloud networkID) as [err|[vpcInfo|]]; [done| |done].
  apply resolveSubnets_again.
Qed.

Lemma X10_resolution_is_stable_witness :
  resolveExternal
    (cloudWith [{| fi.ID := "s-a"; fi.Zone := "a"; fi.CIDR := "10.0.0.0/17" |}])
    "vpc-1"
    [withID "s-a" (mk "A" "a" "10.0.0.0/17" "" SubnetTypePublic);
     mk "B" "b" "" "" SubnetTypePublic]
  = ([withID "s-a" (mk "A" "a" "10.0.0.0/17" "" SubnetTypePublic);
      mk "B" "b" "" "" SubnetTypePublic], None).
Proof.
  exact (X10_resolution_is_stable
           (cloudWith [{| fi.ID := "s-a"; fi.Zone := "a"; fi.CIDR := "10.0.0.0/17" |}])
           "vpc-1"
           [withID "s-a" (mk "A" "a" "" "" SubnetTypePublic);
            mk "B" "b" "" "" SubnetTypePublic]
           [withID "s-a" (mk "A" "a" "10.0.0.0/17" "" SubnetTypePublic);
            mk "B" "b" "" "" SubnetTypePublic]
           eq_refl).
Defined.
